(** * User analytics tracker: a shallow embedding

    The tracker of this repository is one JavaScript class,
    [UserAnalytics], whose methods mutate the instance, the page and a
    remote document store.  The embedding below follows the class method
    by method:

    - JavaScript data is kept as the language has it: a counter object
      such as [casinoPreferences.viewed] is an ordinary object, with the
      [for ... in] enumeration order and the properties inherited from
      [Object.prototype]; [undefined + 1] is [NaN]; truthiness is
      written out;
    - a method is a computation in a small state-and-exception monad
      over a [World] (the instance, the page, the log of requests sent
      to the outside);
    - what the outside answers (the IP endpoint, the document store, the
      Firestore snapshot iterator) is a parameter, [Env];
    - the class never declares the identifier [firebase]: it is a global
      that the page may or may not provide.  [Env] says which, and a
      method that reads the identifier on a page without it throws a
      [ReferenceError] there, as the language does.

    The numbers of the tracker are integers.  JavaScript numbers are IEEE
    doubles, exact on the integers below [2^53]; the counters of a page
    session stay in that range and are modelled in [Z].  A count read
    from the store is bounded by hypothesis where a statement adds to
    it. *)

From Stdlib Require Import String Ascii List ZArith NArith Bool Lia.
From Stdlib Require Import RelationClasses Permutation Sorted.
Import ListNotations.

Local Open Scope string_scope.
Local Open Scope Z_scope.

(** ** Strings *)

Module JsString.

(** [s.startsWith(t)]. *)
Fixpoint startsWith (s t : string) : bool :=
  match t, s with
  | EmptyString, _ => true
  | String c t', String d s' => Ascii.eqb c d && startsWith s' t'
  | String _ _, EmptyString => false
  end.

Fixpoint indexOfFrom (s t : string) (i : Z) : Z :=
  if startsWith s t then i
  else match s with
       | EmptyString => -1
       | String _ s' => indexOfFrom s' t (i + 1)
       end.

(** [s.indexOf(t)]: the first position at which [t] occurs in [s], and
    [-1] when it does not occur. *)
Definition indexOf (s t : string) : Z := indexOfFrom s t 0.

(** ASCII case folding, for the [/.../i] tests. *)
Definition lowerAscii (c : ascii) : ascii :=
  let n := nat_of_ascii c in
  if (Nat.leb 65 n && Nat.leb n 90)%bool then ascii_of_nat (n + 32) else c.

Fixpoint lower (s : string) : string :=
  match s with
  | EmptyString => EmptyString
  | String c s' => String (lowerAscii c) (lower s')
  end.

(** [/t/i.test(s)] for a pattern [t] made of literal characters. *)
Definition testIgnoreCase (t s : string) : bool :=
  0 <=? indexOf (lower s) (lower t).

(** [t] occurs in [s]. *)
Definition Contains (t s : string) : Prop :=
  exists pre post, s = pre ++ t ++ post.

End JsString.

(** ** Numbers and values *)

(** The numbers the tracker computes with: integer counts, and [NaN]
    (what [undefined + 1] and [ToNumber] of a function are). *)
Inductive JsNumber : Type :=
  | Num (n : Z)
  | NaN.

(** The values that reach the tracker's counters and event payloads.
    [VBuiltin name] is the member [name] of [Object.prototype], seen
    through an object that inherits it (a function, or the prototype
    itself for [__proto__]); [VDate ms] is a [Date], in milliseconds. *)
#[warnings="-register-all"] Inductive JsValue : Type :=
  | VUndefined
  | VNull
  | VBool (b : bool)
  | VNumber (x : JsNumber)
  | VString (s : string)
  | VBuiltin (name : string)
  | VDate (ms : Z)
  | VObject (fields : list (string * JsValue)).

(** [ToBoolean]. *)
Definition truthy (v : JsValue) : bool :=
  match v with
  | VUndefined | VNull => false
  | VBool b => b
  | VNumber (Num n) => negb (n =? 0)
  | VNumber NaN => false
  | VString s => negb (s =? "")%string
  | VBuiltin _ | VDate _ | VObject _ => true
  end.

(** [ToNumber], on the values a counter slot can hold. *)
Definition toNumber (v : JsValue) : JsNumber :=
  match v with
  | VNumber x => x
  | VNull => Num 0
  | VBool b => Num (if b then 1 else 0)
  | VString "" => Num 0
  | _ => NaN
  end.

(** [x + 1] on numbers. *)
Definition increment (x : JsNumber) : JsNumber :=
  match x with
  | Num n => Num (n + 1)
  | NaN => NaN
  end.

(** [a || b]. *)
Definition orElse (a b : JsValue) : JsValue := if truthy a then a else b.

(** A string that may be [null] or [undefined], as a value. *)
Definition ofString (s : option string) : JsValue :=
  match s with
  | Some x => VString x
  | None => VNull
  end.

(** Truthiness of such a string: [null] and the empty string are falsy. *)
Definition present (s : option string) : bool := truthy (ofString s).

(** ** Ordinary objects used as counter maps *)

Module JsObject.

(** The own properties, in creation order.  Every slot the tracker
    writes holds a number. *)
Definition t : Type := list (string * JsNumber).

Definition empty : t := [].

(** The enumerable-free members every ordinary object inherits. *)
Definition objectPrototypeMembers : list string :=
  [ "constructor"; "__proto__"; "hasOwnProperty"; "isPrototypeOf";
    "propertyIsEnumerable"; "toLocaleString"; "toString"; "valueOf";
    "__defineGetter__"; "__defineSetter__"; "__lookupGetter__";
    "__lookupSetter__" ].

Definition inherited (k : string) : bool :=
  existsb (String.eqb k) objectPrototypeMembers.

Fixpoint own (o : t) (k : string) : option JsNumber :=
  match o with
  | [] => None
  | (k', x) :: o' => if (k' =? k)%string then Some x else own o' k
  end.

(** [o[k]]: the own property, else the inherited member, else
    [undefined]. *)
Definition get (o : t) (k : string) : JsValue :=
  match own o k with
  | Some x => VNumber x
  | None => if inherited k then VBuiltin k else VUndefined
  end.

Fixpoint replace (o : t) (k : string) (x : JsNumber) : t :=
  match o with
  | [] => []
  | (k', y) :: o' =>
      if (k' =? k)%string then (k', x) :: o' else (k', y) :: replace o' k x
  end.

(** [o[k] = x] for a number [x].  Assigning a number to [__proto__]
    runs the inherited setter, which ignores values that are neither
    objects nor [null]; any other key becomes (or stays) an own
    property, a new one being created last. *)
Definition set (o : t) (k : string) (x : JsNumber) : t :=
  if (k =? "__proto__")%string then o
  else match own o k with
       | Some _ => replace o k x
       | None => (o ++ [(k, x)])%list
       end.

(** [o[k]++]. *)
Definition postIncrement (o : t) (k : string) : t :=
  set o k (increment (toNumber (get o k))).

Definition digit (c : ascii) : option N :=
  let n := N_of_ascii c in
  if ((48 <=? n) && (n <=? 57))%N then Some (n - 48)%N else None.

Fixpoint decimal (s : string) (acc : N) : option N :=
  match s with
  | EmptyString => Some acc
  | String c s' =>
      match digit c with
      | Some d => decimal s' (10 * acc + d)%N
      | None => None
      end
  end.

(** A property key is an array index when it is the canonical decimal
    form of an integer in [0, 2^32 - 2]. *)
Definition arrayIndex (k : string) : option N :=
  match k with
  | EmptyString => None
  | String c rest =>
      if (Ascii.eqb c "0" && negb (rest =? ""))%string%bool then None
      else match decimal k 0 with
           | Some n => if (n <? 2 ^ 32 - 1)%N then Some n else None
           | None => None
           end
  end.

Fixpoint insertIndex (n : N) (k : string) (l : list (N * string))
  : list (N * string) :=
  match l with
  | [] => [(n, k)]
  | (m, k') :: l' =>
      if (n <? m)%N then (n, k) :: l else (m, k') :: insertIndex n k l'
  end.

(** The own keys that are array indices, in ascending numeric order. *)
Fixpoint indexKeys (o : t) : list (N * string) :=
  match o with
  | [] => []
  | (k, _) :: o' =>
      match arrayIndex k with
      | Some n => insertIndex n k (indexKeys o')
      | None => indexKeys o'
      end
  end.

(** The other own keys, in creation order. *)
Fixpoint nameKeys (o : t) : list string :=
  match o with
  | [] => []
  | (k, _) :: o' =>
      match arrayIndex k with
      | Some _ => nameKeys o'
      | None => k :: nameKeys o'
      end
  end.

(** The order in which [for (key in o)] and [Object.entries(o)] visit the
    keys: array indices ascending, then the other keys as created.
    ([Object.prototype] has no enumerable member, so nothing inherited
    is visited.) *)
Definition ownPropertyKeys (o : t) : list string :=
  (map snd (indexKeys o) ++ nameKeys o)%list.

(** [Object.entries(o)]. *)
Definition entries (o : t) : list (string * JsNumber) :=
  map (fun k => (k, toNumber (get o k))) (ownPropertyKeys o).

(** The keys as created, the order a reader of the code might expect. *)
Definition insertionOrder (o : t) : list string := map fst o.

(** The count stored under [k], when it is a number. *)
Definition count (o : t) (k : string) : option Z :=
  match own o k with
  | Some (Num n) => Some n
  | _ => None
  end.

End JsObject.

(** ** The tracker instance *)

Definition Payload : Type := list (string * JsValue).

Record UserProfile : Type := {
  ip : option string;
  location : JsValue;
  device : string;
  browser : string;
  firstSeen : Z;
  returning : bool;
  (** [userProfile.username] is read by [createPost]; the constructor
      does not create it. *)
  username : option string
}.

Record CasinoPreferences : Type := {
  viewed : JsObject.t;
  clicked : JsObject.t;
  amenitiesSelected : JsObject.t;
  typePreference : option string
}.

Record Search : Type := {
  query : string;
  filters : Payload;
  searchedAt : Z
}.

Record Interaction : Type := {
  type : string;
  details : Payload;
  timestamp : Z
}.

Record SessionData : Type := {
  pageViews : Z;
  startTime : Z;
  searches : list Search;
  interactions : list Interaction;
  casinoPreferences : CasinoPreferences
}.

Record UserAnalytics : Type := {
  sessionStartTime : Z;
  sessionId : string;
  userProfile : UserProfile;
  sessionData : SessionData;
  isAuthenticated : bool;
  userId : option string;
  userEmail : option string;
  (** [this.previousVisits] is assigned only when a returning visitor
      is recognised; until then the property is [undefined]. *)
  previousVisits : option Z
}.

(** Field updates, [this.f = x] for the fields the methods assign. *)

Definition withIp (x : option string) (p : UserProfile) : UserProfile :=
  {| ip := x; location := location p; device := device p;
     browser := browser p; firstSeen := firstSeen p;
     returning := returning p; username := username p |}.

Definition withLocation (x : JsValue) (p : UserProfile) : UserProfile :=
  {| ip := ip p; location := x; device := device p;
     browser := browser p; firstSeen := firstSeen p;
     returning := returning p; username := username p |}.

Definition withReturning (x : bool) (p : UserProfile) : UserProfile :=
  {| ip := ip p; location := location p; device := device p;
     browser := browser p; firstSeen := firstSeen p;
     returning := x; username := username p |}.

Definition withViewed (x : JsObject.t) (c : CasinoPreferences) :=
  {| viewed := x; clicked := clicked c;
     amenitiesSelected := amenitiesSelected c;
     typePreference := typePreference c |}.

Definition withClicked (x : JsObject.t) (c : CasinoPreferences) :=
  {| viewed := viewed c; clicked := x;
     amenitiesSelected := amenitiesSelected c;
     typePreference := typePreference c |}.

Definition withAmenitiesSelected (x : JsObject.t) (c : CasinoPreferences) :=
  {| viewed := viewed c; clicked := clicked c;
     amenitiesSelected := x;
     typePreference := typePreference c |}.

Definition withTypePreference (x : option string) (c : CasinoPreferences) :=
  {| viewed := viewed c; clicked := clicked c;
     amenitiesSelected := amenitiesSelected c;
     typePreference := x |}.

Definition withPageViews (x : Z) (d : SessionData) : SessionData :=
  {| pageViews := x; startTime := startTime d; searches := searches d;
     interactions := interactions d;
     casinoPreferences := casinoPreferences d |}.

Definition withSearches (x : list Search) (d : SessionData) : SessionData :=
  {| pageViews := pageViews d; startTime := startTime d; searches := x;
     interactions := interactions d;
     casinoPreferences := casinoPreferences d |}.

Definition withInteractions (x : list Interaction) (d : SessionData) :=
  {| pageViews := pageViews d; startTime := startTime d;
     searches := searches d; interactions := x;
     casinoPreferences := casinoPreferences d |}.

Definition withCasinoPreferences (x : CasinoPreferences) (d : SessionData) :=
  {| pageViews := pageViews d; startTime := startTime d;
     searches := searches d; interactions := interactions d;
     casinoPreferences := x |}.

Definition withUserProfile (x : UserProfile) (a : UserAnalytics) :=
  {| sessionStartTime := sessionStartTime a; sessionId := sessionId a;
     userProfile := x; sessionData := sessionData a;
     isAuthenticated := isAuthenticated a; userId := userId a;
     userEmail := userEmail a; previousVisits := previousVisits a |}.

Definition withSessionData (x : SessionData) (a : UserAnalytics) :=
  {| sessionStartTime := sessionStartTime a; sessionId := sessionId a;
     userProfile := userProfile a; sessionData := x;
     isAuthenticated := isAuthenticated a; userId := userId a;
     userEmail := userEmail a; previousVisits := previousVisits a |}.

Definition withAuth (auth : bool) (uid email : option string)
  (a : UserAnalytics) :=
  {| sessionStartTime := sessionStartTime a; sessionId := sessionId a;
     userProfile := userProfile a; sessionData := sessionData a;
     isAuthenticated := auth; userId := uid;
     userEmail := email; previousVisits := previousVisits a |}.

Definition withPreviousVisits (x : option Z) (a : UserAnalytics) :=
  {| sessionStartTime := sessionStartTime a; sessionId := sessionId a;
     userProfile := userProfile a; sessionData := sessionData a;
     isAuthenticated := isAuthenticated a; userId := userId a;
     userEmail := userEmail a; previousVisits := x |}.

(** ** The page *)

(** A [.filter-item] element and its three optional data attributes. *)
Record FilterItem : Type := {
  dataAmenity : option string;
  dataRating : option string;
  dataDistance : option string
}.

(** What [loadPosts] renders into [#postsContainer]. *)
Inductive Node : Type :=
  | PostNode (name text : string) (video : option string)
  | AdNode.

(** The listeners the tracker registers. *)
Inductive Listener : Type :=
  | OnCategoryClick (card : nat)
  | OnFilterClick (item : nat)
  | OnSearchSubmit
  | OnAuthStateChanged.

Record Page : Type := {
  (** the [data-category] attribute of each [.category-card] *)
  categoryCards : list (option string);
  filterItems : list FilterItem;
  (** whether [#searchForm] exists *)
  searchForm : bool;
  (** the children of [#postsContainer]; [None] when the element is
      absent *)
  postsContainer : option (list Node);
  (** registered listeners, the most recent first *)
  listeners : list Listener
}.

Definition withPostsContainer (x : option (list Node)) (p : Page) : Page :=
  {| categoryCards := categoryCards p; filterItems := filterItems p;
     searchForm := searchForm p; postsContainer := x;
     listeners := listeners p |}.

Definition withListeners (x : list Listener) (p : Page) : Page :=
  {| categoryCards := categoryCards p; filterItems := filterItems p;
     searchForm := searchForm p; postsContainer := postsContainer p;
     listeners := x |}.

(** ** The outside *)

(** A member of the [firebase] namespace: missing, present but throwing
    when called (no app configured), or usable. *)
Inductive Service : Type := Absent | Broken | Ready.

Record Firebase : Type := {
  firestore : Service;
  analytics : Service;
  storage : Service
}.

(** The body of the [/get_user_ip] response. *)
Record IpData : Type := {
  dataIp : option string;
  dataGeo : JsValue
}.

Inductive FetchResult : Type :=
  | FetchRejected
  | JsonRejected
  | JsonNull
  | JsonData (d : IpData).

(** A stored [users_by_ip] document, as far as the tracker reads it:
    [visitCount], and [preferences] with its [mostViewedType]. *)
Record UserData : Type := {
  visitCount : option Z;
  preferences : option (option string)
}.

(** A stored post. *)
Record Post : Type := {
  postUserId : string;
  postUsername : string;
  postText : string;
  postVideoUrl : option string
}.

(** Values of document fields: plain values and the store's sentinels. *)
Inductive Field : Type :=
  | Plain (v : JsValue)
  | Increment (n : Z)
  | ServerTimestamp
  | ArrayUnion (v : JsValue)
  | TimestampFromDate (ms : Z).

Definition Fields : Type := list (string * Field).

(** Requests that leave the page. *)
Inductive Request : Type :=
  | HttpGet (url : string)
  | DocGet (path : list string)
  | DocSet (path : list string) (fields : Fields) (merge : bool)
  | DocUpdate (path : list string) (fields : Fields)
  | CollectionAdd (path : list string) (fields : Fields)
  | CollectionQuery (path : list string) (orderBy direction : string)
  | StoragePut (user : string) (at_ms : Z) (fileName : string)
  | GetDownloadURL (user : string) (at_ms : Z) (fileName : string)
  | AnalyticsLogEvent (event_type : string) (eventData : Payload).

Inductive Level : Type := LogLevel | WarnLevel | ErrorLevel.

Inductive Effect : Type :=
  | Sent (r : Request)
  | Console (level : Level) (message : string).

(** The global identifier [firebase].  The scripts that define it are
    not part of the tracker: on a page that did not load them the
    identifier is not declared, and reading it throws.  When it is
    declared its value may be falsy ([None]) and its members may be
    missing. *)
Inductive Binding : Type :=
  | Undeclared
  | Declared (value : option Firebase).

(** The environment of one page load.  The outcome of the [n]-th thing
    the page emits, when it is a request, is [remoteOk n]. *)
Record Env : Type := {
  userAgent : string;
  pathname : string;
  title : string;
  referrer : string;
  performanceNow : Z;
  randomId : string;
  firebaseGlobal : Binding;
  userIpResponse : FetchResult;
  storedUser : option UserData;
  (** the answer of the posts query sent as the [n]-th emission, in
      descending timestamp order *)
  storedPosts : nat -> list Post;
  downloadUrl : string;
  remoteOk : nat -> bool;
  (** Whether the snapshot's [forEach] hands the callback a second
      argument, the position, as [Array.prototype.forEach] does.  The
      iterator belongs to the store's client library, not to this
      repository; its documented signature is
      [forEach(callback: (result) => void, thisArg?)]. *)
  forEachPassesIndex : bool
}.

(** The value of [firebase], when the identifier is declared and its
    value is an object. *)
Definition firebase (env : Env) : option Firebase :=
  match firebaseGlobal env with
  | Declared value => value
  | Undeclared => None
  end.

Definition declared (env : Env) : bool :=
  match firebaseGlobal env with
  | Declared _ => true
  | Undeclared => false
  end.

(** ** Worlds and computations *)

Record World : Type := {
  self : UserAnalytics;
  page : Page;
  now : Z;
  (** everything emitted so far, the most recent first *)
  outbox : list Effect
}.

Definition withSelf (x : UserAnalytics) (w : World) : World :=
  {| self := x; page := page w; now := now w; outbox := outbox w |}.

Definition withPage (x : Page) (w : World) : World :=
  {| self := self w; page := x; now := now w; outbox := outbox w |}.

Definition withNow (x : Z) (w : World) : World :=
  {| self := self w; page := page w; now := x; outbox := outbox w |}.

Definition withOutbox (x : list Effect) (w : World) : World :=
  {| self := self w; page := page w; now := now w; outbox := x |}.

Inductive Error : Type :=
  | NetworkError
  | SyntaxError
  | TypeError
  | ReferenceError
  | FirebaseError
  | RemoteError.

Inductive Completion (A : Type) : Type :=
  | Normal (a : A)
  | Abrupt (e : Error).

Arguments Normal {A} a.
Arguments Abrupt {A} e.

(** A JavaScript computation: it changes the world and either returns or
    throws.  An [async] function is run to its end when it is called: an
    awaited request gets its outcome at once, and a promise that rejects
    is an [Abrupt] completion at the [await]. *)
Definition Js (A : Type) : Type := World -> Completion A * World.

Definition ret {A} (a : A) : Js A := fun w => (Normal a, w).

Definition throw {A} (e : Error) : Js A := fun w => (Abrupt e, w).

Definition bind {A B} (c : Js A) (k : A -> Js B) : Js B :=
  fun w =>
    match c w with
    | (Normal a, w') => k a w'
    | (Abrupt e, w') => (Abrupt e, w')
    end.

Declare Scope js_scope.
Delimit Scope js_scope with js.
Notation "x <- c ;; k" := (bind c (fun x => k))
  (at level 61, c at next level, right associativity) : js_scope.
Notation "c ;; k" := (bind c (fun _ => k))
  (at level 61, right associativity) : js_scope.
Local Open Scope js_scope.

(** [try { body } catch (error) { handler }]. *)
Definition tryCatch {A} (body : Js A) (handler : Error -> Js A) : Js A :=
  fun w =>
    match body w with
    | (Normal a, w') => (Normal a, w')
    | (Abrupt e, w') => handler e w'
    end.

(** A call whose promise is dropped: a rejection reaches nobody. *)
Definition fireAndForget (c : Js unit) : Js unit :=
  fun w => (Normal tt, snd (c w)).

Definition this : Js UserAnalytics := fun w => (Normal (self w), w).

Definition assign (f : UserAnalytics -> UserAnalytics) : Js unit :=
  fun w => (Normal tt, withSelf (f (self w)) w).

Definition document : Js Page := fun w => (Normal (page w), w).

Definition render (f : Page -> Page) : Js unit :=
  fun w => (Normal tt, withPage (f (page w)) w).

(** [new Date()], in milliseconds. *)
Definition newDate : Js Z := fun w => (Normal (now w), w).

Definition emit (e : Effect) : Js unit :=
  fun w => (Normal tt, withOutbox (e :: outbox w) w).

Definition console (l : Level) (message : string) : Js unit :=
  emit (Console l message).

(** How many things the page has emitted so far. *)
Definition emitted : Js nat := fun w => (Normal (length (outbox w)), w).

(** Sending a request; [true] when the outside accepts it. *)
Definition send (env : Env) (r : Request) : Js bool :=
  fun w => (Normal (remoteOk env (length (outbox w))),
            withOutbox (Sent r :: outbox w) w).

(** An awaited request: a rejection is thrown at the [await]. *)
Definition await (env : Env) (r : Request) : Js unit :=
  ok <- send env r ;;
  if ok then ret tt else throw RemoteError.

(** A request whose promise is dropped. *)
Definition post (env : Env) (r : Request) : Js unit :=
  _ <- send env r ;; ret tt.

(** ** Small pieces shared by the methods *)

(** [o[k] = v] on a record-like object: an existing key keeps its place,
    a new one goes last. *)
Fixpoint assignField {V : Type} (o : list (string * V)) (k : string) (v : V)
  : list (string * V) :=
  match o with
  | [] => [(k, v)]
  | (k', v') :: o' =>
      if (k' =? k)%string then (k', v) :: o' else (k', v') :: assignField o' k v
  end.

(** [{ ...o, ...extra }]. *)
Definition spread {V : Type} (o extra : list (string * V)) : list (string * V) :=
  fold_left (fun acc kv => assignField acc (fst kv) (snd kv)) extra o.

Definition plain (p : Payload) : Fields :=
  map (fun kv => (fst kv, Plain (snd kv))) p.

(** A value that is a string or [null], as a property key and inside a
    template literal. *)
Definition toText (value : option string) : string :=
  match value with
  | Some s => s
  | None => "null"
  end.

(** [s || fallback] for a string that may be missing. *)
Definition stringOr (s : option string) (fallback : string) : string :=
  match s with
  | Some x => if (x =? "")%string then fallback else x
  | None => fallback
  end.

(** Reading the identifier [firebase]: a [ReferenceError] when it is not
    declared. *)
Definition global (env : Env) : Js (option Firebase) :=
  match firebaseGlobal env with
  | Declared value => ret value
  | Undeclared => throw ReferenceError
  end.

(** [firebase && firebase.firestore], and the like: the guard reads the
    identifier first. *)
Definition has (member : Firebase -> Service) (env : Env) : Js bool :=
  value <- global env ;;
  ret match value with
      | Some fb => match member fb with Absent => false | _ => true end
      | None => false
      end.

(** [firebase.firestore()], [firebase.storage()], [firebase.analytics()]:
    the call throws when the member is there but unusable. *)
Definition call (member : Firebase -> Service) (env : Env) : Js unit :=
  value <- global env ;;
  match value with
  | Some fb => match member fb with Ready => ret tt | _ => throw FirebaseError end
  | None => throw TypeError
  end.

(** [Math.floor((new Date() - start) / 1000)]. *)
Definition secondsSince (start : Z) : Js Z :=
  t <- newDate ;; ret ((t - start) / 1000).

Definition usersByIp (address : string) : list string :=
  ["users_by_ip"; address].

Definition sessionDoc (address sid : string) : list string :=
  ["users_by_ip"; address; "sessions"; sid].

(** ** The methods of [UserAnalytics] *)

(** [getDeviceInfo] (source lines 408-416): the mobile patterns are tried
    before the tablet ones. *)
Definition getDeviceInfo (env : Env) : string :=
  let ua := userAgent env in
  if existsb (fun t => JsString.testIgnoreCase t ua)
       ["Android"; "webOS"; "iPhone"; "iPad"; "iPod"; "BlackBerry";
        "IEMobile"; "Opera Mini"]
  then "mobile"
  else if existsb (fun t => JsString.testIgnoreCase t ua)
            ["iPad"; "Tablet"; "PlayBook"]
  then "tablet"
  else "desktop".

(** [getBrowserInfo] (lines 418-426). *)
Definition getBrowserInfo (env : Env) : string :=
  let ua := userAgent env in
  if JsString.indexOf ua "Chrome" >? -1 then "Chrome"
  else if JsString.indexOf ua "Safari" >? -1 then "Safari"
  else if JsString.indexOf ua "Firefox" >? -1 then "Firefox"
  else if (JsString.indexOf ua "MSIE" >? -1)
          || (JsString.indexOf ua "Trident" >? -1) then "IE"
  else if JsString.indexOf ua "Edge" >? -1 then "Edge"
  else "Unknown".

(** [getMostFrequent] (lines 319-331): [max] starts at 0, [maxKey] at
    [null]; a key replaces them when its value is greater than [max], and
    [NaN > max] is false. *)
Definition getMostFrequent (obj : JsObject.t) : option string :=
  snd (fold_left
         (fun (acc : Z * option string) key =>
            let (max, maxKey) := acc in
            match JsObject.get obj key with
            | VNumber (Num n) => if max <? n then (n, Some key) else acc
            | _ => acc
            end)
         (JsObject.ownPropertyKeys obj)
         (0, None)).

(** The instance as the constructor (lines 7-45) leaves it, before
    [initialize] runs. *)
Definition construct (env : Env) (t0 : Z) : UserAnalytics :=
  {| sessionStartTime := t0;
     sessionId := randomId env;
     userProfile :=
       {| ip := None;
          location := VObject [("country", VNull); ("city", VNull);
                               ("region", VNull); ("latitude", VNull);
                               ("longitude", VNull)];
          device := getDeviceInfo env;
          browser := getBrowserInfo env;
          firstSeen := t0;
          returning := false;
          username := None |};
     sessionData :=
       {| pageViews := 0;
          startTime := t0;
          searches := [];
          interactions := [];
          casinoPreferences :=
            {| viewed := JsObject.empty;
               clicked := JsObject.empty;
               amenitiesSelected := JsObject.empty;
               typePreference := None |} |};
     isAuthenticated := false;
     userId := None;
     userEmail := None;
     previousVisits := None |}.

(** [logEvent] (lines 333-406).  The two store writes are not awaited and
    have no [catch] of their own: the [try] around them only catches what
    [firebase.firestore()] throws. *)
Definition logEvent (env : Env) (event_type : string) (details : Payload)
  : Js unit :=
  a <- this ;;
  t <- newDate ;;
  duration <- secondsSince (sessionStartTime a) ;;
  let eventData : Payload :=
    spread
      [ ("timestamp", VDate t);
        ("sessionId", VString (sessionId a));
        ("sessionDuration", VNumber (Num duration));
        ("ip", ofString (ip (userProfile a)));
        ("location", location (userProfile a));
        ("device", VString (device (userProfile a)));
        ("browser", VString (browser (userProfile a)));
        ("user_id", ofString (userId a));
        ("user_email", ofString (userEmail a));
        ("isAuthenticated", VBool (isAuthenticated a));
        ("returning", VBool (returning (userProfile a)));
        ("previousVisits",
          VNumber (Num (match previousVisits a with
                        | Some n => n
                        | None => 0
                        end))) ]
      details in
  assign (fun a =>
    withSessionData
      (withInteractions
         (interactions (sessionData a)
          ++ [{| type := event_type; details := details; timestamp := t |}])
         (sessionData a)) a) ;;
  console LogLevel ("Analytics event: " ++ event_type) ;;
  store <- has firestore env ;;
  (if store && present (ip (userProfile a)) then
     tryCatch
       (call firestore env ;;
        a <- this ;;
        let address := toText (ip (userProfile a)) in
        post env
          (CollectionAdd (sessionDoc address (sessionId a) ++ ["events"])
             (spread [("eventType", Plain (VString event_type));
                      ("timestamp", ServerTimestamp)]
                     (plain details))) ;;
        duration <- secondsSince (sessionStartTime a) ;;
        post env
          (DocSet (sessionDoc address (sessionId a))
             [ ("startTime", TimestampFromDate (sessionStartTime a));
               ("lastActivity", ServerTimestamp);
               ("pageViews", Plain (VNumber (Num (pageViews (sessionData a)))));
               ("duration", Plain (VNumber (Num duration)));
               ("userAgent", Plain (VString (userAgent env)));
               ("device", Plain (VString (device (userProfile a))));
               ("searches",
                 Plain (VNumber (Num (Z.of_nat (length (searches (sessionData a)))))));
               ("interactions",
                 Plain (VNumber (Num (Z.of_nat (length (interactions (sessionData a))))))) ]
             true))
       (fun _ => console WarnLevel "Firebase logging error:")
   else ret tt) ;;
  sink <- has analytics env ;;
  (if sink then
     tryCatch
       (call analytics env ;;
        emit (Sent (AnalyticsLogEvent event_type eventData)))
       (fun _ => console WarnLevel "Analytics logging error:")
   else ret tt).

(** [checkReturningUser] (lines 74-124). *)
Definition checkReturningUser (env : Env) : Js unit :=
  store <- has firestore env ;;
  if negb store then
    console WarnLevel "Firebase not available for user check"
  else
    tryCatch
      (call firestore env ;;
       a <- this ;;
       if present (ip (userProfile a)) then
         let address := toText (ip (userProfile a)) in
         await env (DocGet (usersByIp address)) ;;
         match storedUser env with
         | Some userData =>
             assign (fun a =>
               withPreviousVisits
                 (Some (match visitCount userData with
                        | Some n => n
                        | None => 0
                        end))
                 (withUserProfile (withReturning true (userProfile a)) a)) ;;
             await env
               (DocUpdate (usersByIp address)
                  [("visitCount", Increment 1); ("lastVisit", ServerTimestamp)]) ;;
             match preferences userData with
             | Some mostViewedType =>
                 assign (fun a =>
                   withSessionData
                     (withCasinoPreferences
                        (withTypePreference
                           (if present mostViewedType then mostViewedType else None)
                           (casinoPreferences (sessionData a)))
                        (sessionData a)) a)
             | None => ret tt
             end ;;
             console LogLevel "Returning user detected:"
         | None =>
             a <- this ;;
             await env
               (DocSet (usersByIp address)
                  [ ("firstSeen", ServerTimestamp);
                    ("lastVisit", ServerTimestamp);
                    ("visitCount", Plain (VNumber (Num 1)));
                    ("userAgent", Plain (VString (userAgent env)));
                    ("device", Plain (VString (device (userProfile a))));
                    ("preferences", Plain (VObject [])) ]
                  false)
         end
       else ret tt)
      (fun _ => console ErrorLevel "Error checking returning user status:").

(** [linkUserWithIP] (lines 148-171). *)
Definition linkUserWithIP (env : Env) : Js unit :=
  store <- has firestore env ;;
  a <- this ;;
  if negb store || negb (present (userId a))
     || negb (present (ip (userProfile a)))
  then ret tt
  else
    tryCatch
      (call firestore env ;;
       a <- this ;;
       let address := toText (ip (userProfile a)) in
       await env
         (DocSet ["user_mappings"; toText (userId a)]
            [ ("linkedIPs", ArrayUnion (VString address));
              ("lastUpdated", ServerTimestamp) ]
            true) ;;
       a <- this ;;
       await env
         (DocUpdate (usersByIp address)
            [ ("linkedUsers", ArrayUnion (ofString (userId a)));
              ("lastUserId", Plain (ofString (userId a)));
              ("lastUserEmail", Plain (ofString (userEmail a))) ]) ;;
       console LogLevel "Successfully linked user with IP")
      (fun _ => console ErrorLevel "Error linking user with IP:").

(** The [user] of an [auth_state_changed] payload. *)
Record AuthUser : Type := {
  uid : string;
  email : option string
}.

(** [handleAuthChange] (lines 126-146).  [event] carries [Some user] when
    [event.detail && event.detail.user] is truthy. *)
Definition handleAuthChange (env : Env) (event : option AuthUser) : Js unit :=
  match event with
  | Some user =>
      assign (withAuth true (Some (uid user)) (email user)) ;;
      a <- this ;;
      logEvent env "user_login"
        [("user_id", ofString (userId a)); ("user_email", ofString (userEmail a))] ;;
      fireAndForget (linkUserWithIP env)
  | None =>
      assign (withAuth false None None) ;;
      logEvent env "user_logout" []
  end.

Definition addEventListener (l : Listener) : Js unit :=
  render (fun p => withListeners (l :: listeners p) p).

Fixpoint forEach_ {A : Type} (f : nat -> A -> Js unit) (i : nat) (l : list A)
  : Js unit :=
  match l with
  | [] => ret tt
  | x :: l' => f i x ;; forEach_ f (S i) l'
  end.

(** [array.forEach((x, index) => ...)]. *)
Definition forEach {A : Type} (l : list A) (f : nat -> A -> Js unit) : Js unit :=
  forEach_ f 0%nat l.

(** [setupEventListeners] (lines 173-212). *)
Definition setupEventListeners : Js unit :=
  p <- document ;;
  forEach (categoryCards p) (fun i _ => addEventListener (OnCategoryClick i)) ;;
  forEach (filterItems p) (fun i _ => addEventListener (OnFilterClick i)) ;;
  if searchForm p then addEventListener OnSearchSubmit else ret tt.

(** [logPageView] (lines 214-224). *)
Definition logPageView (env : Env) : Js unit :=
  assign (fun a =>
    withSessionData
      (withPageViews (pageViews (sessionData a) + 1) (sessionData a)) a) ;;
  logEvent env "page_view"
    [ ("page", VString (pathname env));
      ("title", VString (title env));
      ("referrer", VString (referrer env));
      ("loadTime", VNumber (Num (performanceNow env))) ].

(** [logSearch] (lines 226-238). *)
Definition logSearch (env : Env) (q : string) (fs : Payload) : Js unit :=
  t <- newDate ;;
  assign (fun a =>
    withSessionData
      (withSearches
         (searches (sessionData a)
          ++ [{| query := q; filters := fs; searchedAt := t |}])
         (sessionData a)) a) ;;
  logEvent env "search" (spread [("query", VString q)] fs).

(** [updatePreferencesInFirebase] (lines 274-317); [kind] is the
    parameter [type].  A [type] outside the five cases sends an empty
    update. *)
Definition updatePreferencesInFirebase (env : Env) (kind : string)
  (value : option string) : Js unit :=
  store <- has firestore env ;;
  a <- this ;;
  if negb store || negb (present (ip (userProfile a)))
  then ret tt
  else
    tryCatch
      (call firestore env ;;
       a <- this ;;
       let userDocRef := usersByIp (toText (ip (userProfile a))) in
       let updateObj : Fields :=
         if (kind =? "category")%string then
           assignField
             (assignField [] ("preferences.categories." ++ toText value)
                (Increment 1))
             "preferences.mostViewedType"
             (Plain (ofString (typePreference (casinoPreferences (sessionData a)))))
         else if (kind =? "amenity")%string then
           assignField [] ("preferences.amenities." ++ toText value) (Increment 1)
         else if (kind =? "rating")%string then
           assignField [] "preferences.ratingPreference" (Plain (ofString value))
         else if (kind =? "distance")%string then
           assignField [] "preferences.distancePreference" (Plain (ofString value))
         else if (kind =? "click")%string then
           assignField [] ("preferences.clicked." ++ toText value) (Increment 1)
         else [] in
       await env (DocUpdate userDocRef updateObj) ;;
       await env
         (CollectionAdd (userDocRef ++ ["user_events"])
            [ ("eventType", Plain (VString "preference"));
              ("preferenceType", Plain (VString kind));
              ("value", Plain (ofString value));
              ("timestamp", ServerTimestamp);
              ("sessionId", Plain (VString (sessionId a))) ]))
      (fun _ => console ErrorLevel "Error updating preferences in Firebase:").

(** [if (!o[k]) o[k] = 0; o[k]++;]. *)
Definition bump (o : JsObject.t) (k : string) : JsObject.t :=
  JsObject.postIncrement
    (if truthy (JsObject.get o k) then o else JsObject.set o k (Num 0)) k.

(** [logCasinoPreference] (lines 240-272); [kind] is the parameter
    [type].  The [switch] has no case for [rating] and [distance]. *)
Definition logCasinoPreference (env : Env) (kind : string)
  (value : option string) : Js unit :=
  let k := toText value in
  (if (kind =? "category")%string then
     assign (fun a =>
       let prefs := casinoPreferences (sessionData a) in
       let viewed' := bump (viewed prefs) k in
       withSessionData
         (withCasinoPreferences
            (withTypePreference (getMostFrequent viewed')
               (withViewed viewed' prefs))
            (sessionData a)) a)
   else if (kind =? "click")%string then
     assign (fun a =>
       let prefs := casinoPreferences (sessionData a) in
       withSessionData
         (withCasinoPreferences
            (withClicked (bump (clicked prefs) k) prefs)
            (sessionData a)) a)
   else if (kind =? "amenity")%string then
     assign (fun a =>
       let prefs := casinoPreferences (sessionData a) in
       withSessionData
         (withCasinoPreferences
            (withAmenitiesSelected (bump (amenitiesSelected prefs) k) prefs)
            (sessionData a)) a)
   else ret tt) ;;
  a <- this ;;
  logEvent env "casino_preference"
    [ ("preferenceType", VString kind);
      ("value", ofString value);
      ("count",
        orElse (JsObject.get (viewed (casinoPreferences (sessionData a))) k)
               (VNumber (Num 1))) ] ;;
  fireAndForget (updatePreferencesInFirebase env kind value).

(** [Array.prototype.sort] is stable; [insertBy] places an entry after
    those the comparator orders strictly before it.  A comparator result
    of [NaN] counts as [0]. *)
Fixpoint insertBy {A : Type} (after : A -> A -> bool) (x : A) (l : list A)
  : list A :=
  match l with
  | [] => [x]
  | y :: l' => if after x y then y :: insertBy after x l' else x :: l
  end.

Definition sortBy {A : Type} (after : A -> A -> bool) (l : list A) : list A :=
  fold_right (insertBy after) [] l.

(** [(a, b) => b[1] - a[1]] is positive, so that [a] goes after [b],
    when [b] has the larger count. *)
Definition fewerThan (a b : string * JsNumber) : bool :=
  match snd a, snd b with
  | Num x, Num y => x <? y
  | _, _ => false
  end.

(** [getTopInterests] (lines 450-464). *)
Definition getTopInterests : Js (list string) :=
  a <- this ;;
  let viewed := viewed (casinoPreferences (sessionData a)) in
  let interests :=
    fold_left
      (fun acc k => JsObject.set acc k (toNumber (JsObject.get viewed k)))
      (JsObject.ownPropertyKeys viewed) JsObject.empty in
  ret (map fst (firstn 3 (sortBy fewerThan (JsObject.entries interests)))).

Module Insights.

Record Profile : Type := {
  isNewUser : bool;
  visits : JsNumber;
  location : JsValue
}.

Record Behavior : Type := {
  sessionDuration : Z;
  pageViews : Z;
  searchCount : nat;
  mainInterests : list string;
  primaryCasinoType : option string
}.

Record Preferences : Type := {
  casinoTypes : JsObject.t;
  amenities : JsObject.t
}.

Record t : Type := {
  profile : Profile;
  behavior : Behavior;
  preferences : Preferences
}.

End Insights.

(** A property that may be [undefined], as a value. *)
Definition ofNumber (x : option Z) : JsValue :=
  match x with
  | Some n => VNumber (Num n)
  | None => VUndefined
  end.

(** [getUserInsights] (lines 429-448). *)
Definition getUserInsights : Js Insights.t :=
  a <- this ;;
  duration <- secondsSince (sessionStartTime a) ;;
  interests <- getTopInterests ;;
  ret {| Insights.profile :=
           {| Insights.isNewUser := negb (returning (userProfile a));
              Insights.visits := increment (toNumber (ofNumber (previousVisits a)));
              Insights.location := location (userProfile a) |};
         Insights.behavior :=
           {| Insights.sessionDuration := duration;
              Insights.pageViews := pageViews (sessionData a);
              Insights.searchCount := length (searches (sessionData a));
              Insights.mainInterests := interests;
              Insights.primaryCasinoType :=
                typePreference (casinoPreferences (sessionData a)) |};
         Insights.preferences :=
           {| Insights.casinoTypes := viewed (casinoPreferences (sessionData a));
              Insights.amenities :=
                amenitiesSelected (casinoPreferences (sessionData a)) |} |}.

(** [createPostElement] (lines 533-557) and [createAdElement]
    (lines 559-567), up to styling. *)
Definition createPostElement (p : Post) : Node :=
  PostNode (postUsername p) (postText p)
    (if present (postVideoUrl p) then postVideoUrl p else None).

Definition createAdElement : Node := AdNode.

(** [postsContainer.appendChild(node)]. *)
Definition appendChild (n : Node) : Js unit :=
  p <- document ;;
  match postsContainer p with
  | Some children => render (withPostsContainer (Some (children ++ [n])%list))
  | None => throw TypeError
  end.

(** The callback [(doc, index) => ...] of [loadPosts].  [index] is its
    second parameter: the position when the iterator passes it,
    [undefined] otherwise, and [undefined > 0] is false. *)
Definition renderPost (env : Env) (i : nat) (doc : Post) : Js unit :=
  let index := if forEachPassesIndex env then Some i else None in
  let postElement := createPostElement doc in
  match index with
  | Some index =>
      if Nat.ltb 0 index && Nat.eqb (index mod 5) 0
      then appendChild createAdElement
      else ret tt
  | None => ret tt
  end ;;
  appendChild postElement.

(** [loadPosts] (lines 504-531). *)
Definition loadPosts (env : Env) : Js unit :=
  store <- has firestore env ;;
  if negb store then
    console ErrorLevel "Firebase not initialized."
  else
    tryCatch
      (call firestore env ;;
       p <- document ;;
       match postsContainer p with
       | Some _ => render (withPostsContainer (Some []))
       | None => throw TypeError
       end ;;
       n <- emitted ;;
       await env (CollectionQuery ["posts"] "timestamp" "desc") ;;
       forEach (storedPosts env n) (renderPost env))
      (fun _ => console ErrorLevel "Error loading posts:").

(** [createPost] (lines 466-502); [videoFile] is the name of the file,
    when one is given. *)
Definition createPost (env : Env) (text : string) (videoFile : option string)
  : Js unit :=
  store <- has firestore env ;;
  files <- has storage env ;;
  if negb store || negb files then
    console ErrorLevel "Firebase not initialized."
  else
    tryCatch
      (call firestore env ;;
       call storage env ;;
       a <- this ;;
       let userId := stringOr (userId a) "anonymous" in
       videoUrl <-
         match videoFile with
         | Some name =>
             t <- newDate ;;
             await env (StoragePut userId t name) ;;
             await env (GetDownloadURL userId t name) ;;
             ret (Some (downloadUrl env))
         | None => ret None
         end ;;
       a <- this ;;
       await env
         (CollectionAdd ["posts"]
            [ ("userId", Plain (VString userId));
              ("username",
                Plain (VString (stringOr (username (userProfile a)) "Anonymous")));
              ("text", Plain (VString text));
              ("videoUrl", Plain (ofString videoUrl));
              ("timestamp", ServerTimestamp) ]) ;;
       console LogLevel "Post created:" ;;
       fireAndForget (loadPosts env))
      (fun _ => console ErrorLevel "Error creating post:").

(** [await fetch('/get_user_ip')] followed by [await response.json()]. *)
Definition fetchUserIp (env : Env) : Js (option IpData) :=
  emit (Sent (HttpGet "/get_user_ip")) ;;
  match userIpResponse env with
  | FetchRejected => throw NetworkError
  | JsonRejected => throw SyntaxError
  | JsonNull => ret None
  | JsonData d => ret (Some d)
  end.

(** [initialize] (lines 47-72): one [try] around the whole protocol. *)
Definition initialize (env : Env) : Js unit :=
  tryCatch
    (data <- fetchUserIp env ;;
     match data with
     | None => throw TypeError
     | Some data =>
         assign (fun a => withUserProfile (withIp (dataIp data) (userProfile a)) a) ;;
         assign (fun a =>
           withUserProfile (withLocation (dataGeo data) (userProfile a)) a) ;;
         checkReturningUser env ;;
         setupEventListeners ;;
         logPageView env ;;
         addEventListener OnAuthStateChanged ;;
         console LogLevel "User profile initialized:"
     end)
    (fun _ => console ErrorLevel "Failed to initialize analytics:").

(** ** Page loads, events and runs *)

(** The world right after the constructor's field initialisers and its
    [console.log], before [this.initialize()] has run. *)
Definition created (env : Env) (pg : Page) (t0 : Z) : World :=
  {| self := construct env t0;
     page := pg;
     now := t0;
     outbox := [Console LogLevel "Initializing user analytics..."] |}.

(** [new UserAnalytics()], with [initialize] run to its end. *)
Definition newUserAnalytics (env : Env) (pg : Page) (t0 : Z) : World :=
  snd (fireAndForget (initialize env) (created env pg t0)).

(** Running the handlers of an event, in registration order; a handler
    that throws does not stop the others. *)
Fixpoint dispatch (handlers : list (Js unit)) : Js unit :=
  match handlers with
  | [] => ret tt
  | h :: hs => fireAndForget h ;; dispatch hs
  end.

Definition listener_eqb (a b : Listener) : bool :=
  match a, b with
  | OnCategoryClick i, OnCategoryClick j => Nat.eqb i j
  | OnFilterClick i, OnFilterClick j => Nat.eqb i j
  | OnSearchSubmit, OnSearchSubmit => true
  | OnAuthStateChanged, OnAuthStateChanged => true
  | _, _ => false
  end.

(** One run of [handler] per registration of [l]. *)
Definition fire (l : Listener) (handler : Js unit) : Js unit :=
  p <- document ;;
  dispatch (map (fun _ => handler) (filter (listener_eqb l) (rev (listeners p)))).

Definition onCategoryClick (env : Env) (card : nat) : Js unit :=
  p <- document ;;
  match nth_error (categoryCards p) card with
  | Some category => logCasinoPreference env "category" category
  | None => ret tt
  end.

Definition onFilterClick (env : Env) (item : nat) : Js unit :=
  p <- document ;;
  match nth_error (filterItems p) item with
  | Some it =>
      match dataAmenity it with
      | Some amenity => logCasinoPreference env "amenity" (Some amenity)
      | None => ret tt
      end ;;
      match dataRating it with
      | Some rating => logCasinoPreference env "rating" (Some rating)
      | None => ret tt
      end ;;
      match dataDistance it with
      | Some distance => logCasinoPreference env "distance" (Some distance)
      | None => ret tt
      end
  | None => ret tt
  end.

(** [input] is the value of [#searchInput], [None] when the element is
    absent. *)
Definition onSearchSubmit (env : Env) (input : option string) : Js unit :=
  if present input then logSearch env (toText input) [] else ret tt.

(** Time passing between two turns of the event loop. *)
Definition elapse (ms : N) : Js unit :=
  fun w => (Normal tt, withNow (now w + Z.of_N ms) w).

(** What can happen to a tracker: a call of one of its methods, an event
    of the page, or time passing. *)
Inductive Op : Type :=
  | Initialize
  | CheckReturningUser
  | HandleAuthChange (event : option AuthUser)
  | LinkUserWithIP
  | SetupEventListeners
  | LogPageView
  | LogSearch (q : string) (fs : Payload)
  | LogCasinoPreference (kind : string) (value : option string)
  | UpdatePreferencesInFirebase (kind : string) (value : option string)
  | LogEvent (event_type : string) (details : Payload)
  | GetUserInsights
  | GetTopInterests
  | CreatePost (text : string) (videoFile : option string)
  | LoadPosts
  | CategoryCardClicked (card : nat)
  | FilterItemClicked (item : nat)
  | SearchSubmitted (input : option string)
  | AuthStateChanged (event : option AuthUser)
  | Elapsed (ms : N).

Definition exec (env : Env) (op : Op) : Js unit :=
  match op with
  | Initialize => initialize env
  | CheckReturningUser => checkReturningUser env
  | HandleAuthChange event => handleAuthChange env event
  | LinkUserWithIP => linkUserWithIP env
  | SetupEventListeners => setupEventListeners
  | LogPageView => logPageView env
  | LogSearch q fs => logSearch env q fs
  | LogCasinoPreference kind value => logCasinoPreference env kind value
  | UpdatePreferencesInFirebase kind value =>
      updatePreferencesInFirebase env kind value
  | LogEvent event_type details => logEvent env event_type details
  | GetUserInsights => _ <- getUserInsights ;; ret tt
  | GetTopInterests => _ <- getTopInterests ;; ret tt
  | CreatePost text videoFile => createPost env text videoFile
  | LoadPosts => loadPosts env
  | CategoryCardClicked card =>
      fire (OnCategoryClick card) (onCategoryClick env card)
  | FilterItemClicked item => fire (OnFilterClick item) (onFilterClick env item)
  | SearchSubmitted input => fire OnSearchSubmit (onSearchSubmit env input)
  | AuthStateChanged event => fire OnAuthStateChanged (handleAuthChange env event)
  | Elapsed ms => elapse ms
  end.

(** The world after [op]; an exception that nobody catches leaves the
    world as it was when it was thrown. *)
Definition step (env : Env) (w : World) (op : Op) : World :=
  snd (exec env op w).

Definition run (env : Env) (w : World) (ops : list Op) : World :=
  fold_left (step env) ops w.

(** [record_preference('category', v)] for each [v] of a list. *)
Definition recordCategories (vs : list (option string)) : list Op :=
  map (LogCasinoPreference "category") vs.

(** The preference aggregate of the instance. *)
Definition prefs (w : World) : CasinoPreferences :=
  casinoPreferences (sessionData (self w)).

(** ** The claims' reading of the derived field

    The label of maximum count met first in a scan of the keys in the
    order given. *)
Definition firstMaximum (keys : list string) (o : JsObject.t) : option string :=
  snd (fold_left
         (fun (acc : Z * option string) key =>
            match JsObject.count o key with
            | Some n => if fst acc <? n then (n, Some key) else acc
            | None => acc
            end)
         keys (0, None)).

(** [k] is the first key of [keys] that holds the largest count of [o]:
    a positive count, exceeded by none and reached by none before it. *)
Definition FirstMaximum (keys : list string) (o : JsObject.t) (k : string)
  : Prop :=
  exists before after c,
    keys = (before ++ k :: after)%list /\
    JsObject.count o k = Some c /\ 0 < c /\
    (forall k' c', In k' before -> JsObject.count o k' = Some c' -> c' < c) /\
    (forall k' c', In k' after -> JsObject.count o k' = Some c' -> c' <= c).

(** No key of [keys] holds a positive count. *)
Definition NoMaximum (keys : list string) (o : JsObject.t) : Prop :=
  forall k c, In k keys -> JsObject.count o k = Some c -> c <= 0.

(** The listeners [setupEventListeners] registers on a page, the most
    recent first: one per category card, one per filter item, and one on
    the search form when there is one. *)
Definition registered (p : Page) : list Listener :=
  ((if searchForm p then [OnSearchSubmit] else []) ++
   rev (map OnFilterClick (seq 0 (length (filterItems p)))) ++
   rev (map OnCategoryClick (seq 0 (length (categoryCards p)))))%list.




(** Whether the IP endpoint answered with a body to read [ip] from. *)
Definition identityResolved (env : Env) : bool :=
  match userIpResponse env with
  | JsonData _ => true
  | _ => false
  end.

(** The instance after [interactions.push({type, details, timestamp})]. *)
Definition pushed (event_type : string) (d : Payload) (t : Z)
  (a : UserAnalytics) : UserAnalytics :=
  withSessionData
    (withInteractions
       (interactions (sessionData a)
        ++ [{| type := event_type; details := d; timestamp := t |}])
       (sessionData a)) a.

(** The page-view counter of the instance. *)
Definition views (w : World) : Z := pageViews (sessionData (self w)).

(** The page-view events logged in the session: the interactions of
    type [page_view]. *)
Definition isPageView (i : Interaction) : bool := (type i =? "page_view")%string.

Definition pageViewEvents (w : World) : Z :=
  Z.of_nat (length (filter isPageView (interactions (sessionData (self w))))).

(** The calls of [logPageView] an operation makes: the method itself,
    and [initialize] when it gets past identity resolution. *)
Definition logPageViewCalls (env : Env) (op : Op) : Z :=
  match op with
  | LogPageView => 1
  | Initialize => if identityResolved env && declared env then 1 else 0
  | _ => 0
  end.

(** The page-view events an operation logs without going through
    [logPageView]: a direct call of [logEvent], as the global helper
    [trackEvent] makes. *)
Definition directPageViewEvents (op : Op) : Z :=
  match op with
  | LogEvent event_type _ => if (event_type =? "page_view")%string then 1 else 0
  | _ => 0
  end.

Definition total (f : Op -> Z) (ops : list Op) : Z :=
  fold_right (fun op n => f op + n) 0 ops.

(** Page-view events that did not come with an increment of the
    counter. *)
Definition uncounted (w : World) : Z := pageViewEvents w - views w.

(** [getUserInsights().behavior.pageViews] and
    [getUserInsights().profile.visits], when the call returns. *)
Definition reportedPageViews (w : World) : option Z :=
  match fst (getUserInsights w) with
  | Normal r => Some (Insights.pageViews (Insights.behavior r))
  | Abrupt _ => None
  end.

Definition reportedVisits (w : World) : option JsNumber :=
  match fst (getUserInsights w) with
  | Normal r => Some (Insights.visits (Insights.profile r))
  | Abrupt _ => None
  end.

(** ** Scalar preferences

    The tracker has no field for a rating or a distance preference; the
    only place one is written is the caller record, by an update
    request. *)

Fixpoint lookup {V : Type} (k : string) (o : list (string * V)) : option V :=
  match o with
  | [] => None
  | (k', v) :: o' => if (k' =? k)%string then Some v else lookup k o'
  end.











(** ** The rendered post list

    The layout the promotional blocks are meant to have: one block
    before the post at 0-based position [i] whenever [i > 0] and
    [i % 5 == 0]. *)
Fixpoint interleaved (i : nat) (posts : list Post) : list Node :=
  match posts with
  | [] => []
  | p :: later =>
      ((if Nat.ltb 0 i && Nat.eqb (i mod 5) 0 then [AdNode] else [])
       ++ createPostElement p :: interleaved (S i) later)%list
  end.

Definition isAd (n : Node) : bool :=
  match n with
  | AdNode => true
  | PostNode _ _ _ => false
  end.

(** The world after [loadPosts] has cleared the container, sent its
    query and rendered [nodes]. *)
Definition rendered (nodes : list Node) (trail : list Effect) (w : World) : World :=
  withOutbox (trail ++ Sent (CollectionQuery ["posts"] "timestamp" "desc") :: outbox w)%list
    (withPage (withPostsContainer (Some nodes) (page w)) w).

(** ** Post documents *)

(** If [e] adds a post document, the document is signed with the user id
    and the username [createPost] derives from the instance [a]. *)
Definition PostAs (a : UserAnalytics) (e : Effect) : Prop :=
  forall fields,
    e = Sent (CollectionAdd ["posts"] fields) ->
    lookup "userId" fields =
      Some (Plain (VString (stringOr (userId a) "anonymous"))) /\
    lookup "username" fields =
      Some (Plain (VString (stringOr (username (userProfile a)) "Anonymous"))).

(** ** Invariants *)

(** [I] survives the computation. *)
Definition preserves (I : World -> Prop) (w w' : World) : Prop := I w -> I w'.

(** A visitor who has not been recognised as returning has no previous
    visit count: [previousVisits] is assigned together with
    [returning = true] and nowhere else. *)
Definition NewVisitorHasNoCount (w : World) : Prop :=
  returning (userProfile (self w)) = false -> previousVisits (self w) = None.

(** Nothing assigns [userProfile.username], and a tracker that is not
    authenticated holds no user id: both fields of the authentication
    state are written together, by [handleAuthChange]. *)
Definition NoUsername (w : World) : Prop :=
  username (userProfile (self w)) = None.

Definition SignedOutHasNoUserId (w : World) : Prop :=
  isAuthenticated (self w) = false -> userId (self w) = None.

(** ** Relating the world before and after a computation *)

(** [c] takes every world to one related to it by [R], whether it
    returns or throws. *)
Definition Frame {A : Type} (R : World -> World -> Prop) (c : Js A) : Prop :=
  forall w, R w (snd (c w)).

(** [c] leaves the observation [f] of the world as it was. *)
Definition keeps {X : Type} (f : World -> X) (w w' : World) : Prop :=
  f w' = f w.

(** What was emitted in between satisfies [P]. *)
Definition emits (P : Effect -> Prop) (w w' : World) : Prop :=
  exists new, outbox w' = (new ++ outbox w)%list /\ Forall P new.

(** What was emitted between [w] and a later world [w'], the most
    recent first. *)
Definition emittedSince (w w' : World) : list Effect :=
  firstn (length (outbox w') - length (outbox w)) (outbox w').




(** [c] returns: no exception leaves it. *)
Definition Returns {A : Type} (c : Js A) : Prop :=
  forall w, exists a, fst (c w) = Normal a.

(** ** Concrete inputs *)

Module Sample.

Definition sdk : Firebase :=
  {| firestore := Ready; analytics := Ready; storage := Ready |}.

Definition chromeAgent : string :=
  "Mozilla/5.0 (X11; Linux x86_64) AppleWebKit/537.36 (KHTML, like Gecko) Chrome/120.0.0.0 Safari/537.36".

Definition visitor : IpData :=
  {| dataIp := Some "203.0.113.7";
     dataGeo := VObject [("country", VString "NL"); ("city", VString "Delft")] |}.

(** The [i]-th stored post; its text is the [i]-th letter. *)
Definition stored (i : nat) : Post :=
  {| postUserId := "anonymous";
     postUsername := "Anonymous";
     postText := String (ascii_of_nat (97 + i)) "";
     postVideoUrl := None |}.

(** A page load on which everything outside answers. *)
Definition online : Env :=
  {| userAgent := chromeAgent;
     pathname := "/";
     title := "Casinos";
     referrer := "";
     performanceNow := 12;
     randomId := "k3j9x0q2mz";
     firebaseGlobal := Declared (Some sdk);
     userIpResponse := JsonData visitor;
     storedUser := None;
     storedPosts := fun _ => map stored (seq 0 12);
     downloadUrl := "https://storage.example/video";
     remoteOk := fun _ => true;
     forEachPassesIndex := false |}.

Definition withUserIpResponse (r : FetchResult) (env : Env) : Env :=
  {| userAgent := userAgent env; pathname := pathname env; title := title env;
     referrer := referrer env; performanceNow := performanceNow env;
     randomId := randomId env; firebaseGlobal := firebaseGlobal env;
     userIpResponse := r; storedUser := storedUser env;
     storedPosts := storedPosts env; downloadUrl := downloadUrl env;
     remoteOk := remoteOk env; forEachPassesIndex := forEachPassesIndex env |}.

Definition withRemoteOk (f : nat -> bool) (env : Env) : Env :=
  {| userAgent := userAgent env; pathname := pathname env; title := title env;
     referrer := referrer env; performanceNow := performanceNow env;
     randomId := randomId env; firebaseGlobal := firebaseGlobal env;
     userIpResponse := userIpResponse env; storedUser := storedUser env;
     storedPosts := storedPosts env; downloadUrl := downloadUrl env;
     remoteOk := f; forEachPassesIndex := forEachPassesIndex env |}.

Definition withForEachPassesIndex (b : bool) (env : Env) : Env :=
  {| userAgent := userAgent env; pathname := pathname env; title := title env;
     referrer := referrer env; performanceNow := performanceNow env;
     randomId := randomId env; firebaseGlobal := firebaseGlobal env;
     userIpResponse := userIpResponse env; storedUser := storedUser env;
     storedPosts := storedPosts env; downloadUrl := downloadUrl env;
     remoteOk := remoteOk env; forEachPassesIndex := b |}.

(** The same page load with the IP endpoint unreachable. *)
Definition offline : Env := withUserIpResponse FetchRejected online.

Definition home : Page :=
  {| categoryCards := [Some "resort"; Some "tribal"];
     filterItems :=
       [ {| dataAmenity := Some "pool"; dataRating := None; dataDistance := None |};
         {| dataAmenity := None; dataRating := Some "high"; dataDistance := None |} ];
     searchForm := true;
     postsContainer := Some [PostNode "Anonymous" "stale" None];
     listeners := [] |}.

(** The tracker before [initialize] has run. *)
Definition start : World := created online home 0.

(** Two category clicks: first "2", then "1". *)
Definition twoThenOne : World :=
  run online start (recordCategories [Some "2"; Some "1"]).

(** Three category clicks: "resort", then "tribal" twice. *)
Definition resortTribalTribal : World :=
  run online start (recordCategories ([Some "resort"; Some "tribal"] ++ [Some "tribal"])).

(** The tracker of a page load on which the IP endpoint is unreachable,
    after [initialize] has run. *)
Definition unresolved : World := newUserAnalytics offline home 0.

(** The tracker of the same page load with the endpoint answering. *)
Definition resolved : World := run online start [Initialize].

(** The same page load with a snapshot iterator that passes the
    position, as an array's does. *)
Definition arrayLike : Env := withForEachPassesIndex true online.

(** The same page load with every request rejected. *)
Definition rejecting : Env := withRemoteOk (fun _ => false) online.



(** A user signs in whose uid is the string "anonymous". *)
Definition signedIn : World :=
  run online resolved
    [AuthStateChanged (Some {| uid := "anonymous"; email := Some "a@example.org" |})].

(** The document of a post "hello" without a video, by a tracker that
    holds no usable user id. *)
Definition helloPost : Fields :=
  [ ("userId", Plain (VString "anonymous"));
    ("username", Plain (VString "Anonymous"));
    ("text", Plain (VString "hello"));
    ("videoUrl", Plain VNull);
    ("timestamp", ServerTimestamp) ].




End Sample.

(** ** The debug helper (Static/js/firebase-debug.js)

    The two helpers work on the status banner and the console only, so
    their state is the banner element, when the page has one, and what
    was emitted. *)

Module FirebaseDebug.

(** [#userStatusBanner], as far as the helper writes it: [textContent]
    and [style.display]. *)
Record Banner : Type := {
  textContent : string;
  display : string
}.

Record Dom : Type := {
  userStatusBanner : option Banner;
  emitted : list Effect
}.

(** What [fetch('/get-ip')] and [response.json()] give: a rejection of
    either, or the parsed body, which is [null] or an object whose [ip]
    is a string or missing. *)
Inductive Answer : Type :=
  | Rejected
  | NotJson
  | Null
  | Body (ip : option string).

(** [updateUserStatus(user, ip)] (lines 72-99). *)
Definition updateUserStatus (user : option AuthUser) (ip : option string)
  (d : Dom) : Dom :=
  match userStatusBanner d with
  | None =>
      {| userStatusBanner := None;
         emitted :=
           Console ErrorLevel "User status banner element not found" :: emitted d |}
  | Some _ =>
      let statusText :=
        (if present ip && negb (toText ip =? "unknown")%string
         then "IP: " ++ toText ip ++ " | "
         else "IP: Retrieving... | ")
        ++ match user with
           | Some u => "Logged in as: " ++ toText (email u)
           | None => "Not logged in"
           end in
      {| userStatusBanner :=
           Some {| textContent := statusText; display := "block" |};
         emitted := Console LogLevel "Updated user status banner:" :: emitted d |}
  end.

(** [getIpFromServer()] (lines 102-112): the value the returned promise
    resolves to, and the state after. *)
Definition getIpFromServer (answer : Answer) (d : Dom) : option string * Dom :=
  let asked :=
    {| userStatusBanner := userStatusBanner d;
       emitted := Sent (HttpGet "/get-ip") :: emitted d |} in
  let failed :=
    (Some "unknown",
     {| userStatusBanner := userStatusBanner d;
        emitted :=
          Console ErrorLevel "Error fetching IP from server:" :: emitted asked |}) in
  match answer with
  | Rejected | NotJson | Null => failed
  | Body ip =>
      (ip,
       {| userStatusBanner := userStatusBanner d;
          emitted := Console LogLevel "IP from server:" :: emitted asked |})
  end.

(** The banner after the IP was fetched and shown. *)
Definition shown (user : option AuthUser) (answer : Answer) (d : Dom)
  : option Banner :=
  let (ip, d') := getIpFromServer answer d in
  userStatusBanner (updateUserStatus user ip d').

(** The part of the banner for the login state. *)
Definition login (user : option AuthUser) : string :=
  match user with
  | Some u => "Logged in as: " ++ toText (email u)
  | None => "Not logged in"
  end.

End FirebaseDebug.

(** ** Further observations and inputs *)

(** [t] occurs in [s] up to the case of ASCII letters. *)
Definition ContainsIgnoreCase (t s : string) : Prop :=
  JsString.Contains (JsString.lower t) (JsString.lower s).

(** The alternatives of the two patterns of [getDeviceInfo]. *)
Definition mobileTokens : list string :=
  ["Android"; "webOS"; "iPhone"; "iPad"; "iPod"; "BlackBerry"; "IEMobile";
   "Opera Mini"].

Definition tabletTokens : list string := ["iPad"; "Tablet"; "PlayBook"].

(** How often the label [k] is recorded by the calls [vs]; a [null]
    value is recorded under the label "null". *)
Definition occurrences (k : string) (vs : list (option string)) : Z :=
  Z.of_nat (count_occ string_dec (map toText vs) k).

(** What one more call does to the slot of a label that names an
    inherited member other than [__proto__]: the first call stores [NaN]
    (the member is truthy, and is not a number), the next one finds [NaN]
    falsy and restarts from 0. *)
Definition bumpedInherited (slot : option JsNumber) : option JsNumber :=
  match slot with
  | None => Some NaN
  | Some NaN => Some (Num 1)
  | Some (Num n) => Some (Num (n + 1))
  end.

(** [a] is not ranked below [b] by the comparator of [getTopInterests]. *)
Definition notFewer (a b : string * JsNumber) : Prop := fewerThan a b = false.

Definition isCount (e : string * JsNumber) : Prop := exists n, snd e = Num n.

(** The interests object [getTopInterests] copies [viewed] into. *)
Definition copied (o : JsObject.t) : JsObject.t :=
  fold_left (fun acc k => JsObject.set acc k (toNumber (JsObject.get o k)))
    (JsObject.ownPropertyKeys o) JsObject.empty.

(** The authentication flag and the two fields it comes with agree. *)
Definition AuthConsistent (w : World) : Prop :=
  match isAuthenticated (self w) with
  | true => exists id, userId (self w) = Some id
  | false => userId (self w) = None /\ userEmail (self w) = None
  end.

(** The type of the last interaction pushed, if any. *)
Definition lastInteraction (w : World) : option string :=
  option_map type (last (map Some (interactions (sessionData (self w)))) None).

(** The two writes of [linkUserWithIP] for the user [id] seen at
    [address]. *)
Definition mappingWrite (id address : string) : Effect :=
  Sent (DocSet ["user_mappings"; id]
          [ ("linkedIPs", ArrayUnion (VString address));
            ("lastUpdated", ServerTimestamp) ]
          true).

Definition recordWrite (id : string) (mail : option string) (address : string)
  : Effect :=
  Sent (DocUpdate (usersByIp address)
          [ ("linkedUsers", ArrayUnion (VString id));
            ("lastUserId", Plain (VString id));
            ("lastUserEmail", Plain (ofString mail)) ]).

(** How many listeners are registered for [l]. *)
Definition registrations (l : Listener) (w : World) : nat :=
  length (filter (listener_eqb l) (listeners (page w))).

(** The requests of [checkReturningUser] on the caller record of
    [address]. *)
Definition visitIncrement (address : string) : Effect :=
  Sent (DocUpdate (usersByIp address)
          [("visitCount", Increment 1); ("lastVisit", ServerTimestamp)]).

Definition recordCreation (env : Env) (a : UserAnalytics) (address : string)
  : Effect :=
  Sent (DocSet (usersByIp address)
          [ ("firstSeen", ServerTimestamp);
            ("lastVisit", ServerTimestamp);
            ("visitCount", Plain (VNumber (Num 1)));
            ("userAgent", Plain (VString (userAgent env)));
            ("device", Plain (VString (device (userProfile a))));
            ("preferences", Plain (VObject [])) ]
          false).

(** [visitCount || 0]. *)
Definition visitsOr0 (ud : UserData) : Z :=
  match visitCount ud with
  | Some n => n
  | None => 0
  end.

(** The post document [createPost] writes for the instance [a]. *)
Definition postDocument (a : UserAnalytics) (text : string)
  (videoUrl : option string) : Effect :=
  Sent (CollectionAdd ["posts"]
          [ ("userId", Plain (VString (stringOr (userId a) "anonymous")));
            ("username",
              Plain (VString (stringOr (username (userProfile a)) "Anonymous")));
            ("text", Plain (VString text));
            ("videoUrl", Plain (ofString videoUrl));
            ("timestamp", ServerTimestamp) ]).

(** [e] is a post document. *)
Definition isPostDocument (e : Effect) : bool :=
  match e with
  | Sent (CollectionAdd ["posts"] _) => true
  | _ => false
  end.

Definition notCreatePostError (e : Effect) : Prop :=
  e <> Console ErrorLevel "Error creating post:".

(** [firebase.firestore()] (or another member) can be called. *)
Definition usable (member : Firebase -> Service) (env : Env) : bool :=
  match firebase env with
  | Some fb => match member fb with Ready => true | _ => false end
  | None => false
  end.

(** The three kinds of write [logEvent] makes. *)
Definition isSessionEvent (e : Effect) : bool :=
  match e with
  | Sent (CollectionAdd _ _) => true
  | _ => false
  end.

Definition isSessionSummary (e : Effect) : bool :=
  match e with
  | Sent (DocSet _ _ true) => true
  | _ => false
  end.

Definition isAnalyticsEvent (e : Effect) : bool :=
  match e with
  | Sent (AnalyticsLogEvent _ _) => true
  | _ => false
  end.

(** The session record of [w'] continues that of [w]: the two lists have
    only gained entries at the end, the identifier and the start time are
    the same, and the page-view counter did not go back. *)
Definition SessionGrows (w w' : World) : Prop :=
  (exists added,
     interactions (sessionData (self w')) =
     (interactions (sessionData (self w)) ++ added)%list) /\
  (exists added,
     searches (sessionData (self w')) =
     (searches (sessionData (self w)) ++ added)%list) /\
  sessionId (self w') = sessionId (self w) /\
  sessionStartTime (self w') = sessionStartTime (self w) /\
  pageViews (sessionData (self w)) <= pageViews (sessionData (self w')).

(** The record [updatePreferencesInFirebase] adds to the caller's
    [user_events] once its update was accepted. *)
Definition preferenceRecord (address kind : string) (value : option string)
  (sid : string) : Effect :=
  Sent (CollectionAdd ["users_by_ip"; address; "user_events"]
          [ ("eventType", Plain (VString "preference"));
            ("preferenceType", Plain (VString kind));
            ("value", Plain (ofString value));
            ("timestamp", ServerTimestamp);
            ("sessionId", Plain (VString sid)) ]).

(** The operations whose method reads the identifier [firebase] outside
    every [try], and is not called through [initialize] or the dispatch
    of an event. *)
Definition readsFirebase (op : Op) : bool :=
  match op with
  | CheckReturningUser | HandleAuthChange _ | LinkUserWithIP | LogPageView
  | LogSearch _ _ | LogCasinoPreference _ _ | UpdatePreferencesInFirebase _ _
  | LogEvent _ _ | CreatePost _ _ | LoadPosts => true
  | _ => false
  end.

(** The count stored under [k], 0 when there is none. *)
Definition countOf (o : JsObject.t) (k : string) : Z :=
  match JsObject.count o k with
  | Some n => n
  | None => 0
  end.

(** What every counter map of the tracker satisfies: no key twice, no
    own [__proto__], and every count that is a number is positive. *)
Definition Counts (o : JsObject.t) : Prop :=
  NoDup (JsObject.insertionOrder o) /\
  JsObject.own o "__proto__" = None /\
  forall k n, JsObject.own o k = Some (Num n) -> 0 < n.

Definition ViewedCounts (w : World) : Prop := Counts (viewed (prefs w)).

Module More.

Definition withUserAgent (ua : string) (env : Env) : Env :=
  {| userAgent := ua; pathname := pathname env; title := title env;
     referrer := referrer env; performanceNow := performanceNow env;
     randomId := randomId env; firebaseGlobal := firebaseGlobal env;
     userIpResponse := userIpResponse env; storedUser := storedUser env;
     storedPosts := storedPosts env; downloadUrl := downloadUrl env;
     remoteOk := remoteOk env; forEachPassesIndex := forEachPassesIndex env |}.

Definition iPadAgent : string :=
  "Mozilla/5.0 (iPad; CPU OS 16_6 like Mac OS X) AppleWebKit/605.1.15".

Definition onIPad : Env := withUserAgent iPadAgent Sample.online.

(** Category clicks on a fresh tracker: "resort", "constructor", "resort",
    "constructor", "constructor". *)
Definition mixedLabels : list (option string) :=
  [Some "resort"; Some "constructor"; Some "resort"; Some "constructor";
   Some "constructor"].

(** Category clicks with four ordinary labels: "resort" three times,
    "tribal" twice, "card room" and "racetrack" once each. *)
Definition fourLabels : list (option string) :=
  [Some "resort"; Some "tribal"; Some "resort"; Some "card room";
   Some "racetrack"; Some "tribal"; Some "resort"].

(** The tracker of the sample page after [setupEventListeners] has run
    a second time. *)
Definition registeredTwice : World :=
  run Sample.online Sample.resolved [SetupEventListeners].

Definition withStoredUser (u : option UserData) (env : Env) : Env :=
  {| userAgent := userAgent env; pathname := pathname env; title := title env;
     referrer := referrer env; performanceNow := performanceNow env;
     randomId := randomId env; firebaseGlobal := firebaseGlobal env;
     userIpResponse := userIpResponse env; storedUser := u;
     storedPosts := storedPosts env; downloadUrl := downloadUrl env;
     remoteOk := remoteOk env; forEachPassesIndex := forEachPassesIndex env |}.

(** A visitor seen four times before, whose most viewed category is
    "tribal". *)
Definition regular : UserData :=
  {| visitCount := Some 4; preferences := Some (Some "tribal") |}.

Definition returningVisit : Env := withStoredUser (Some regular) Sample.online.

(** The tracker with the identity resolved, before the lookup. *)
Definition identified : World :=
  withSelf
    (withUserProfile
       (withIp (Some "203.0.113.7") (userProfile (self Sample.start)))
       (self Sample.start))
    Sample.start.

End More.

(** * Properties *)

Import JsString.

(** ** Searching a string *)

Lemma startsWith_iff s t :
  startsWith s t = true <-> exists post, s = t ++ post.
Proof.
  revert s; induction t as [|c t IH]; intros s; simpl.
  - split; [intros _; now exists s | intros _; now destruct s].
  - destruct s as [|d s]; simpl.
    + split; [discriminate | intros [post H]; discriminate].
    + rewrite andb_true_iff, Ascii.eqb_eq, IH. split.
      * intros [-> [post ->]]. now exists post.
      * intros [post H]. injection H as -> ->. split; [reflexivity | now exists post].
Qed.

Lemma indexOfFrom_lower_bound s t i :
  indexOfFrom s t i = -1 \/ i <= indexOfFrom s t i.
Proof.
  revert i; induction s as [|d s IH]; intros i; cbn [indexOfFrom].
  - destruct (startsWith "" t); [right; lia | now left].
  - destruct (startsWith (String d s) t); [right; lia |].
    destruct (IH (i + 1)) as [H | H]; [now left | right; lia].
Qed.

Lemma indexOfFrom_found s t i :
  0 <= i -> (-1 < indexOfFrom s t i <-> Contains t s).
Proof.
  revert i; induction s as [|d s IH]; intros i Hi; cbn [indexOfFrom].
  - destruct (startsWith "" t) eqn:E.
    + split; [intros _ | lia].
      apply startsWith_iff in E as [post E]. now exists "", post.
    + split; [lia |]. intros [pre [post H]].
      destruct pre; simpl in H.
      * assert (startsWith "" t = true) by (apply startsWith_iff; now exists post).
        congruence.
      * discriminate.
  - destruct (startsWith (String d s) t) eqn:E.
    + split; [intros _ | lia].
      apply startsWith_iff in E as [post E]. now exists "", post.
    + rewrite (IH (i + 1)) by lia. split.
      * intros [pre [post ->]]. now exists (String d pre), post.
      * intros [pre [post H]]. destruct pre as [|c pre]; simpl in H.
        -- assert (startsWith (String d s) t = true)
             by (apply startsWith_iff; now exists post).
           congruence.
        -- injection H as _ ->. now exists pre, post.
Qed.

(** [indexOf] finds a token exactly when the token occurs. *)
Lemma indexOf_found s t : -1 < indexOf s t <-> Contains t s.
Proof. unfold indexOf. now apply indexOfFrom_found. Qed.

Lemma indexOf_absent s t : indexOf s t = -1 <-> ~ Contains t s.
Proof.
  rewrite <- indexOf_found. unfold indexOf.
  destruct (indexOfFrom_lower_bound s t 0); lia.
Qed.

Lemma gtb_minus_one_found s t : (indexOf s t >? -1) = true <-> Contains t s.
Proof. rewrite <- indexOf_found, Z.gtb_lt. reflexivity. Qed.

Lemma gtb_minus_one_absent s t : (indexOf s t >? -1) = false <-> ~ Contains t s.
Proof.
  rewrite <- gtb_minus_one_found. destruct (indexOf s t >? -1); split; congruence.
Qed.

(** ** Browser classification *)

(** C8.  [getBrowserInfo] tests the tokens in the order Chrome, Safari,
    Firefox, MSIE or Trident (answering "IE"), Edge, and answers
    "Unknown" when none occurs; the first token that occurs in the user
    agent decides.  In particular a user agent with both "Chrome" and
    "Safari" is classified "Chrome". *)
Theorem getBrowserInfo_first_match (env : Env) :
  let occurs t := Contains t (userAgent env) in
  (occurs "Chrome" -> getBrowserInfo env = "Chrome") /\
  (~ occurs "Chrome" -> occurs "Safari" -> getBrowserInfo env = "Safari") /\
  (~ occurs "Chrome" -> ~ occurs "Safari" -> occurs "Firefox" ->
   getBrowserInfo env = "Firefox") /\
  (~ occurs "Chrome" -> ~ occurs "Safari" -> ~ occurs "Firefox" ->
   occurs "MSIE" \/ occurs "Trident" -> getBrowserInfo env = "IE") /\
  (~ occurs "Chrome" -> ~ occurs "Safari" -> ~ occurs "Firefox" ->
   ~ occurs "MSIE" -> ~ occurs "Trident" -> occurs "Edge" ->
   getBrowserInfo env = "Edge") /\
  (~ occurs "Chrome" -> ~ occurs "Safari" -> ~ occurs "Firefox" ->
   ~ occurs "MSIE" -> ~ occurs "Trident" -> ~ occurs "Edge" ->
   getBrowserInfo env = "Unknown").
Proof.
  intros occurs. unfold occurs, getBrowserInfo.
  repeat split; intros;
    repeat match goal with
      | H : Contains _ _ |- _ => apply gtb_minus_one_found in H; rewrite ?H
      | H : ~ Contains _ _ |- _ => apply gtb_minus_one_absent in H; rewrite ?H
      | H : _ \/ _ |- _ => destruct H
      end; simpl; rewrite ?orb_true_r; reflexivity.
Qed.

Lemma getBrowserInfo_first_match_witness :
  Contains "Chrome" (userAgent Sample.online) /\
  Contains "Safari" (userAgent Sample.online) /\
  getBrowserInfo Sample.online = "Chrome".
Proof.
  assert (H : Contains "Chrome" (userAgent Sample.online)).
  { exists "Mozilla/5.0 (X11; Linux x86_64) AppleWebKit/537.36 (KHTML, like Gecko) ",
      "/120.0.0.0 Safari/537.36". reflexivity. }
  split; [exact H | split].
  - exists "Mozilla/5.0 (X11; Linux x86_64) AppleWebKit/537.36 (KHTML, like Gecko) Chrome/120.0.0.0 ",
      "/537.36". reflexivity.
  - exact (proj1 (getBrowserInfo_first_match Sample.online) H).
Defined.

(** ** Frame rules for computations *)

#[local] Instance keeps_preorder {X} (f : World -> X) : PreOrder (keeps f).
Proof.
  split; unfold keeps; [intros w; reflexivity |].
  intros w1 w2 w3 H12 H23. congruence.
Qed.

#[local] Instance emits_preorder (P : Effect -> Prop) : PreOrder (emits P).
Proof.
  split; unfold emits.
  - intros w. now exists [].
  - intros w1 w2 w3 (n12 & H12 & P12) (n23 & H23 & P23).
    exists (n23 ++ n12)%list. split.
    + now rewrite H23, H12, app_assoc.
    + apply Forall_app. now split.
Qed.

Section FrameRules.

Variable R : World -> World -> Prop.
Context {R_preorder : PreOrder R}.

Let R_refl : forall w, R w w := fun w => reflexivity w.

Let R_trans : forall w1 w2 w3, R w1 w2 -> R w2 w3 -> R w1 w3 :=
  fun w1 w2 w3 => transitivity (x := w1) (y := w2) (z := w3).

Lemma frame_ret {A} (a : A) : Frame R (ret a).
Proof. intros w. apply R_refl. Qed.

Lemma frame_throw {A} (e : Error) : Frame R (@throw A e).
Proof. intros w. apply R_refl. Qed.

Lemma frame_bind {A B} (c : Js A) (k : A -> Js B) :
  Frame R c -> (forall a, Frame R (k a)) -> Frame R (bind c k).
Proof.
  intros Hc Hk w. unfold bind. specialize (Hc w).
  destruct (c w) as [[a | e] w1]; simpl in *; [| exact Hc].
  eapply R_trans; [exact Hc | apply Hk].
Qed.

Lemma frame_tryCatch {A} (body : Js A) (handler : Error -> Js A) :
  Frame R body -> (forall e, Frame R (handler e)) -> Frame R (tryCatch body handler).
Proof.
  intros Hb Hh w. unfold tryCatch. specialize (Hb w).
  destruct (body w) as [[a | e] w1]; simpl in *; [exact Hb |].
  eapply R_trans; [exact Hb | apply Hh].
Qed.

Lemma frame_fireAndForget (c : Js unit) : Frame R c -> Frame R (fireAndForget c).
Proof. intros Hc w. apply Hc. Qed.

Lemma frame_this : Frame R this.
Proof. intros w. apply R_refl. Qed.

Lemma frame_document : Frame R document.
Proof. intros w. apply R_refl. Qed.

Lemma frame_newDate : Frame R newDate.
Proof. intros w. apply R_refl. Qed.

Lemma frame_emitted : Frame R emitted.
Proof. intros w. apply R_refl. Qed.

Lemma frame_secondsSince start : Frame R (secondsSince start).
Proof. intros w. apply R_refl. Qed.

Lemma frame_forEach_ {A} (f : nat -> A -> Js unit) (l : list A) :
  (forall i x, Frame R (f i x)) -> forall i, Frame R (forEach_ f i l).
Proof.
  intros Hf. induction l as [|x l IH]; intros i; simpl.
  - apply frame_ret.
  - apply frame_bind; [apply Hf | intros _; apply IH].
Qed.

Lemma frame_forEach {A} (l : list A) (f : nat -> A -> Js unit) :
  (forall i x, Frame R (f i x)) -> Frame R (forEach l f).
Proof. intros Hf. now apply frame_forEach_. Qed.

Lemma frame_dispatch (handlers : list (Js unit)) :
  (forall h, In h handlers -> Frame R h) -> Frame R (dispatch handlers).
Proof.
  induction handlers as [|h hs IH]; intros Hh; simpl.
  - apply frame_ret.
  - apply frame_bind.
    + apply frame_fireAndForget, Hh. now left.
    + intros _. apply IH. intros h' Hin. apply Hh. now right.
Qed.

Lemma frame_fire (l : Listener) (handler : Js unit) :
  Frame R handler -> Frame R (fire l handler).
Proof.
  intros Hh. unfold fire. apply frame_bind; [apply frame_document |].
  intros p. apply frame_dispatch. intros h Hin.
  apply in_map_iff in Hin as [_ [<- _]]. exact Hh.
Qed.

(** The rules for the three ways of changing the world ask that the
    change be related by [R]. *)

Lemma frame_emit (e : Effect) :
  (forall w, R w (withOutbox (e :: outbox w) w)) -> Frame R (emit e).
Proof. intros H w. apply H. Qed.

Lemma frame_send env (r : Request) :
  (forall w, R w (withOutbox (Sent r :: outbox w) w)) -> Frame R (send env r).
Proof. intros H w. apply H. Qed.

Lemma frame_await env (r : Request) :
  (forall w, R w (withOutbox (Sent r :: outbox w) w)) -> Frame R (await env r).
Proof.
  intros H. unfold await. apply frame_bind; [now apply frame_send |].
  intros [|]; [apply frame_ret | apply frame_throw].
Qed.

Lemma frame_post env (r : Request) :
  (forall w, R w (withOutbox (Sent r :: outbox w) w)) -> Frame R (post env r).
Proof.
  intros H. unfold post. apply frame_bind; [now apply frame_send |].
  intros _. apply frame_ret.
Qed.

Lemma frame_assign (f : UserAnalytics -> UserAnalytics) :
  (forall w, R w (withSelf (f (self w)) w)) -> Frame R (assign f).
Proof. intros H w. apply H. Qed.

Lemma frame_render (f : Page -> Page) :
  (forall w, R w (withPage (f (page w)) w)) -> Frame R (render f).
Proof. intros H w. apply H. Qed.

Lemma frame_elapse (ms : N) :
  (forall w, R w (withNow (now w + Z.of_N ms) w)) -> Frame R (elapse ms).
Proof. intros H w. apply H. Qed.

Lemma frame_global env : Frame R (global env).
Proof.
  unfold global. destruct (firebaseGlobal env); [apply frame_throw | apply frame_ret].
Qed.

Lemma frame_has member env : Frame R (has member env).
Proof.
  unfold has. apply frame_bind; [apply frame_global | intros value; apply frame_ret].
Qed.

Lemma frame_call member env : Frame R (call member env).
Proof.
  unfold call. apply frame_bind; [apply frame_global |].
  intros [fb |]; [| apply frame_throw].
  destruct (member fb); first [apply frame_ret | apply frame_throw].
Qed.

End FrameRules.

(** One step of a frame proof: a structural rule, or a case analysis on
    what the code branches on.  [change_rule] closes the side condition
    of a rule that changes the world. *)
Ltac frame_step change_rule :=
  lazymatch goal with
  | |- Frame _ (ret _) => refine (frame_ret _ _)
  | |- Frame _ (throw _) => refine (frame_throw _ _)
  | |- Frame _ this => refine (frame_this _)
  | |- Frame _ document => refine (frame_document _)
  | |- Frame _ newDate => refine (frame_newDate _)
  | |- Frame _ emitted => refine (frame_emitted _)
  | |- Frame _ (secondsSince _) => refine (frame_secondsSince _ _)
  | |- Frame _ (has _ _) => refine (frame_has _ _ _)
  | |- Frame _ (call _ _) => refine (frame_call _ _ _)
  | |- Frame _ (bind _ _) => refine (frame_bind _ _ _ _ _); [| intros ?]
  | |- Frame _ (tryCatch _ _) => refine (frame_tryCatch _ _ _ _ _); [| intros ?]
  | |- Frame _ (fireAndForget _) => refine (frame_fireAndForget _ _ _)
  | |- Frame _ (forEach _ _) => refine (frame_forEach _ _ _ _); intros ? ?
  | |- Frame _ (fire _ _) => refine (frame_fire _ _ _ _)
  | |- Frame _ (emit _) => refine (frame_emit _ _ _); change_rule
  | |- Frame _ (console _ _) => refine (frame_emit _ _ _); change_rule
  | |- Frame _ (await _ _) => refine (frame_await _ _ _ _); change_rule
  | |- Frame _ (post _ _) => refine (frame_post _ _ _ _); change_rule
  | |- Frame _ (assign _) => refine (frame_assign _ _ _); change_rule
  | |- Frame _ (render _) => refine (frame_render _ _ _); change_rule
  | |- Frame _ (elapse _) => refine (frame_elapse _ _ _); change_rule
  | |- Frame _ (addEventListener _) => refine (frame_render _ _ _); change_rule
  | |- Frame _ (if ?b then _ else _) => destruct b
  | |- Frame _ (match ?x with _ => _ end) => destruct x
  | |- Frame _ (let _ := _ in _) => cbv zeta
  end.

Ltac unchanged := intros; unfold keeps; reflexivity.

Ltac frame_unchanged := repeat frame_step ltac:(idtac; unchanged).

(** ** What the methods leave alone *)

(** The preference aggregate is written by [logCasinoPreference] and, for
    its derived field, by [checkReturningUser]; by nothing else. *)

Lemma logEvent_keeps_prefs env event_type details :
  Frame (keeps prefs) (logEvent env event_type details).
Proof. unfold logEvent. frame_unchanged. Qed.

Lemma updatePreferencesInFirebase_keeps_prefs env kind value :
  Frame (keeps prefs) (updatePreferencesInFirebase env kind value).
Proof. unfold updatePreferencesInFirebase. frame_unchanged. Qed.

(** ** The most frequent category *)

Lemma get_number_count o k n :
  JsObject.get o k = VNumber (Num n) <-> JsObject.count o k = Some n.
Proof.
  unfold JsObject.get, JsObject.count.
  destruct (JsObject.own o k) as [[m |] |].
  - split; intros H; injection H as ->; reflexivity.
  - split; discriminate.
  - destruct (JsObject.inherited k); split; discriminate.
Qed.

(** The loop of [getMostFrequent] is the scan for the first maximum, over
    the keys in enumeration order. *)
Lemma getMostFrequent_scan o :
  getMostFrequent o = firstMaximum (JsObject.ownPropertyKeys o) o.
Proof.
  unfold getMostFrequent, firstMaximum. f_equal.
  generalize (0, @None string).
  induction (JsObject.ownPropertyKeys o) as [|k keys IH]; intros acc; simpl.
  - reflexivity.
  - rewrite IH. f_equal. destruct acc as [max maxKey]; simpl.
    destruct (JsObject.count o k) as [n |] eqn:E.
    + apply get_number_count in E. now rewrite E.
    + destruct (JsObject.get o k) as [| | | [n |] | | | |] eqn:G; try reflexivity.
      apply get_number_count in G. congruence.
Qed.

Section Scan.

Variable o : JsObject.t.

Let scan (acc : Z * option string) (key : string) : Z * option string :=
  match JsObject.count o key with
  | Some n => if fst acc <? n then (n, Some key) else acc
  | None => acc
  end.

(** Scanning from a running maximum [m]: either nothing exceeds [m] and
    the result is untouched, or the result is the first key holding the
    largest count, which exceeds [m]. *)
Lemma scan_from keys : forall m mk,
  (fold_left scan keys (m, mk) = (m, mk) /\
   forall k c, In k keys -> JsObject.count o k = Some c -> c <= m) \/
  (exists before k after c,
     keys = before ++ k :: after /\
     JsObject.count o k = Some c /\ m < c /\
     (forall k' c', In k' before -> JsObject.count o k' = Some c' -> c' < c) /\
     (forall k' c', In k' after -> JsObject.count o k' = Some c' -> c' <= c) /\
     fold_left scan keys (m, mk) = (c, Some k))%list.
Proof.
  induction keys as [|key keys IH]; intros m mk; simpl.
  - left. split; [reflexivity | intros k c []].
  - unfold scan at 2 4. simpl.
    destruct (JsObject.count o key) as [n |] eqn:E.
    + destruct (m <? n) eqn:L.
      * apply Z.ltb_lt in L. right.
        destruct (IH n (Some key)) as [[Hr Hle] | (b & k & a & c & -> & Hk & Hc & Hb & Ha & Hr)].
        -- exists [], key, keys, n. repeat split; auto.
           intros k' c' [].
        -- exists (key :: b), k, a, c. repeat split; auto; try lia.
           intros k' c' [<- | Hin] Hc'; [| eauto].
           rewrite E in Hc'. injection Hc' as <-. exact Hc.
      * apply Z.ltb_ge in L.
        destruct (IH m mk) as [[Hr Hle] | (b & k & a & c & -> & Hk & Hc & Hb & Ha & Hr)].
        -- left. split; [exact Hr |].
           intros k c [<- | Hin] Hc; [| eauto].
           rewrite E in Hc. injection Hc as <-. exact L.
        -- right. exists (key :: b), k, a, c. repeat split; auto.
           intros k' c' [<- | Hin] Hc'; [| eauto].
           rewrite E in Hc'. injection Hc' as <-. lia.
    + destruct (IH m mk) as [[Hr Hle] | (b & k & a & c & -> & Hk & Hc & Hb & Ha & Hr)].
      * left. split; [exact Hr |].
        intros k c [<- | Hin] Hc; [congruence | eauto].
      * right. exists (key :: b), k, a, c. repeat split; auto.
        intros k' c' [<- | Hin] Hc'; [congruence | eauto].
Qed.

(** What the scan returns is the first maximum, and it returns nothing
    only when no key holds a positive count. *)
Lemma firstMaximum_spec keys :
  match firstMaximum keys o with
  | Some k => FirstMaximum keys o k
  | None => NoMaximum keys o
  end.
Proof.
  unfold firstMaximum. fold scan.
  destruct (scan_from keys 0 None)
    as [[-> Hle] | (b & k & a & c & -> & Hk & Hc & Hb & Ha & ->)]; simpl.
  - exact Hle.
  - exists b, a, c. auto.
Qed.

End Scan.

Lemma ownPropertyKeys_insertionOrder o :
  (forall k, In k (JsObject.insertionOrder o) -> JsObject.arrayIndex k = None) ->
  JsObject.ownPropertyKeys o = JsObject.insertionOrder o.
Proof.
  unfold JsObject.ownPropertyKeys, JsObject.insertionOrder. intros H.
  assert (HI : JsObject.indexKeys o = [] /\ JsObject.nameKeys o = map fst o).
  { induction o as [|[k x] o IH]; simpl; [now split |].
    rewrite (H k) by now left.
    destruct IH as [IH1 IH2]; [intros k' Hin; apply H; now right |].
    split; [exact IH1 | now rewrite IH2]. }
  destruct HI as [-> ->]. reflexivity.
Qed.

Lemma run_app env w ops ops' :
  run env w (ops ++ ops') = run env (run env w ops) ops'.
Proof. apply fold_left_app. Qed.

Lemma run_cons env w op ops :
  run env w (op :: ops) = run env (step env w op) ops.
Proof. reflexivity. Qed.

Lemma run_snoc env w ops op :
  run env w (ops ++ [op]) = step env (run env w ops) op.
Proof. now rewrite run_app. Qed.

(** What a category call does to the preference aggregate: the count of
    the label is bumped and the derived field recomputed from the new
    counts; logging the event and mirroring it remotely change neither. *)
Lemma logCasinoPreference_category env value w :
  prefs (step env w (LogCasinoPreference "category" value)) =
  let viewed' := bump (viewed (prefs w)) (toText value) in
  withTypePreference (getMostFrequent viewed') (withViewed viewed' (prefs w)).
Proof.
  unfold step, exec, logCasinoPreference.
  match goal with
  | |- prefs (snd (bind _ ?k w)) = _ =>
      assert (Hk : Frame (keeps prefs) (k tt))
  end.
  { cbv beta. frame_step idtac. frame_step idtac.
    frame_step idtac; [apply logEvent_keeps_prefs |].
    frame_step idtac. apply updatePreferencesInFirebase_keeps_prefs. }
  unfold bind at 1. simpl (String.eqb _ _). cbv iota.
  unfold assign at 1. rewrite (Hk _). reflexivity.
Qed.

(** C1, as the code has it.  After every call of a sequence of
    [logCasinoPreference('category', v)], from any state, the derived
    field [typePreference] is the first key, in the enumeration order of
    the [viewed] object, that holds the largest numeric count, and it is
    [null] only when no key holds a positive count (a label that names a
    member of [Object.prototype] has the count [NaN] after its first
    call).  The enumeration order puts the keys that are array indices
    first, in ascending numeric order, and then the other keys in
    insertion order; it is the insertion order when no label is an array
    index. *)
Theorem typePreference_first_maximum env w vs v :
  let w' := run env w (recordCategories (vs ++ [v])) in
  let o := viewed (prefs w') in
  match typePreference (prefs w') with
  | Some k => FirstMaximum (JsObject.ownPropertyKeys o) o k
  | None => NoMaximum (JsObject.ownPropertyKeys o) o
  end /\
  ((forall k, In k (JsObject.insertionOrder o) -> JsObject.arrayIndex k = None) ->
   JsObject.ownPropertyKeys o = JsObject.insertionOrder o).
Proof.
  intros w' o. split; [| apply ownPropertyKeys_insertionOrder].
  subst o w'. unfold recordCategories.
  rewrite map_app. simpl (map _ [v]). rewrite run_snoc.
  rewrite logCasinoPreference_category. cbv zeta. simpl.
  rewrite getMostFrequent_scan. apply firstMaximum_spec.
Qed.

Lemma typePreference_first_maximum_witness :
  FirstMaximum ["resort"; "tribal"] [("resort", Num 1); ("tribal", Num 2)] "tribal" /\
  JsObject.ownPropertyKeys (viewed (prefs Sample.resortTribalTribal)) =
  JsObject.insertionOrder (viewed (prefs Sample.resortTribalTribal)).
Proof.
  destruct (typePreference_first_maximum Sample.online Sample.start
              [Some "resort"; Some "tribal"] (Some "tribal")) as [H1 H2].
  split.
  - exact H1.
  - apply H2. intros k [<- | [<- | []]]; reflexivity.
Defined.

(** C1, as it is worded, fails: after the labels "2" and "1", each seen
    once, the object enumerates "1" before "2" and the derived field is
    "1", while a scan in insertion order meets "2" first. *)
Lemma typePreference_not_insertion_order :
  typePreference (prefs Sample.twoThenOne) = Some "1" /\
  firstMaximum (JsObject.insertionOrder (viewed (prefs Sample.twoThenOne)))
    (viewed (prefs Sample.twoThenOne)) = Some "2" /\
  typePreference (prefs Sample.twoThenOne) <>
  firstMaximum (JsObject.insertionOrder (viewed (prefs Sample.twoThenOne)))
    (viewed (prefs Sample.twoThenOne)).
Proof. vm_compute. repeat split; discriminate. Qed.

(** ** Computations that return *)

Lemma returns_ret {A} (a : A) : Returns (ret a).
Proof. intros w. now exists a. Qed.

Lemma returns_bind {A B} (c : Js A) (k : A -> Js B) :
  Returns c -> (forall a, Returns (k a)) -> Returns (bind c k).
Proof.
  intros Hc Hk w. unfold bind. destruct (Hc w) as [a Ha].
  destruct (c w) as [r w1]; simpl in Ha; subst r. apply Hk.
Qed.

(** A [try] whose handler returns, returns: whatever the body throws is
    caught. *)
Lemma returns_tryCatch {A} (body : Js A) (handler : Error -> Js A) :
  (forall e, Returns (handler e)) -> Returns (tryCatch body handler).
Proof.
  intros Hh w. unfold tryCatch.
  destruct (body w) as [[a | e] w1]; [now exists a | apply Hh].
Qed.

Lemma returns_fireAndForget (c : Js unit) : Returns (fireAndForget c).
Proof. intros w. now exists tt. Qed.

Lemma returns_this : Returns this.
Proof. intros w. now exists (self w). Qed.

Lemma returns_document : Returns document.
Proof. intros w. now exists (page w). Qed.

Lemma returns_newDate : Returns newDate.
Proof. intros w. now exists (now w). Qed.

Lemma returns_secondsSince start : Returns (secondsSince start).
Proof. intros w. now exists ((now w - start) / 1000). Qed.

Lemma returns_emit e : Returns (emit e).
Proof. intros w. now exists tt. Qed.

Lemma returns_post env r : Returns (post env r).
Proof. intros w. now exists tt. Qed.

Lemma returns_assign f : Returns (assign f).
Proof. intros w. now exists tt. Qed.

Lemma returns_render f : Returns (render f).
Proof. intros w. now exists tt. Qed.

Lemma returns_elapse ms : Returns (elapse ms).
Proof. intros w. now exists tt. Qed.

Lemma returns_forEach_ {A} (f : nat -> A -> Js unit) (l : list A) :
  (forall i x, Returns (f i x)) -> forall i, Returns (forEach_ f i l).
Proof.
  intros Hf. induction l as [|x l IH]; intros i; simpl.
  - apply returns_ret.
  - apply returns_bind; [apply Hf | intros _; apply IH].
Qed.

Lemma returns_dispatch handlers : Returns (dispatch handlers).
Proof.
  induction handlers as [|h hs IH]; simpl; [apply returns_ret |].
  apply returns_bind; [apply returns_fireAndForget | intros _; exact IH].
Qed.

Lemma returns_fire l handler : Returns (fire l handler).
Proof.
  unfold fire. apply returns_bind; [apply returns_document |].
  intros p. apply returns_dispatch.
Qed.

(** Reading [firebase] returns where the identifier is declared. *)
Lemma returns_has member env : declared env = true -> Returns (has member env).
Proof.
  unfold declared, has, global. intros H w.
  destruct (firebaseGlobal env) as [| value]; [discriminate | now eexists].
Qed.

Ltac returns_step :=
  lazymatch goal with
  | |- Returns (ret _) => apply returns_ret
  | |- Returns (has _ _) => apply returns_has; assumption
  | |- Returns this => apply returns_this
  | |- Returns document => apply returns_document
  | |- Returns newDate => apply returns_newDate
  | |- Returns (secondsSince _) => apply returns_secondsSince
  | |- Returns (bind _ _) => apply returns_bind; [| intros ?]
  | |- Returns (tryCatch _ _) => apply returns_tryCatch; intros ?
  | |- Returns (fireAndForget _) => apply returns_fireAndForget
  | |- Returns (forEach _ _) => apply returns_forEach_; intros ? ?
  | |- Returns (fire _ _) => apply returns_fire
  | |- Returns (emit _) => apply returns_emit
  | |- Returns (console _ _) => apply returns_emit
  | |- Returns (post _ _) => apply returns_post
  | |- Returns (assign _) => apply returns_assign
  | |- Returns (render _) => apply returns_render
  | |- Returns (elapse _) => apply returns_elapse
  | |- Returns (addEventListener _) => apply returns_render
  | |- Returns (if ?b then _ else _) => destruct b
  | |- Returns (match ?x with _ => _ end) => destruct x
  | |- Returns (let _ := _ in _) => cbv zeta
  end.

Lemma logEvent_returns env event_type details :
  declared env = true -> Returns (logEvent env event_type details).
Proof. intros H. unfold logEvent. repeat returns_step. Qed.

Lemma checkReturningUser_returns env :
  declared env = true -> Returns (checkReturningUser env).
Proof. intros H. unfold checkReturningUser. repeat returns_step. Qed.

Lemma setupEventListeners_returns : Returns setupEventListeners.
Proof. unfold setupEventListeners. repeat returns_step. Qed.

Lemma logPageView_returns env : declared env = true -> Returns (logPageView env).
Proof.
  intros H. unfold logPageView. repeat returns_step. now apply logEvent_returns.
Qed.


(** A computation of type [unit] that returns, returns [tt]. *)
Lemma returns_unit (c : Js unit) w : Returns c -> c w = (Normal tt, snd (c w)).
Proof.
  intros Hc. destruct (Hc w) as [[] Ha].
  destruct (c w) as [r w1]; simpl in *; now subst r.
Qed.

Lemma bind_returns (c : Js unit) {B} (k : unit -> Js B) w :
  Returns c -> bind c k w = k tt (snd (c w)).
Proof. intros Hc. unfold bind. now rewrite (returns_unit c w Hc). Qed.

(** Whether [c] returns or throws, what a continuation that keeps [f]
    leaves of [f] is what [c] left. *)
Lemma bind_keeps {A B X} (f : World -> X) (c : Js A) (k : A -> Js B) w :
  (forall a, Frame (keeps f) (k a)) -> f (snd (bind c k w)) = f (snd (c w)).
Proof.
  intros Hk. unfold bind. destruct (c w) as [[a | e] w1]; [apply Hk | reflexivity].
Qed.

(** Reading [firebase] where it holds the client object [fb]. *)
Lemma firebase_declared env fb :
  firebase env = Some fb -> firebaseGlobal env = Declared (Some fb).
Proof.
  unfold firebase. destruct (firebaseGlobal env) as [| value]; [discriminate |].
  now intros ->.
Qed.

Lemma bind_has {B} env fb member (k : bool -> Js B) w :
  firebase env = Some fb ->
  bind (has member env) k w =
  k (match member fb with Absent => false | _ => true end) w.
Proof.
  intros H. unfold has, global. now rewrite (firebase_declared env fb H).
Qed.

Lemma bind_call {B} env fb member (k : unit -> Js B) w :
  firebase env = Some fb -> member fb = Ready ->
  bind (call member env) k w = k tt w.
Proof.
  intros H Hm. unfold call, global, bind. rewrite (firebase_declared env fb H).
  unfold ret. now rewrite Hm.
Qed.

(** Runs the guards and the client calls in the goal, where [firebase]
    holds a client object whose member is ready. *)
Ltac firebase_ready Hfb Hfs :=
  repeat (first [ rewrite (bind_has _ _ _ _ _ Hfb), ?Hfs
                | rewrite (bind_call _ _ _ _ _ Hfb Hfs) ];
          cbn [negb orb andb]; cbv beta).

(** Reading it where it is declared, whatever its value. *)
Lemma bind_has_declared {B} env value member (k : bool -> Js B) w :
  firebaseGlobal env = Declared value ->
  bind (has member env) k w =
  k (match value with
     | Some fb => match member fb with Absent => false | _ => true end
     | None => false
     end) w.
Proof. intros H. unfold has, global. now rewrite H. Qed.

Lemma bind_call_declared {B} env value member (k : unit -> Js B) w :
  firebaseGlobal env = Declared value ->
  bind (call member env) k w =
  match value with
  | Some fb =>
      match member fb with
      | Ready => k tt w
      | _ => (Abrupt FirebaseError, w)
      end
  | None => (Abrupt TypeError, w)
  end.
Proof.
  intros H. unfold call, global, bind. rewrite H. unfold ret.
  destruct value as [fb |]; [destruct (member fb) |]; reflexivity.
Qed.

(** Reading it where it is not declared. *)
Lemma bind_has_undeclared {B} env member (k : bool -> Js B) w :
  firebaseGlobal env = Undeclared ->
  bind (has member env) k w = (Abrupt ReferenceError, w).
Proof. intros H. unfold has, global. now rewrite H. Qed.

(** ** Running the head of a computation *)

Lemma bind_ret {A B} (a : A) (k : A -> Js B) w : bind (ret a) k w = k a w.
Proof. reflexivity. Qed.

Lemma bind_throw {A B} (e : Error) (k : A -> Js B) w :
  bind (throw e) k w = (Abrupt e, w).
Proof. reflexivity. Qed.

Lemma bind_this {B} (k : UserAnalytics -> Js B) w : bind this k w = k (self w) w.
Proof. reflexivity. Qed.

Lemma bind_document {B} (k : Page -> Js B) w : bind document k w = k (page w) w.
Proof. reflexivity. Qed.

Lemma bind_newDate {B} (k : Z -> Js B) w : bind newDate k w = k (now w) w.
Proof. reflexivity. Qed.

Lemma bind_emitted {B} (k : nat -> Js B) w :
  bind emitted k w = k (length (outbox w)) w.
Proof. reflexivity. Qed.

Lemma bind_secondsSince {B} start (k : Z -> Js B) w :
  bind (secondsSince start) k w = k ((now w - start) / 1000) w.
Proof. reflexivity. Qed.

Lemma bind_assign {B} f (k : unit -> Js B) w :
  bind (assign f) k w = k tt (withSelf (f (self w)) w).
Proof. reflexivity. Qed.

Lemma bind_render {B} f (k : unit -> Js B) w :
  bind (render f) k w = k tt (withPage (f (page w)) w).
Proof. reflexivity. Qed.

Lemma bind_send {B} env r (k : bool -> Js B) w :
  bind (send env r) k w =
  k (remoteOk env (length (outbox w))) (withOutbox (Sent r :: outbox w) w).
Proof. reflexivity. Qed.

Lemma bind_emit {B} e (k : unit -> Js B) w :
  bind (emit e) k w = k tt (withOutbox (e :: outbox w) w).
Proof. reflexivity. Qed.

Lemma bind_bind {A B C} (c : Js A) (k : A -> Js B) (k' : B -> Js C) w :
  bind (bind c k) k' w = bind c (fun a => bind (k a) k') w.
Proof. unfold bind. destruct (c w) as [[a | e] w1]; reflexivity. Qed.

(** Runs the reads and writes at the head of the computation in the
    goal. *)
Ltac run_head :=
  repeat (first
    [ rewrite bind_bind | rewrite bind_ret | rewrite bind_throw | rewrite bind_this
    | rewrite bind_document
    | rewrite bind_newDate | rewrite bind_emitted | rewrite bind_secondsSince
    | rewrite bind_assign | rewrite bind_render | rewrite bind_emit ];
    cbv beta).

Lemma keeps_apply {X A} (f : World -> X) (c : Js A) w :
  Frame (keeps f) c -> f (snd (c w)) = f w.
Proof. intros H. apply H. Qed.

(** ** Exact effects on the instance and the page *)

(** [logEvent] changes the instance by one pushed interaction, and the
    page not at all. *)
Lemma logEvent_self env event_type d w :
  self (snd (logEvent env event_type d w)) = pushed event_type d (now w) (self w).
Proof.
  unfold logEvent, console. run_head.
  rewrite (keeps_apply self) by frame_unchanged. reflexivity.
Qed.

(** The same when a call whose promise is dropped follows, whether
    [logEvent] returned or threw. *)
Lemma logEvent_then_self env event_type d (c : Js unit) w :
  Frame (keeps self) c ->
  self (snd (bind (logEvent env event_type d) (fun _ => fireAndForget c) w)) =
  pushed event_type d (now w) (self w).
Proof.
  intros H. rewrite (bind_keeps self).
  - apply logEvent_self.
  - intros a w0. unfold keeps, fireAndForget. cbn [snd]. apply H.
Qed.

Lemma logEvent_keeps_page env event_type d :
  Frame (keeps page) (logEvent env event_type d).
Proof. unfold logEvent. frame_unchanged. Qed.

Lemma logPageView_self env w :
  self (snd (logPageView env w)) =
  pushed "page_view"
    [ ("page", VString (pathname env)); ("title", VString (title env));
      ("referrer", VString (referrer env));
      ("loadTime", VNumber (Num (performanceNow env))) ]
    (now w)
    (withSessionData (withPageViews (views w + 1) (sessionData (self w))) (self w)).
Proof. unfold logPageView. run_head. rewrite logEvent_self. reflexivity. Qed.

Lemma logPageView_keeps_page env : Frame (keeps page) (logPageView env).
Proof.
  unfold logPageView. repeat frame_step ltac:(idtac; unchanged).
  apply logEvent_keeps_page.
Qed.

Lemma checkReturningUser_keeps_page env : Frame (keeps page) (checkReturningUser env).
Proof. unfold checkReturningUser. frame_unchanged. Qed.

Lemma checkReturningUser_keeps_views env : Frame (keeps views) (checkReturningUser env).
Proof. unfold checkReturningUser. frame_unchanged. Qed.

Lemma checkReturningUser_keeps_ip env :
  Frame (keeps (fun w => ip (userProfile (self w)))) (checkReturningUser env).
Proof. unfold checkReturningUser. frame_unchanged. Qed.

Lemma forEach_addEventListener {A} (mk : nat -> Listener) (l : list A) :
  forall i w,
    forEach_ (fun i _ => addEventListener (mk i)) i l w =
    (Normal tt,
     withPage
       (withListeners
          (rev (map mk (seq i (length l))) ++ listeners (page w)) (page w)) w).
Proof.
  induction l as [|x l IH]; intros i w.
  - destruct w as [a [c f s p ls] t o]; reflexivity.
  - cbn [forEach_]. unfold addEventListener at 1. run_head.
    rewrite IH. cbn [length seq map rev]. rewrite <- app_assoc. reflexivity.
Qed.

Lemma setupEventListeners_effect w :
  setupEventListeners w =
  (Normal tt,
   withPage (withListeners (registered (page w) ++ listeners (page w)) (page w)) w).
Proof.
  unfold setupEventListeners, forEach, registered. run_head.
  rewrite bind_returns
    by (apply returns_forEach_; intros; apply returns_render).
  rewrite forEach_addEventListener. cbn [snd].
  rewrite bind_returns
    by (apply returns_forEach_; intros; apply returns_render).
  rewrite forEach_addEventListener. cbn [snd page withPage listeners withListeners].
  destruct (searchForm (page w)); cbn; rewrite ?app_assoc; reflexivity.
Qed.

(** ** The initialization protocol *)

(** When the endpoint gives no body to read, [initialize] stops at its
    [catch]: a request, an error message, and nothing else. *)
Lemma initialize_unresolved env w :
  identityResolved env = false ->
  initialize env w =
  (Normal tt,
   withOutbox (Console ErrorLevel "Failed to initialize analytics:"
               :: Sent (HttpGet "/get_user_ip") :: outbox w) w).
Proof.
  unfold identityResolved, initialize, tryCatch, fetchUserIp. intros H.
  run_head. destruct (userIpResponse env); try discriminate;
    destruct w; reflexivity.
Qed.

(** When it gives one and [firebase] is declared, every later step runs,
    whatever the document store answers. *)
Lemma initialize_resolved env d w :
  userIpResponse env = JsonData d ->
  declared env = true ->
  exists w',
    initialize env w = (Normal tt, w') /\
    listeners (page w') =
      OnAuthStateChanged :: registered (page w) ++ listeners (page w) /\
    views w' = views w + 1 /\
    ip (userProfile (self w')) = dataIp d.
Proof.
  intros H Hd. unfold initialize, tryCatch, fetchUserIp, console, addEventListener.
  rewrite H. run_head.
  rewrite (bind_returns (checkReturningUser env))
    by now apply checkReturningUser_returns.
  match goal with
  | |- context [snd (checkReturningUser env ?w1)] =>
      pose proof (keeps_apply page _ w1 (checkReturningUser_keeps_page env)) as Hp;
      pose proof (keeps_apply views _ w1 (checkReturningUser_keeps_views env)) as Hv;
      pose proof (keeps_apply _ _ w1 (checkReturningUser_keeps_ip env)) as Hi;
      generalize dependent (snd (checkReturningUser env w1))
  end.
  intros w2 Hp Hv Hi. cbv beta in Hi.
  rewrite (bind_returns setupEventListeners) by apply setupEventListeners_returns.
  rewrite setupEventListeners_effect. cbn [snd].
  rewrite (bind_returns (logPageView env)) by now apply logPageView_returns.
  match goal with
  | |- context [snd (logPageView env ?w3)] =>
      pose proof (keeps_apply page _ w3 (logPageView_keeps_page env)) as Hp';
      pose proof (logPageView_self env w3) as Hs';
      generalize dependent (snd (logPageView env w3))
  end.
  intros w4 Hp' Hs'. run_head. unfold emit. eexists. split; [reflexivity |].
  unfold views in *. cbn in *. rewrite Hp', Hs', Hp. cbn. rewrite Hv, Hi.
  repeat split.
Qed.

(** When it gives one and [firebase] is not declared, the guard of
    [checkReturningUser] throws outside that method's own [try]; the
    [catch] of [initialize] gets the error and the remaining steps are
    skipped. *)
Lemma initialize_undeclared env d w :
  userIpResponse env = JsonData d ->
  declared env = false ->
  exists w',
    initialize env w = (Normal tt, w') /\
    page w' = page w /\
    views w' = views w /\
    ip (userProfile (self w')) = dataIp d /\
    emittedSince w w' =
      [Console ErrorLevel "Failed to initialize analytics:";
       Sent (HttpGet "/get_user_ip")].
Proof.
  intros H Hd. unfold initialize, tryCatch, fetchUserIp, checkReturningUser, console.
  rewrite H. run_head. rewrite bind_has_undeclared.
  - unfold emit. eexists. split; [reflexivity |].
    cbn [page views self withSelf withOutbox withUserProfile withLocation withIp
         sessionData userProfile ip].
    repeat split. unfold emittedSince. cbn [outbox withOutbox withSelf length].
    replace (S (S (length (outbox w))) - length (outbox w))%nat with 2%nat by lia.
    reflexivity.
  - unfold declared in Hd. destruct (firebaseGlobal env); [reflexivity | discriminate].
Qed.



(** ** The page-view counter *)

Ltac unfold_methods :=
  unfold initialize, fetchUserIp, checkReturningUser, handleAuthChange,
    linkUserWithIP, setupEventListeners, logSearch, logCasinoPreference,
    updatePreferencesInFirebase, getUserInsights, getTopInterests, createPost,
    loadPosts, renderPost, appendChild, onCategoryClick, onFilterClick,
    onSearchSubmit.

(** A frame proof through the methods: the structural rules, [side] for
    the writes, [leaf] for the methods that have a lemma of their own, and
    the definitions of the others. *)
Ltac frame_methods side leaf :=
  repeat first [ frame_step ltac:(idtac; side) | leaf | progress unfold_methods ].

Ltac logEvent_leaf lemma :=
  lazymatch goal with
  | |- Frame _ (logEvent _ _ _) => apply lemma
  end.

Lemma logEvent_keeps_views env event_type d :
  Frame (keeps views) (logEvent env event_type d).
Proof. unfold logEvent. frame_unchanged. Qed.

(** Only [logPageView] writes the counter. *)
Lemma exec_keeps_views env op :
  op <> LogPageView -> op <> Initialize -> Frame (keeps views) (exec env op).
Proof.
  destruct op; intros H1 H2; try congruence; unfold exec;
    frame_methods ltac:(idtac; unchanged)
      ltac:(idtac; logEvent_leaf logEvent_keeps_views).
Qed.

Lemma logPageView_views env w : views (snd (logPageView env w)) = views w + 1.
Proof. unfold views at 1. rewrite logPageView_self. reflexivity. Qed.

Lemma step_views env w op :
  views (step env w op) = views w + logPageViewCalls env op.
Proof.
  unfold step. destruct op;
    try (rewrite (keeps_apply views) by (apply exec_keeps_views; discriminate);
         simpl; lia).
  - simpl. destruct (identityResolved env) eqn:E.
    + unfold identityResolved in E.
      destruct (userIpResponse env) as [| | | d] eqn:R; try discriminate.
      destruct (declared env) eqn:Hd; cbn [andb].
      * destruct (initialize_resolved env d w R Hd) as (w' & -> & _ & Hv & _).
        exact Hv.
      * destruct (initialize_undeclared env d w R Hd) as (w' & -> & _ & Hv & _).
        cbn [snd]. lia.
    + rewrite initialize_unresolved by exact E. simpl. unfold views. simpl. lia.
  - apply logPageView_views.
Qed.

Lemma run_views env ops : forall w,
  views (run env w ops) = views w + total (logPageViewCalls env) ops.
Proof.
  induction ops as [|op ops IH]; intros w; [simpl; lia |].
  rewrite run_cons, IH, step_views. simpl. lia.
Qed.

Lemma pushed_uncounted event_type d t a w w' :
  self w' = pushed event_type d t a -> self w = a ->
  uncounted w' = uncounted w + (if (event_type =? "page_view")%string then 1 else 0).
Proof.
  unfold uncounted, pageViewEvents, views. intros -> ->. cbn.
  rewrite filter_app, length_app. cbn. unfold isPageView. cbn.
  destruct (event_type =? "page_view")%string; cbn; lia.
Qed.

Lemma logEvent_uncounted env event_type d w :
  uncounted (snd (logEvent env event_type d w)) =
  uncounted w + (if (event_type =? "page_view")%string then 1 else 0).
Proof.
  eapply pushed_uncounted; [apply logEvent_self | reflexivity].
Qed.

Lemma logEvent_keeps_uncounted env event_type d :
  (event_type =? "page_view")%string = false ->
  Frame (keeps uncounted) (logEvent env event_type d).
Proof. intros H w. unfold keeps. rewrite logEvent_uncounted, H. lia. Qed.

(** [logPageView] counts the event it logs. *)
Lemma logPageView_keeps_uncounted env : Frame (keeps uncounted) (logPageView env).
Proof.
  intros w. unfold keeps, uncounted, pageViewEvents, views.
  rewrite logPageView_self. cbn.
  rewrite filter_app, length_app. unfold views. cbn. lia.
Qed.

Lemma exec_keeps_uncounted env op :
  directPageViewEvents op = 0 -> Frame (keeps uncounted) (exec env op).
Proof.
  destruct op; intros H; unfold exec;
    frame_methods ltac:(idtac; unchanged)
      ltac:(idtac; lazymatch goal with
            | |- Frame _ (logPageView _) => apply logPageView_keeps_uncounted
            | |- Frame _ (logEvent _ _ _) =>
                apply logEvent_keeps_uncounted; first [reflexivity | idtac]
            end).
  simpl in H.
  destruct (event_type =? "page_view")%string; [discriminate | reflexivity].
Qed.

Lemma step_uncounted env w op :
  uncounted (step env w op) = uncounted w + directPageViewEvents op.
Proof.
  unfold step. destruct op;
    try (rewrite (keeps_apply uncounted)
           by (apply exec_keeps_uncounted; reflexivity);
         simpl; lia).
  apply logEvent_uncounted.
Qed.

Lemma run_uncounted env ops : forall w,
  uncounted (run env w ops) = uncounted w + total directPageViewEvents ops.
Proof.
  induction ops as [|op ops IH]; intros w; [simpl; lia |].
  rewrite run_cons, IH, step_uncounted. simpl. lia.
Qed.

Lemma total_nonneg f ops : (forall op, 0 <= f op) -> 0 <= total f ops.
Proof.
  intros Hf. induction ops as [|op ops IH]; simpl; [lia |].
  specialize (Hf op). lia.
Qed.

Lemma total_in f ops op :
  (forall op, 0 <= f op) -> In op ops -> f op <= total f ops.
Proof.
  intros Hf. induction ops as [|op' ops IH]; simpl; [intros [] |].
  pose proof (total_nonneg f ops Hf). intros [-> | Hin]; [lia |].
  specialize (IH Hin). specialize (Hf op'). lia.
Qed.

Lemma logPageViewCalls_nonneg env op : 0 <= logPageViewCalls env op.
Proof.
  destruct op; simpl; try lia.
  destruct (identityResolved env && declared env); lia.
Qed.

Lemma reportedPageViews_views w : reportedPageViews w = Some (views w).
Proof. reflexivity. Qed.

Lemma created_views env pg t0 : views (created env pg t0) = 0.
Proof. reflexivity. Qed.

Lemma created_uncounted env pg t0 : uncounted (created env pg t0) = 0.
Proof. reflexivity. Qed.

(** C3, as the code has it.  In every state a tracker can reach,
    [getUserInsights().behavior.pageViews] is the number of calls of
    [logPageView] made so far, and the session's [page_view] events are
    those calls plus the events logged directly through [logEvent].
    [initialize] makes its call when identity resolution succeeded and
    the identifier [firebase] is declared (otherwise its [catch] is
    reached before the call): once [initialize] has run on such a page
    the value is at least 1. *)
Theorem pageViews_counts_logPageView env pg t0 ops :
  let w := run env (created env pg t0) ops in
  reportedPageViews w = Some (total (logPageViewCalls env) ops) /\
  pageViewEvents w =
    total (logPageViewCalls env) ops + total directPageViewEvents ops /\
  (identityResolved env = true -> declared env = true -> In Initialize ops ->
   exists n, reportedPageViews w = Some n /\ 1 <= n).
Proof.
  intros w. subst w.
  pose proof (run_views env ops (created env pg t0)) as Hv.
  pose proof (run_uncounted env ops (created env pg t0)) as Hu.
  rewrite created_views in Hv. rewrite created_uncounted in Hu.
  unfold uncounted in Hu. rewrite reportedPageViews_views.
  repeat split.
  - f_equal. lia.
  - lia.
  - intros Hr Hd Hin. eexists. split; [reflexivity |].
    pose proof (total_in (logPageViewCalls env) ops Initialize
                  (logPageViewCalls_nonneg env) Hin) as Hle.
    simpl in Hle. rewrite Hr, Hd in Hle. cbn [andb] in Hle. lia.
Qed.

Lemma pageViews_counts_logPageView_witness :
  identityResolved Sample.online = true /\
  declared Sample.online = true /\
  In Initialize [Initialize] /\
  exists n, reportedPageViews Sample.resolved = Some n /\ 1 <= n.
Proof.
  split; [reflexivity | split; [reflexivity | split; [now left |]]].
  apply (proj2 (proj2 (pageViews_counts_logPageView
                         Sample.online Sample.home 0 [Initialize])));
    [reflexivity | reflexivity | now left].
Defined.

(** C3, as it is worded, fails: when the IP endpoint is unreachable,
    [initialize] completes without a page view and the reported value
    is 0. *)
Lemma pageViews_zero_after_failed_resolution :
  Sample.unresolved = run Sample.offline (created Sample.offline Sample.home 0) [Initialize] /\
  reportedPageViews Sample.unresolved = Some 0 /\
  ~ (exists n, reportedPageViews Sample.unresolved = Some n /\ 1 <= n).
Proof.
  repeat split.
  intros [n [H Hn]]. vm_compute in H. injection H as <-. lia.
Qed.

(** ** Invariants of the reachable states *)

#[local] Instance preserves_preorder (I : World -> Prop) : PreOrder (preserves I).
Proof. split; unfold preserves; [intros w H; exact H | intros w1 w2 w3; tauto]. Qed.

Lemma run_invariant (I : World -> Prop) env :
  (forall op, Frame (preserves I) (exec env op)) ->
  forall ops w, I w -> I (run env w ops).
Proof.
  intros Hop. induction ops as [|op ops IH]; intros w Hw; [exact Hw |].
  rewrite run_cons. apply IH. apply (Hop op w). exact Hw.
Qed.

(** A write that leaves the invariant's fields alone, or that marks the
    visitor as returning. *)
Ltac still_holds I :=
  intros ? ?; unfold preserves, I in *; cbn in *; first [assumption | discriminate].

Lemma exec_preserves_NewVisitorHasNoCount env op :
  Frame (preserves NewVisitorHasNoCount) (exec env op).
Proof.
  destruct op; unfold exec;
    frame_methods ltac:(idtac; still_holds NewVisitorHasNoCount)
      ltac:(idtac; progress unfold logPageView, logEvent).
Qed.

(** ** The insight summary *)

(** [getUserInsights] returns and leaves the world as it found it: no
    field written, nothing emitted. *)
Lemma getUserInsights_pure w :
  exists r, getUserInsights w = (Normal r, w).
Proof. eexists. reflexivity. Qed.

Lemma reportedVisits_eq w :
  reportedVisits w =
  Some (match previousVisits (self w) with
        | Some n => Num (n + 1)
        | None => NaN
        end).
Proof. unfold reportedVisits. cbn. destruct (previousVisits (self w)); reflexivity. Qed.

(** C5, on the code.  In every state a tracker can reach,
    [getUserInsights] is a read-only projection.  Its [profile.visits] is
    the previous visit count plus 1 when that count has been recorded; for
    a first-time visitor [this.previousVisits] was never assigned, and
    [undefined + 1] makes [visits] [NaN] instead of 1.  ([logEvent]
    reads the same field as [this.previousVisits || 0].) *)
Theorem visits_of_first_time_visitor env pg t0 ops :
  let w := run env (created env pg t0) ops in
  snd (getUserInsights w) = w /\
  reportedVisits w =
    Some (match previousVisits (self w) with
          | Some n => Num (n + 1)
          | None => NaN
          end) /\
  (returning (userProfile (self w)) = false -> reportedVisits w = Some NaN).
Proof.
  intros w. split; [reflexivity | split; [apply reportedVisits_eq |]].
  intros Hr. rewrite reportedVisits_eq.
  assert (H : NewVisitorHasNoCount w).
  { apply run_invariant; [apply exec_preserves_NewVisitorHasNoCount |].
    intros _. reflexivity. }
  now rewrite (H Hr).
Qed.

Lemma visits_of_first_time_visitor_witness :
  returning (userProfile (self Sample.resolved)) = false /\
  reportedVisits Sample.resolved = Some NaN.
Proof.
  split; [reflexivity |].
  apply (proj2 (proj2 (visits_of_first_time_visitor
                         Sample.online Sample.home 0 [Initialize]))).
  reflexivity.
Defined.

(** ** A tracker without an identity *)



(** ** Rating and distance preferences *)

















(** ** Loading the posts *)

Lemma appendChild_effect n children w :
  postsContainer (page w) = Some children ->
  appendChild n w =
  (Normal tt, withPage (withPostsContainer (Some (children ++ [n])%list) (page w)) w).
Proof. intros H. unfold appendChild. rewrite bind_document, H. reflexivity. Qed.

Lemma bind_normal {A B} (c : Js A) (k : A -> Js B) w a w' :
  c w = (Normal a, w') -> bind c k w = k a w'.
Proof. intros H. unfold bind. now rewrite H. Qed.

Lemma bind_appendChild {B} n (k : unit -> Js B) children w :
  postsContainer (page w) = Some children ->
  bind (appendChild n) k w =
  k tt (withPage (withPostsContainer (Some (children ++ [n])%list) (page w)) w).
Proof. intros H. now apply bind_normal, appendChild_effect. Qed.

(** The loop of [loadPosts], from position [i] on. *)
Lemma loadPosts_loop env posts : forall i children w,
  postsContainer (page w) = Some children ->
  forEach_ (renderPost env) i posts w =
  (Normal tt,
   withPage
     (withPostsContainer
        (Some (children ++
               if forEachPassesIndex env then interleaved i posts
               else map createPostElement posts)%list)
        (page w)) w).
Proof.
  induction posts as [|p posts IH]; intros i children w H.
  - cbn. destruct (forEachPassesIndex env); rewrite app_nil_r, <- H;
      destruct w as [a [c f s pc ls] t o]; reflexivity.
  - cbn [forEach_ interleaved map]. unfold renderPost at 1. cbv zeta.
    rewrite bind_bind.
    destruct (forEachPassesIndex env) eqn:E.
    + destruct (Nat.ltb 0 i && Nat.eqb (i mod 5) 0).
      * rewrite (bind_appendChild _ _ children) by exact H.
        erewrite bind_appendChild by reflexivity.
        erewrite IH by reflexivity.
        cbn. rewrite <- !app_assoc. reflexivity.
      * rewrite bind_ret.
        rewrite (bind_appendChild _ _ children) by exact H.
        erewrite IH by reflexivity.
        cbn. rewrite <- !app_assoc. reflexivity.
    + rewrite bind_ret.
      rewrite (bind_appendChild _ _ children) by exact H.
      erewrite IH by reflexivity.
      cbn. rewrite <- !app_assoc. reflexivity.
Qed.

(** [loadPosts] up to the answer of its query: the container is emptied
    first, then the query is sent. *)
Lemma loadPosts_query env fb stale w :
  firebase env = Some fb -> firestore fb = Ready ->
  postsContainer (page w) = Some stale ->
  loadPosts env w =
  if remoteOk env (length (outbox w)) then
    let posts := storedPosts env (length (outbox w)) in
    (Normal tt,
     rendered (if forEachPassesIndex env then interleaved 0 posts
               else map createPostElement posts) [] w)
  else
    (Normal tt, rendered [] [Console ErrorLevel "Error loading posts:"] w).
Proof.
  intros Hfb Hfs Hc.
  unfold loadPosts, tryCatch, await, forEach, console.
  firebase_ready Hfb Hfs. run_head. rewrite Hc. run_head.
  rewrite bind_send. cbn [outbox withPage].
  destruct (remoteOk env (length (outbox w))); run_head.
  - erewrite loadPosts_loop by reflexivity. reflexivity.
  - reflexivity.
Qed.

(** Without a container the assignment to [innerHTML] throws, and the
    query is never sent: the container is touched first. *)
Lemma loadPosts_without_container env fb w :
  firebase env = Some fb -> firestore fb = Ready ->
  postsContainer (page w) = None ->
  loadPosts env w =
  (Normal tt,
   withOutbox (Console ErrorLevel "Error loading posts:" :: outbox w) w).
Proof.
  intros Hfb Hfs Hc. unfold loadPosts, tryCatch, console.
  firebase_ready Hfb Hfs. run_head. rewrite Hc. run_head. reflexivity.
Qed.

(** C7, on the code.  [loadPosts] empties the container and then renders
    the posts its query returns.  A promotional block goes in when the
    callback's [index] is positive and a multiple of 5; the store's
    snapshot iterator calls the callback with the document alone, so
    [index] is [undefined] and the rendered list is the posts and nothing
    else.  The layout with a block before positions 5, 10, ... is what an
    iterator that passes the position would give. *)
Theorem loadPosts_renders env fb stale w :
  firebase env = Some fb -> firestore fb = Ready ->
  postsContainer (page w) = Some stale ->
  remoteOk env (length (outbox w)) = true ->
  let posts := storedPosts env (length (outbox w)) in
  loadPosts env w =
  (Normal tt,
   rendered (if forEachPassesIndex env then interleaved 0 posts
             else map createPostElement posts) [] w).
Proof.
  intros Hfb Hfs Hc Hok posts.
  rewrite (loadPosts_query env fb stale w Hfb Hfs Hc), Hok. reflexivity.
Qed.

Lemma loadPosts_renders_witness :
  length (storedPosts Sample.online (length (outbox Sample.start))) = 12%nat /\
  postsContainer (page Sample.start) = Some [PostNode "Anonymous" "stale" None] /\
  postsContainer (page (snd (loadPosts Sample.online Sample.start))) =
    Some (map createPostElement (map Sample.stored (seq 0 12))) /\
  filter isAd (map createPostElement (map Sample.stored (seq 0 12))) = [].
Proof.
  split; [reflexivity | split; [reflexivity | split; [| reflexivity]]].
  rewrite (loadPosts_renders Sample.online Sample.sdk
             [PostNode "Anonymous" "stale" None] Sample.start
             eq_refl eq_refl eq_refl eq_refl).
  reflexivity.
Defined.

(** With an iterator that passes the position, twelve posts are rendered
    with two blocks, one before the post at position 5 and one before the
    post at position 10. *)
Lemma loadPosts_array_like_twelve :
  postsContainer (page (snd (loadPosts Sample.arrayLike Sample.start))) =
  Some [ PostNode "Anonymous" "a" None; PostNode "Anonymous" "b" None;
         PostNode "Anonymous" "c" None; PostNode "Anonymous" "d" None;
         PostNode "Anonymous" "e" None; AdNode;
         PostNode "Anonymous" "f" None; PostNode "Anonymous" "g" None;
         PostNode "Anonymous" "h" None; PostNode "Anonymous" "i" None;
         PostNode "Anonymous" "j" None; AdNode;
         PostNode "Anonymous" "k" None; PostNode "Anonymous" "l" None ].
Proof. reflexivity. Qed.

(** C10.  [loadPosts] empties the container before it sends its query:
    when the query is rejected, the [catch] logs the error and the
    container stays empty; what was rendered before is gone. *)
Theorem loadPosts_not_atomic env fb stale w :
  firebase env = Some fb -> firestore fb = Ready ->
  postsContainer (page w) = Some stale ->
  remoteOk env (length (outbox w)) = false ->
  loadPosts env w =
  (Normal tt, rendered [] [Console ErrorLevel "Error loading posts:"] w) /\
  postsContainer (page (snd (loadPosts env w))) = Some [].
Proof.
  intros Hfb Hfs Hc Hko.
  rewrite (loadPosts_query env fb stale w Hfb Hfs Hc), Hko.
  split; reflexivity.
Qed.

Lemma loadPosts_not_atomic_witness :
  postsContainer (page Sample.start) = Some [PostNode "Anonymous" "stale" None] /\
  postsContainer (page (snd (loadPosts Sample.rejecting Sample.start))) = Some [].
Proof.
  split; [reflexivity |].
  apply (proj2 (loadPosts_not_atomic Sample.rejecting Sample.sdk
                  [PostNode "Anonymous" "stale" None] Sample.start
                  eq_refl eq_refl eq_refl eq_refl)).
Defined.

(** ** Creating a post *)

Lemma exec_preserves_NoUsername env op : Frame (preserves NoUsername) (exec env op).
Proof.
  destruct op; unfold exec;
    frame_methods ltac:(idtac; still_holds NoUsername)
      ltac:(idtac; progress unfold logPageView, logEvent).
Qed.

Lemma exec_preserves_SignedOutHasNoUserId env op :
  Frame (preserves SignedOutHasNoUserId) (exec env op).
Proof.
  destruct op; unfold exec;
    frame_methods
      ltac:(idtac; intros ? ?; unfold preserves, SignedOutHasNoUserId in *;
            cbn in *; first [assumption | discriminate | reflexivity])
      ltac:(idtac; progress unfold logPageView, logEvent).
Qed.

Ltac not_a_post := intros ? E; discriminate E.

Ltac emits_no_post :=
  intros; unfold emits; cbn [outbox withOutbox withSelf withPage withNow];
  first [ exists []; split; [reflexivity | constructor]
        | eexists [_]; split;
          [reflexivity | constructor; [not_a_post | constructor]] ].

Lemma loadPosts_emits_no_post a env : Frame (emits (PostAs a)) (loadPosts env).
Proof. frame_methods ltac:(idtac; emits_no_post) fail. Qed.

Lemma emits_trans P w1 w2 w3 : emits P w1 w2 -> emits P w2 w3 -> emits P w1 w3.
Proof. apply (@PreOrder_Transitive _ _ (emits_preorder P)). Qed.

Ltac signed_post := intros ? E; injection E as <-; split; reflexivity.

(** Closes [emits (PostAs a) w w'] when [w'] is [w] with a few explicit
    emissions. *)
Ltac emits_signed :=
  unfold emits, emit; cbn [snd outbox withOutbox];
  let close :=
    split;
    [ reflexivity
    | repeat first
        [ apply Forall_nil
        | apply Forall_cons; [first [not_a_post | signed_post] |] ] ] in
  first [ exists []; close | eexists [_]; close | eexists [_; _]; close
        | eexists [_; _; _]; close | eexists [_; _; _; _]; close ].

(** Every post document [createPost] sends is signed from the instance
    as it is when the method is called. *)
Lemma createPost_signs env text video w :
  emits (PostAs (self w)) w (snd (createPost env text video w)).
Proof.
  unfold createPost, console, fireAndForget.
  destruct (firebaseGlobal env) as [| v] eqn:Hg.
  { rewrite bind_has_undeclared by exact Hg. now exists []. }
  rewrite (bind_has_declared env v) by exact Hg. cbv beta.
  rewrite (bind_has_declared env v) by exact Hg. cbv beta.
  destruct v as [fb |]; [destruct (firestore fb) eqn:Hf, (storage fb) eqn:Hs |];
    cbn [negb orb]; try emits_signed.
  all: unfold tryCatch, await;
    repeat (rewrite (bind_call_declared env _) by exact Hg;
            cbv beta iota; rewrite ?Hf, ?Hs).
  all: destruct video;
    repeat (run_head; rewrite ?bind_send; cbn [outbox withOutbox];
      try match goal with
          | |- context [remoteOk ?e ?n] => destruct (remoteOk e n)
          end).
  all: cbn [snd fst];
    first [ emits_signed
          | eapply emits_trans; [| apply loadPosts_emits_no_post]; emits_signed ].
Qed.

Lemma emittedSince_emits P w w' :
  emits P w w' -> Forall P (emittedSince w w').
Proof.
  intros (new & E & H). unfold emittedSince. rewrite E, length_app.
  replace (length new + length (outbox w) - length (outbox w))%nat
    with (length new + 0)%nat by lia.
  rewrite firstn_app_2. cbn. now rewrite app_nil_r.
Qed.

Lemma stringOr_fallback s fallback :
  fallback <> "" ->
  stringOr s fallback = fallback <->
  s = None \/ s = Some "" \/ s = Some fallback.
Proof.
  intros Hf. unfold stringOr. destruct s as [x |].
  - destruct (x =? "")%string eqn:E.
    + apply String.eqb_eq in E. subst x. split; auto.
    + apply String.eqb_neq in E. split.
      * intros ->. auto.
      * intros [H | [H | H]]; congruence.
  - split; auto.
Qed.

(** C9, as the code has it.  In every state a tracker can reach, a post
    document written by [createPost] has the username "Anonymous",
    whatever the authentication state, and as user id [this.userId] when
    that is a non-empty string and "anonymous" otherwise.  So the user id
    is "anonymous" whenever nobody is signed in; it is "anonymous" as
    well for a signed-in user whose uid is empty or is that very
    string. *)
Theorem createPost_signature env pg t0 ops text video fields :
  let w := run env (created env pg t0) ops in
  let w' := snd (createPost env text video w) in
  In (Sent (CollectionAdd ["posts"] fields)) (emittedSince w w') ->
  lookup "username" fields = Some (Plain (VString "Anonymous")) /\
  lookup "userId" fields =
    Some (Plain (VString (stringOr (userId (self w)) "anonymous"))) /\
  (isAuthenticated (self w) = false ->
   lookup "userId" fields = Some (Plain (VString "anonymous"))) /\
  (lookup "userId" fields = Some (Plain (VString "anonymous")) <->
   userId (self w) = None \/ userId (self w) = Some "" \/
   userId (self w) = Some "anonymous").
Proof.
  intros w w' Hin.
  pose proof (emittedSince_emits _ _ _ (createPost_signs env text video w)) as H.
  rewrite Forall_forall in H. destruct (H _ Hin fields eq_refl) as [Hid Hname].
  assert (Hu : NoUsername w).
  { apply run_invariant; [apply exec_preserves_NoUsername | reflexivity]. }
  assert (Ha : SignedOutHasNoUserId w).
  { apply run_invariant; [apply exec_preserves_SignedOutHasNoUserId |].
    intros _. reflexivity. }
  unfold NoUsername in Hu. rewrite Hu in Hname.
  split; [exact Hname | split; [exact Hid | split]].
  - intros Hout. rewrite Hid, (Ha Hout). reflexivity.
  - rewrite Hid. rewrite <- (stringOr_fallback (userId (self w)) "anonymous")
      by discriminate.
    split; [intros E; now injection E | intros ->; reflexivity].
Qed.

Lemma createPost_signature_witness :
  isAuthenticated (self Sample.resolved) = false /\
  lookup "userId" Sample.helloPost = Some (Plain (VString "anonymous")) /\
  lookup "username" Sample.helloPost = Some (Plain (VString "Anonymous")).
Proof.
  assert (Hin : let w := run Sample.online (created Sample.online Sample.home 0)
                             [Initialize] in
                In (Sent (CollectionAdd ["posts"] Sample.helloPost))
                  (emittedSince w (snd (createPost Sample.online "hello" None w)))).
  { vm_compute. right. right. left. reflexivity. }
  destruct (createPost_signature Sample.online Sample.home 0 [Initialize]
              "hello" None Sample.helloPost Hin) as (Hname & _ & Hout & _).
  split; [reflexivity | split; [apply Hout; reflexivity | exact Hname]].
Defined.

(** C9, as it is worded, fails: a user whose uid is the string
    "anonymous" is signed in, and the post document still carries the
    user id "anonymous". *)
Lemma createPost_anonymous_while_signed_in :
  isAuthenticated (self Sample.signedIn) = true /\
  userId (self Sample.signedIn) = Some "anonymous" /\
  In (Sent (CollectionAdd ["posts"] Sample.helloPost))
    (emittedSince Sample.signedIn
       (snd (createPost Sample.online "hello" None Sample.signedIn))).
Proof. vm_compute. repeat split. right. right. left. reflexivity. Qed.

(** * Further properties of the tracker *)

(** ** Errors stay inside the methods *)

Ltac returns_methods :=
  repeat first
    [ returns_step
    | lazymatch goal with
      | |- Returns (logEvent _ _ _) => apply logEvent_returns; assumption
      end
    | progress unfold_methods
    | progress unfold logPageView ].

Lemma bind_abrupt {A B} (c : Js A) (k : A -> Js B) w e w' :
  c w = (Abrupt e, w') -> bind c k w = (Abrupt e, w').
Proof. intros H. unfold bind. now rewrite H. Qed.

(** Where [firebase] is not declared, [logEvent] pushes its interaction,
    writes its console line and throws at the guard of the store
    writes. *)
Lemma logEvent_undeclared env event_type d w :
  firebaseGlobal env = Undeclared ->
  logEvent env event_type d w =
  (Abrupt ReferenceError,
   withOutbox (Console LogLevel ("Analytics event: " ++ event_type) :: outbox w)
     (withSelf (pushed event_type d (now w) (self w)) w)).
Proof.
  intros H. unfold logEvent, console. run_head.
  rewrite bind_has_undeclared by exact H. reflexivity.
Qed.

(** X1.  On a page where the identifier [firebase] is declared, whatever
    its value and whatever the outside answers (a rejected request, a
    store client that is absent or throws, a page without its elements),
    no method of the tracker and no handler it registers lets an
    exception escape: every operation returns.  On a page where
    [firebase] is not declared, the methods that read it outside a [try]
    throw a [ReferenceError] when they are called (the promise of an
    [async] one is rejected with it); [initialize], which catches it,
    the methods that do not read it, and the dispatch of an event to the
    registered handlers still return. *)
Theorem exec_returns env op w :
  if declared env || negb (readsFirebase op)
  then exists w', exec env op w = (Normal tt, w')
  else fst (exec env op w) = Abrupt ReferenceError.
Proof.
  destruct (declared env) eqn:Hd; cbn [orb].
  - assert (H : Returns (exec env op)).
    { destruct op; unfold exec; returns_methods. }
    exists (snd (exec env op w)). now apply returns_unit.
  - assert (Hu : firebaseGlobal env = Undeclared).
    { unfold declared in Hd. destruct (firebaseGlobal env); [reflexivity | discriminate]. }
    destruct (readsFirebase op) eqn:Hr; cbn [negb].
    + destruct op; try discriminate Hr; unfold exec;
        unfold checkReturningUser, handleAuthChange, linkUserWithIP, logPageView,
          logSearch, logCasinoPreference, updatePreferencesInFirebase, createPost,
          loadPosts;
        try (destruct event);
        repeat first
          [ rewrite bind_has_undeclared by exact Hu
          | rewrite (bind_abrupt (logEvent _ _ _) _ _ _ _
                       (logEvent_undeclared _ _ _ _ Hu))
          | rewrite (logEvent_undeclared _ _ _ _ Hu)
          | progress run_head
          | match goal with
            | |- context [if ?b then _ else _] => destruct b
            end ];
        reflexivity.
    + assert (H : Returns (exec env op)).
      { destruct op; try discriminate Hr; unfold exec; returns_methods. }
      exists (snd (exec env op w)). now apply returns_unit.
Qed.

(** ** Device classification *)

Lemma testIgnoreCase_iff t s :
  testIgnoreCase t s = true <-> ContainsIgnoreCase t s.
Proof.
  unfold testIgnoreCase, ContainsIgnoreCase.
  rewrite <- indexOf_found, Z.leb_le. lia.
Qed.

Lemma existsb_testIgnoreCase tokens s :
  existsb (fun t => testIgnoreCase t s) tokens = true <->
  exists t, In t tokens /\ ContainsIgnoreCase t s.
Proof.
  rewrite existsb_exists. split; intros [t [Hin H]]; exists t; split; auto;
    now apply testIgnoreCase_iff.
Qed.

(** X2.  [getDeviceInfo] answers "mobile" as soon as one of the mobile
    tokens occurs in the user agent, in any letter case; "tablet" only
    when none does and "Tablet" or "PlayBook" occurs; "desktop"
    otherwise.  The tablet pattern's "iPad" is never reached: a user
    agent with "iPad" is "mobile". *)
Theorem getDeviceInfo_classes env :
  let occurs t := ContainsIgnoreCase t (userAgent env) in
  ((exists t, In t mobileTokens /\ occurs t) -> getDeviceInfo env = "mobile") /\
  (getDeviceInfo env = "tablet" <->
   ~ (exists t, In t mobileTokens /\ occurs t) /\
   (occurs "Tablet" \/ occurs "PlayBook")) /\
  (getDeviceInfo env = "desktop" <->
   ~ (exists t, In t mobileTokens /\ occurs t) /\
   ~ occurs "Tablet" /\ ~ occurs "PlayBook") /\
  (occurs "iPad" -> getDeviceInfo env = "mobile").
Proof.
  intros occurs. unfold getDeviceInfo. fold mobileTokens.
  change ["iPad"; "Tablet"; "PlayBook"] with tabletTokens.
  assert (Hm : existsb (fun t => testIgnoreCase t (userAgent env)) mobileTokens
               = true <-> exists t, In t mobileTokens /\ occurs t)
    by apply existsb_testIgnoreCase.
  assert (Ht : existsb (fun t => testIgnoreCase t (userAgent env)) tabletTokens
               = true <-> exists t, In t tabletTokens /\ occurs t)
    by apply existsb_testIgnoreCase.
  assert (HiPad : occurs "iPad" -> exists t, In t mobileTokens /\ occurs t).
  { intros H. exists "iPad". split; [| exact H]. cbn. tauto. }
  assert (Htab : (exists t, In t tabletTokens /\ occurs t) <->
                 occurs "iPad" \/ occurs "Tablet" \/ occurs "PlayBook").
  { split.
    - intros [t [[<- | [<- | [<- | []]]] H]]; tauto.
    - intros [H | [H | H]]; eexists; (split; [| exact H]); cbn; tauto. }
  destruct (existsb _ mobileTokens) eqn:Em.
  - assert (M : exists t, In t mobileTokens /\ occurs t) by now apply Hm.
    repeat split; try reflexivity; try discriminate; tauto.
  - assert (M : ~ exists t, In t mobileTokens /\ occurs t)
      by (rewrite <- Hm; discriminate).
    destruct (existsb _ tabletTokens) eqn:Et.
    + assert (T : exists t, In t tabletTokens /\ occurs t) by now apply Ht.
      rewrite Htab in T.
      repeat split; try reflexivity; try discriminate; try tauto.
    + assert (T : ~ exists t, In t tabletTokens /\ occurs t)
        by (rewrite <- Ht; discriminate).
      rewrite Htab in T.
      repeat split; try reflexivity; try discriminate; try tauto.
Qed.

Lemma getDeviceInfo_classes_witness :
  ContainsIgnoreCase "iPad" (userAgent More.onIPad) /\
  getDeviceInfo More.onIPad = "mobile".
Proof.
  assert (H : ContainsIgnoreCase "iPad" (userAgent More.onIPad)).
  { exists "mozilla/5.0 (", "; cpu os 16_6 like mac os x) applewebkit/605.1.15".
    reflexivity. }
  split; [exact H |].
  exact (proj2 (proj2 (proj2 (getDeviceInfo_classes More.onIPad))) H).
Defined.

(** ** Counting labels *)

Lemma own_app_absent o k x k' :
  JsObject.own (o ++ [(k, x)])%list k' =
  match JsObject.own o k' with
  | Some y => Some y
  | None => if (k =? k')%string then Some x else None
  end.
Proof.
  induction o as [|[k0 y] o IH]; cbn; [reflexivity |].
  destruct (k0 =? k')%string; [reflexivity | exact IH].
Qed.

Lemma own_replace o k x k' :
  JsObject.own (JsObject.replace o k x) k' =
  if (k =? k')%string
  then match JsObject.own o k with Some _ => Some x | None => None end
  else JsObject.own o k'.
Proof.
  induction o as [|[k0 y] o IH]; cbn.
  - now destruct (k =? k')%string.
  - destruct (k0 =? k)%string eqn:E0; cbn.
    + apply String.eqb_eq in E0. subst k0.
      destruct (k =? k')%string; reflexivity.
    + destruct (k0 =? k')%string eqn:E1.
      * destruct (k =? k')%string eqn:E2; [| reflexivity].
        apply String.eqb_eq in E1, E2. subst. now rewrite String.eqb_refl in E0.
      * exact IH.
Qed.

(** Reading back after [o[k] = x]. *)
Lemma own_set o k x k' :
  JsObject.own (JsObject.set o k x) k' =
  if (k =? "__proto__")%string then JsObject.own o k'
  else if (k =? k')%string then Some x else JsObject.own o k'.
Proof.
  unfold JsObject.set. destruct (k =? "__proto__")%string; [reflexivity |].
  destruct (JsObject.own o k) as [y |] eqn:E.
  - rewrite own_replace, E. reflexivity.
  - rewrite own_app_absent. destruct (k =? k')%string eqn:Ek.
    + apply String.eqb_eq in Ek. subst k'. now rewrite E.
    + now destruct (JsObject.own o k').
Qed.

Lemma bump_other o k k' : k <> k' -> JsObject.own (bump o k) k' = JsObject.own o k'.
Proof.
  intros Hne. apply String.eqb_neq in Hne.
  unfold bump, JsObject.postIncrement.
  destruct (truthy (JsObject.get o k)); rewrite !own_set, ?Hne;
    destruct (k =? "__proto__")%string; reflexivity.
Qed.

Lemma inherited_proto k : JsObject.inherited k = false -> (k =? "__proto__")%string = false.
Proof.
  intros H. destruct (k =? "__proto__")%string eqn:E; [| reflexivity].
  apply String.eqb_eq in E. subst k. discriminate H.
Qed.

(** Bumping an ordinary label adds one to its count, starting from 1. *)
Lemma bump_same o k :
  JsObject.inherited k = false ->
  JsObject.own (bump o k) k =
  Some (Num (match JsObject.count o k with Some n => n + 1 | None => 1 end)).
Proof.
  intros Hk. pose proof (inherited_proto k Hk) as Hp.
  unfold bump, JsObject.postIncrement.
  rewrite own_set, Hp, String.eqb_refl. f_equal.
  destruct (truthy (JsObject.get o k)) eqn:T.
  - unfold JsObject.get, JsObject.count in *.
    destruct (JsObject.own o k) as [[n |] |]; cbn in *;
      [reflexivity | discriminate |].
    rewrite Hk in T. discriminate.
  - unfold JsObject.get at 1. rewrite own_set, Hp, String.eqb_refl. cbn.
    unfold JsObject.get, JsObject.count in *.
    destruct (JsObject.own o k) as [[n |] |]; cbn in *; try reflexivity.
    destruct (n =? 0) eqn:En; [| discriminate].
    apply Z.eqb_eq in En. now subst n.
Qed.

Lemma count_bump_same o k :
  JsObject.inherited k = false ->
  JsObject.count (bump o k) k =
  Some (match JsObject.count o k with Some n => n + 1 | None => 1 end).
Proof. intros Hk. unfold JsObject.count at 1. now rewrite bump_same. Qed.

Lemma count_bump_other o k k' :
  k <> k' -> JsObject.count (bump o k) k' = JsObject.count o k'.
Proof. intros Hne. unfold JsObject.count. now rewrite bump_other. Qed.

Lemma recordCategories_viewed env vs : forall w k,
  JsObject.inherited k = false ->
  JsObject.count (viewed (prefs (run env w (recordCategories vs)))) k =
  match JsObject.count (viewed (prefs w)) k with
  | Some c => Some (c + occurrences k vs)
  | None => if occurrences k vs =? 0 then None else Some (occurrences k vs)
  end.
Proof.
  unfold occurrences.
  induction vs as [|v vs IH]; intros w k Hk.
  - change (run env w (recordCategories [])) with w. cbn [map count_occ].
    change (Z.of_nat 0) with 0. cbn [Z.eqb].
    destruct (JsObject.count (viewed (prefs w)) k); [f_equal; lia | reflexivity].
  - unfold recordCategories. cbn [map]. rewrite run_cons.
    fold (recordCategories vs). rewrite (IH _ k Hk).
    rewrite logCasinoPreference_category. cbv zeta. cbn [viewed withTypePreference withViewed].
    cbn [count_occ]. destruct (string_dec (toText v) k) as [-> | Hne].
    + rewrite count_bump_same by exact Hk.
      set (n := count_occ string_dec (map toText vs) k).
      destruct (JsObject.count (viewed (prefs w)) k); [f_equal; lia |].
      destruct (Z.of_nat (S n) =? 0) eqn:E; [apply Z.eqb_eq in E; lia |].
      f_equal. lia.
    + rewrite count_bump_other by exact Hne. reflexivity.
Qed.

Lemma recordCategories_keeps_others env vs : forall w,
  clicked (prefs (run env w (recordCategories vs))) = clicked (prefs w) /\
  amenitiesSelected (prefs (run env w (recordCategories vs))) =
    amenitiesSelected (prefs w).
Proof.
  induction vs as [|v vs IH]; intros w; [now split |].
  unfold recordCategories. cbn [map]. rewrite run_cons.
  fold (recordCategories vs). destruct (IH (step env w (LogCasinoPreference "category" v)))
    as [-> ->].
  rewrite logCasinoPreference_category. now split.
Qed.

(** X3.  The [viewed] map counts: after any sequence of category calls,
    from any state, the count of a label that does not name a member of
    [Object.prototype] is its previous count plus the number of calls
    that recorded it (a [null] value being recorded as "null"), and the
    label is absent only if it was absent and never recorded.  The
    [clicked] and [amenitiesSelected] maps are left alone. *)
Theorem category_counts env w vs k :
  JsObject.inherited k = false ->
  let w' := run env w (recordCategories vs) in
  JsObject.count (viewed (prefs w')) k =
    match JsObject.count (viewed (prefs w)) k with
    | Some c => Some (c + occurrences k vs)
    | None => if occurrences k vs =? 0 then None else Some (occurrences k vs)
    end /\
  clicked (prefs w') = clicked (prefs w) /\
  amenitiesSelected (prefs w') = amenitiesSelected (prefs w).
Proof.
  intros Hk w'. split.
  - now apply recordCategories_viewed.
  - apply recordCategories_keeps_others.
Qed.

Lemma category_counts_witness :
  JsObject.inherited "resort" = false /\
  JsObject.count
    (viewed (prefs (run Sample.online Sample.start (recordCategories More.mixedLabels))))
    "resort" = Some 2.
Proof.
  split; [reflexivity |].
  exact (proj1 (category_counts Sample.online Sample.start More.mixedLabels
                  "resort" eq_refl)).
Defined.

Lemma bump_proto o : bump o "__proto__" = o.
Proof.
  unfold bump, JsObject.postIncrement, JsObject.set. cbn.
  now destruct (truthy (JsObject.get o "__proto__")).
Qed.

Lemma bump_inherited o k :
  JsObject.inherited k = true -> k <> "__proto__" ->
  JsObject.own (bump o k) k = bumpedInherited (JsObject.own o k).
Proof.
  intros Hk Hp. apply String.eqb_neq in Hp.
  unfold bump, JsObject.postIncrement.
  rewrite own_set, Hp, String.eqb_refl.
  destruct (truthy (JsObject.get o k)) eqn:T.
  - unfold JsObject.get in *.
    destruct (JsObject.own o k) as [[n |] |]; cbn in *;
      [reflexivity | discriminate |].
    rewrite Hk. reflexivity.
  - unfold JsObject.get at 1. rewrite own_set, Hp, String.eqb_refl. cbn.
    unfold JsObject.get in *.
    destruct (JsObject.own o k) as [[n |] |]; cbn in *.
    + destruct (n =? 0) eqn:En; [| discriminate].
      apply Z.eqb_eq in En. now subst n.
    + reflexivity.
    + rewrite Hk in T. discriminate.
Qed.

Lemma recordCategories_inherited env k vs : forall w,
  JsObject.inherited k = true -> k <> "__proto__" ->
  JsObject.own (viewed (prefs (run env w (recordCategories vs)))) k =
  Nat.iter (count_occ string_dec (map toText vs) k) bumpedInherited
    (JsObject.own (viewed (prefs w)) k).
Proof.
  induction vs as [|v vs IH]; intros w Hk Hp; [reflexivity |].
  unfold recordCategories. cbn [map]. rewrite run_cons.
  fold (recordCategories vs). rewrite (IH _ Hk Hp).
  rewrite logCasinoPreference_category. cbv zeta.
  cbn [viewed withTypePreference withViewed count_occ].
  destruct (string_dec (toText v) k) as [-> | Hne].
  - rewrite bump_inherited by assumption. now rewrite Nat.iter_succ_r.
  - now rewrite bump_other.
Qed.

Lemma iter_bumpedInherited n :
  Nat.iter n bumpedInherited None =
  match n with
  | O => None
  | S O => Some NaN
  | S (S m) => Some (Num (Z.of_nat (S m)))
  end.
Proof.
  induction n as [|n IH]; [reflexivity |].
  rewrite Nat.iter_succ, IH.
  destruct n as [|[|m]]; cbn [bumpedInherited]; try reflexivity.
  do 2 f_equal. lia.
Qed.

(** X4.  A label that names a member of [Object.prototype] is counted
    differently.  When it was never recorded before, its first call
    stores [NaN], and after [n >= 2] calls its count is [n - 1]: one
    less than the number of calls.  The label "__proto__" is never
    stored at all. *)
Theorem inherited_label_counts env w vs k :
  JsObject.inherited k = true ->
  JsObject.own (viewed (prefs w)) k = None ->
  let w' := run env w (recordCategories vs) in
  (k <> "__proto__" ->
   JsObject.own (viewed (prefs w')) k =
   match count_occ string_dec (map toText vs) k with
   | O => None
   | S O => Some NaN
   | S (S m) => Some (Num (Z.of_nat (S m)))
   end) /\
  (k = "__proto__" -> JsObject.own (viewed (prefs w')) k = None).
Proof.
  intros Hk Hown w'. split.
  - intros Hp. subst w'. rewrite recordCategories_inherited by assumption.
    rewrite Hown. apply iter_bumpedInherited.
  - intros ->. subst w'. revert w Hown.
    induction vs as [|v vs IH]; intros w Hown; [exact Hown |].
    unfold recordCategories. cbn [map]. rewrite run_cons.
    fold (recordCategories vs). apply IH.
    rewrite logCasinoPreference_category. cbv zeta.
    cbn [viewed withTypePreference withViewed].
    destruct (string_dec (toText v) "__proto__") as [-> | Hne].
    + now rewrite bump_proto.
    + now rewrite bump_other.
Qed.

Lemma inherited_label_counts_witness :
  JsObject.inherited "constructor" = true /\
  JsObject.own
    (viewed (prefs (run Sample.online Sample.start (recordCategories More.mixedLabels))))
    "constructor" = Some (Num 2).
Proof.
  split; [reflexivity |].
  exact (proj1 (inherited_label_counts Sample.online Sample.start
                  More.mixedLabels "constructor" eq_refl eq_refl)
           ltac:(discriminate)).
Defined.

(** ** The scan visits every key once *)

Lemma insertIndex_perm n k l :
  Permutation (JsObject.insertIndex n k l) ((n, k) :: l).
Proof.
  induction l as [|[m k'] l IH]; cbn; [reflexivity |].
  destruct (n <? m)%N; [reflexivity |].
  rewrite IH. apply perm_swap.
Qed.

(** The enumeration order is a rearrangement of the creation order:
    nothing is skipped, nothing is visited twice. *)
Lemma ownPropertyKeys_perm o :
  Permutation (JsObject.ownPropertyKeys o) (JsObject.insertionOrder o).
Proof.
  unfold JsObject.ownPropertyKeys, JsObject.insertionOrder.
  induction o as [|[k x] o IH]; cbn; [reflexivity |].
  destruct (JsObject.arrayIndex k) as [n |].
  - rewrite (Permutation_map snd (insertIndex_perm n k (JsObject.indexKeys o))).
    cbn. now rewrite IH.
  - rewrite <- Permutation_middle. now rewrite IH.
Qed.

Lemma own_in o k x : JsObject.own o k = Some x -> In k (JsObject.insertionOrder o).
Proof.
  unfold JsObject.insertionOrder.
  induction o as [|[k0 y] o IH]; cbn; [discriminate |].
  destruct (k0 =? k)%string eqn:E; [apply String.eqb_eq in E; now left |].
  intros H. right. now apply IH.
Qed.

Lemma count_in o k c : JsObject.count o k = Some c -> In k (JsObject.ownPropertyKeys o).
Proof.
  unfold JsObject.count. destruct (JsObject.own o k) as [x |] eqn:E; [| discriminate].
  intros _. apply (Permutation_in k (Permutation_sym (ownPropertyKeys_perm o))).
  eapply own_in, E.
Qed.

(** X5.  [getMostFrequent] looks at every own key of the object exactly
    once, and what it returns holds a largest count: a positive count
    that no key of the object exceeds.  It returns [null] exactly when no
    key holds a positive count. *)
Theorem getMostFrequent_maximum o :
  Permutation (JsObject.ownPropertyKeys o) (JsObject.insertionOrder o) /\
  match getMostFrequent o with
  | Some k =>
      exists c, JsObject.count o k = Some c /\ 0 < c /\
                forall k' c', JsObject.count o k' = Some c' -> c' <= c
  | None => forall k' c', JsObject.count o k' = Some c' -> c' <= 0
  end.
Proof.
  split; [apply ownPropertyKeys_perm |].
  rewrite getMostFrequent_scan.
  pose proof (firstMaximum_spec o (JsObject.ownPropertyKeys o)) as H.
  destruct (firstMaximum (JsObject.ownPropertyKeys o) o) as [k |].
  - destruct H as (before & after & c & Hk & Hc & Hpos & Hb & Ha).
    exists c. repeat split; auto.
    intros k' c' Hc'. pose proof (count_in o k' c' Hc') as Hin.
    rewrite Hk in Hin. apply in_app_or in Hin as [Hin | [<- | Hin]].
    + specialize (Hb k' c' Hin Hc'). lia.
    + rewrite Hc in Hc'. injection Hc' as <-. lia.
    + exact (Ha k' c' Hin Hc').
  - intros k' c' Hc'. apply (H k' c'); [| exact Hc']. eapply count_in, Hc'.
Qed.

(** ** Sorting the interests *)

Lemma insertBy_perm {A} (after : A -> A -> bool) x l :
  Permutation (insertBy after x l) (x :: l).
Proof.
  induction l as [|y l IH]; cbn; [reflexivity |].
  destruct (after x y); [| reflexivity].
  rewrite IH. apply perm_swap.
Qed.

(** Sorting loses and invents nothing. *)
Lemma sortBy_perm {A} (after : A -> A -> bool) l :
  Permutation (sortBy after l) l.
Proof.
  unfold sortBy. induction l as [|x l IH]; cbn; [reflexivity |].
  rewrite insertBy_perm. now constructor.
Qed.

Lemma notFewer_trans a b c :
  isCount a -> isCount b -> isCount c ->
  notFewer a b -> notFewer b c -> notFewer a c.
Proof.
  unfold notFewer, fewerThan, isCount.
  intros [x Hx] [y Hy] [z Hz]. rewrite Hx, Hy, Hz, !Z.ltb_ge. lia.
Qed.

Lemma insertBy_sorted x l :
  Forall isCount (x :: l) ->
  StronglySorted notFewer l ->
  StronglySorted notFewer (insertBy fewerThan x l).
Proof.
  intros Hc Hs. induction Hs as [|y l Hs IH Hy]; cbn.
  - repeat constructor.
  - inversion Hc as [|? ? Hx Hyl]; subst. inversion Hyl as [|? ? Hcy Hl]; subst.
    destruct (fewerThan x y) eqn:E.
    + constructor; [apply IH; now constructor |].
      apply (Permutation_Forall (Permutation_sym (insertBy_perm fewerThan x l))).
      constructor; [| exact Hy].
      unfold notFewer, fewerThan in *. destruct Hx as [a Ha], Hcy as [b Hb].
      rewrite Ha, Hb in *. apply Z.ltb_lt in E. apply Z.ltb_ge. lia.
    + constructor; [now constructor |].
      constructor; [exact E |].
      rewrite Forall_forall in *. intros z Hz.
      apply (notFewer_trans x y z); auto.
Qed.

(** When every entry holds a number, the sort puts no entry after one it
    outranks. *)
Lemma sortBy_sorted l :
  Forall isCount l -> StronglySorted notFewer (sortBy fewerThan l).
Proof.
  unfold sortBy. induction l as [|x l IH]; intros Hc; cbn; [constructor |].
  inversion Hc; subst. apply insertBy_sorted; [| now apply IH].
  constructor; [assumption |].
  now apply (Permutation_Forall (Permutation_sym (sortBy_perm fewerThan l))).
Qed.

Lemma StronglySorted_app_inv {A} (R : A -> A -> Prop) l1 l2 :
  StronglySorted R (l1 ++ l2) ->
  StronglySorted R l1 /\ forall a b, In a l1 -> In b l2 -> R a b.
Proof.
  induction l1 as [|x l1 IH]; cbn; intros H.
  - split; [constructor | intros a b []].
  - inversion H as [|? ? Hs Hx]; subst. destruct (IH Hs) as [Hs1 Hr].
    rewrite Forall_forall in Hx. split.
    + constructor; [exact Hs1 |]. rewrite Forall_forall.
      intros z Hz. apply Hx, in_or_app. now left.
    + intros a b [<- | Ha] Hb; [apply Hx, in_or_app; now right | now apply Hr].
Qed.

(** ** The top interests *)

Lemma in_own o k :
  In k (JsObject.insertionOrder o) -> exists x, JsObject.own o k = Some x.
Proof.
  unfold JsObject.insertionOrder.
  induction o as [|[k0 y] o IH]; cbn; [intros [] |].
  destruct (k0 =? k)%string eqn:E; [now exists y |].
  intros [-> | H]; [now rewrite String.eqb_refl in E | now apply IH].
Qed.

Lemma ownPropertyKeys_own o k :
  In k (JsObject.ownPropertyKeys o) <-> exists x, JsObject.own o k = Some x.
Proof.
  split.
  - intros H. apply in_own. now apply (Permutation_in k (ownPropertyKeys_perm o)).
  - intros [x H].
    apply (Permutation_in k (Permutation_sym (ownPropertyKeys_perm o))).
    eapply own_in, H.
Qed.

(** Reading back after a run of assignments [acc[k] = f(k)]. *)
Lemma own_fold_set (f : string -> JsNumber) keys : forall acc k',
  JsObject.own (fold_left (fun acc k => JsObject.set acc k (f k)) keys acc) k' =
  if existsb (String.eqb k') keys && negb (k' =? "__proto__")%string
  then Some (f k')
  else JsObject.own acc k'.
Proof.
  induction keys as [|k keys IH]; intros acc k'; cbn [fold_left existsb].
  - reflexivity.
  - rewrite IH, own_set, (String.eqb_sym k k').
    destruct (String.eqb_spec k' k) as [-> | Hne]; cbn [orb].
    + destruct (existsb (String.eqb k) keys), (k =? "__proto__")%string;
        reflexivity.
    + destruct (existsb (String.eqb k') keys), (k' =? "__proto__")%string,
        (k =? "__proto__")%string; reflexivity.
Qed.

(** The copy holds what the original holds, key by key. *)
Lemma copied_own o k :
  JsObject.own o "__proto__" = None ->
  JsObject.own (copied o) k = JsObject.own o k.
Proof.
  intros Hp. unfold copied. rewrite own_fold_set. cbn [JsObject.own JsObject.empty].
  destruct (existsb (String.eqb k) (JsObject.ownPropertyKeys o)) eqn:Ex.
  - apply existsb_exists in Ex as [k0 [Hin E]]. apply String.eqb_eq in E. subst k0.
    apply ownPropertyKeys_own in Hin as [x Hx].
    destruct (k =? "__proto__")%string eqn:Ek.
    + apply String.eqb_eq in Ek. congruence.
    + cbn. unfold JsObject.get. now rewrite Hx.
  - cbn. destruct (JsObject.own o k) as [x |] eqn:Hx; [| reflexivity].
    assert (Hin : In k (JsObject.ownPropertyKeys o))
      by (apply ownPropertyKeys_own; now exists x).
    assert (existsb (String.eqb k) (JsObject.ownPropertyKeys o) = true)
      by (apply existsb_exists; exists k; split; [exact Hin | apply String.eqb_refl]).
    congruence.
Qed.

(** An entry of an object is a key with the value stored under it. *)
Lemma entries_own o k x :
  In (k, x) (JsObject.entries o) <-> JsObject.own o k = Some x.
Proof.
  unfold JsObject.entries. rewrite in_map_iff. split.
  - intros [k0 [E Hin]]. injection E as -> <-.
    apply ownPropertyKeys_own in Hin as [y Hy].
    unfold JsObject.get. now rewrite Hy.
  - intros H. exists k. split.
    + unfold JsObject.get. now rewrite H.
    + apply ownPropertyKeys_own. now exists x.
Qed.

Lemma entries_keys o : map fst (JsObject.entries o) = JsObject.ownPropertyKeys o.
Proof. unfold JsObject.entries. rewrite map_map. cbn. apply map_id. Qed.

Lemma set_keys_NoDup o k x :
  NoDup (JsObject.insertionOrder o) -> NoDup (JsObject.insertionOrder (JsObject.set o k x)).
Proof.
  unfold JsObject.set, JsObject.insertionOrder. intros H.
  destruct (k =? "__proto__")%string; [exact H |].
  destruct (JsObject.own o k) as [y |] eqn:E.
  - replace (map fst (JsObject.replace o k x)) with (map fst o); [exact H |].
    clear. induction o as [|[k0 y] o IH]; cbn; [reflexivity |].
    destruct (k0 =? k)%string; cbn; [reflexivity | now rewrite IH].
  - rewrite map_app. cbn. apply NoDup_app; [exact H | repeat constructor; intros [] |].
    intros a Ha [<- | []]. apply in_own in Ha as [y Hy]. congruence.
Qed.

Lemma copied_NoDup o : NoDup (JsObject.ownPropertyKeys (copied o)).
Proof.
  apply (Permutation_NoDup (Permutation_sym (ownPropertyKeys_perm (copied o)))).
  unfold copied. generalize (JsObject.ownPropertyKeys o).
  assert (H : NoDup (JsObject.insertionOrder JsObject.empty)) by constructor.
  revert H. generalize JsObject.empty.
  intros acc H keys. revert acc H.
  induction keys as [|k keys IH]; intros acc H; cbn [fold_left]; [exact H |].
  apply IH. now apply set_keys_NoDup.
Qed.

Lemma occurrences_nonneg k vs : 0 <= occurrences k vs.
Proof. unfold occurrences. lia. Qed.

Lemma occurrences_inherited k vs :
  (forall v, In v vs -> JsObject.inherited (toText v) = false) ->
  JsObject.inherited k = true -> occurrences k vs = 0.
Proof.
  intros Hvs Hk. unfold occurrences.
  rewrite (proj1 (count_occ_not_In string_dec (map toText vs) k)); [reflexivity |].
  intros Hin. apply in_map_iff in Hin as [v [<- Hv]].
  rewrite (Hvs v Hv) in Hk. discriminate.
Qed.

(** The slots of [viewed] after ordinary labels only. *)
Lemma recordCategories_own env vs : forall w k,
  (forall v, In v vs -> JsObject.inherited (toText v) = false) ->
  JsObject.own (viewed (prefs (run env w (recordCategories vs)))) k =
  if occurrences k vs =? 0 then JsObject.own (viewed (prefs w)) k
  else Some (Num (match JsObject.count (viewed (prefs w)) k with
                  | Some c => c + occurrences k vs
                  | None => occurrences k vs
                  end)).
Proof.
  unfold occurrences.
  induction vs as [|v vs IH]; intros w k Hvs; [reflexivity |].
  unfold recordCategories. cbn [map]. rewrite run_cons.
  fold (recordCategories vs).
  rewrite IH by (intros v' Hv'; apply Hvs; now right).
  rewrite logCasinoPreference_category. cbv zeta.
  cbn [viewed withTypePreference withViewed count_occ].
  set (n := count_occ string_dec (map toText vs) k).
  destruct (string_dec (toText v) k) as [E | Hne].
  - assert (Hk : JsObject.inherited k = false) by (rewrite <- E; apply Hvs; now left).
    rewrite E, count_bump_same, bump_same by exact Hk.
    destruct (Z.of_nat (S n) =? 0) eqn:E1; [apply Z.eqb_eq in E1; lia |].
    destruct (Z.of_nat n =? 0) eqn:E2.
    + apply Z.eqb_eq in E2. do 2 f_equal.
      destruct (JsObject.count (viewed (prefs w)) k); lia.
    + do 2 f_equal. destruct (JsObject.count (viewed (prefs w)) k); lia.
  - rewrite count_bump_other, bump_other by exact Hne. reflexivity.
Qed.

Lemma NoDup_firstn {A} n (l : list A) : NoDup l -> NoDup (firstn n l).
Proof.
  intros H. rewrite <- (firstn_skipn n l) in H. now apply NoDup_app_remove_r in H.
Qed.

(** ** A tracker without an identity, on the operations keyed by it *)






(** ** Authentication state *)

Lemma exec_preserves_AuthConsistent env op :
  Frame (preserves AuthConsistent) (exec env op).
Proof.
  destruct op; unfold exec;
    frame_methods
      ltac:(idtac; intros ? ?; unfold preserves, AuthConsistent in *;
            cbn in *; first [assumption | now eexists | now split])
      ltac:(idtac; progress unfold logPageView, logEvent).
Qed.

Lemma linkUserWithIP_keeps_self env : Frame (keeps self) (linkUserWithIP env).
Proof. unfold linkUserWithIP. frame_unchanged. Qed.

Lemma handleAuthChange_self env event w :
  self (snd (handleAuthChange env event w)) =
  match event with
  | Some user =>
      pushed "user_login"
        [("user_id", VString (uid user)); ("user_email", ofString (email user))]
        (now w) (withAuth true (Some (uid user)) (email user) (self w))
  | None => pushed "user_logout" [] (now w) (withAuth false None None (self w))
  end.
Proof.
  unfold handleAuthChange. destruct event as [user |]; run_head.
  - rewrite logEvent_then_self by apply linkUserWithIP_keeps_self. reflexivity.
  - rewrite logEvent_self. reflexivity.
Qed.

Lemma last_snoc_Some {A} (l : list A) x :
  last (map Some (l ++ [x])) None = Some x.
Proof. rewrite map_app. cbn. apply last_last. Qed.

(** X7.  In every state a tracker can reach, the authentication flag
    agrees with the fields it comes with: a tracker that is not
    authenticated holds neither a user id nor an email, one that is
    authenticated holds a user id.  A signal with a user makes the
    tracker authenticated as that user, a signal without one clears all
    three, whatever the state before; each pushes one interaction,
    [user_login] or [user_logout]. *)
Theorem auth_state_consistent env pg t0 ops event :
  let w := run env (created env pg t0) ops in
  let w' := step env w (HandleAuthChange event) in
  AuthConsistent w /\
  isAuthenticated (self w') =
    match event with Some _ => true | None => false end /\
  userId (self w') = option_map uid event /\
  userEmail (self w') = match event with Some user => email user | None => None end /\
  lastInteraction w' =
    Some match event with Some _ => "user_login" | None => "user_logout" end /\
  length (interactions (sessionData (self w'))) =
    S (length (interactions (sessionData (self w)))).
Proof.
  intros w w'. split.
  - apply run_invariant; [apply exec_preserves_AuthConsistent |].
    cbn. now split.
  - subst w'. unfold step, exec, lastInteraction. rewrite handleAuthChange_self.
    destruct event as [user |]; cbn -[last];
      rewrite last_snoc_Some, length_app; cbn; repeat split; lia.
Qed.

(** ** Linking a user with an IP *)

Lemma present_Some s : s <> "" -> present (Some s) = true.
Proof.
  intros H. unfold present, ofString, truthy.
  destruct (s =? "")%string eqn:E; [| reflexivity].
  apply String.eqb_eq in E. contradiction.
Qed.

Lemma emittedSince_trail w w' trail :
  outbox w' = (trail ++ outbox w)%list -> emittedSince w w' = trail.
Proof.
  intros H. unfold emittedSince. rewrite H, length_app.
  replace (length trail + length (outbox w) - length (outbox w))%nat
    with (length trail + 0)%nat by lia.
  rewrite firstn_app_2. cbn. apply app_nil_r.
Qed.

(** X8.  On a tracker that holds both a user id and an IP, with a usable
    store client, [linkUserWithIP] first writes the user-to-IP mapping
    and updates the IP record only once that write was accepted: a
    rejected mapping write is logged and ends the method.  It changes
    neither the instance nor the page. *)
Theorem linkUserWithIP_in_order env fb id address w :
  firebase env = Some fb -> firestore fb = Ready ->
  userId (self w) = Some id -> id <> "" ->
  ip (userProfile (self w)) = Some address -> address <> "" ->
  let w' := snd (linkUserWithIP env w) in
  let record := recordWrite id (userEmail (self w)) address in
  self w' = self w /\ page w' = page w /\
  last (emittedSince w w') (Console LogLevel "") = mappingWrite id address /\
  (In record (emittedSince w w') <-> remoteOk env (length (outbox w)) = true) /\
  (remoteOk env (length (outbox w)) = false ->
   emittedSince w w' =
   [Console ErrorLevel "Error linking user with IP:"; mappingWrite id address]).
Proof.
  intros Hfb Hfs Hid Hne Hip Hna w' record. subst w' record.
  unfold linkUserWithIP, tryCatch, await, console, mappingWrite, recordWrite.
  firebase_ready Hfb Hfs.
  rewrite bind_this, Hid, Hip, !present_Some by assumption.
  cbn [negb orb]. firebase_ready Hfb Hfs. run_head.
  rewrite Hid, Hip. cbn [toText ofString].
  rewrite bind_send.
  destruct (remoteOk env (length (outbox w))) eqn:E1; run_head.
  - rewrite bind_send. cbn [outbox withOutbox length].
    destruct (remoteOk env (S (length (outbox w)))) eqn:E2; run_head;
      cbn [fst snd emit self page withOutbox]; rewrite ?Hid, ?Hip;
      cbn [ofString toText];
      [ rewrite (emittedSince_trail w _
                   [Console LogLevel "Successfully linked user with IP";
                    recordWrite id (userEmail (self w)) address;
                    mappingWrite id address]) by reflexivity
      | rewrite (emittedSince_trail w _
                   [Console ErrorLevel "Error linking user with IP:";
                    recordWrite id (userEmail (self w)) address;
                    mappingWrite id address]) by reflexivity ];
      (repeat split; try reflexivity; try discriminate;
       intros _; right; left; reflexivity).
  - cbn [fst snd emit self page withOutbox].
    rewrite (emittedSince_trail w _
               [Console ErrorLevel "Error linking user with IP:";
                mappingWrite id address]) by reflexivity.
    repeat split; try reflexivity; try discriminate.
    intros [H | [H | []]]; discriminate H.
Qed.

Lemma linkUserWithIP_in_order_witness :
  userId (self Sample.signedIn) = Some "anonymous" /\
  ip (userProfile (self Sample.signedIn)) = Some "203.0.113.7" /\
  In (recordWrite "anonymous" (Some "a@example.org") "203.0.113.7")
    (emittedSince Sample.signedIn (snd (linkUserWithIP Sample.online Sample.signedIn))).
Proof.
  split; [reflexivity | split; [reflexivity |]].
  apply (proj1 (proj2 (proj2 (proj2
           (linkUserWithIP_in_order Sample.online Sample.sdk "anonymous"
              "203.0.113.7" Sample.signedIn eq_refl eq_refl eq_refl
              ltac:(discriminate) eq_refl ltac:(discriminate)))))).
  reflexivity.
Defined.

(** ** Listeners registered more than once *)

Lemma logCasinoPreference_keeps_page env kind value :
  Frame (keeps page) (logCasinoPreference env kind value).
Proof.
  frame_methods ltac:(idtac; unchanged)
    ltac:(idtac; logEvent_leaf logEvent_keeps_page).
Qed.

Lemma logCasinoPreference_interactions env kind value w :
  length (interactions (sessionData (self (snd (logCasinoPreference env kind value w))))) =
  S (length (interactions (sessionData (self w)))).
Proof.
  unfold logCasinoPreference.
  assert (H : forall c : Js unit,
             (forall w0, interactions (sessionData (self (snd (c w0)))) =
                         interactions (sessionData (self w0))) ->
             Returns c ->
             length (interactions (sessionData (self (snd (bind c (fun _ =>
               a <- this ;;
               logEvent env "casino_preference"
                 [ ("preferenceType", VString kind); ("value", ofString value);
                   ("count",
                     orElse (JsObject.get (viewed (casinoPreferences (sessionData a)))
                               (toText value)) (VNumber (Num 1))) ] ;;
               fireAndForget (updatePreferencesInFirebase env kind value)) w))))) =
             S (length (interactions (sessionData (self w))))).
  { intros c Hc Hr. rewrite bind_returns by exact Hr. run_head.
    rewrite logEvent_then_self
      by (unfold updatePreferencesInFirebase; frame_unchanged).
    cbn. rewrite length_app, Hc. cbn. lia. }
  destruct (kind =? "category")%string;
    [| destruct (kind =? "click")%string; [| destruct (kind =? "amenity")%string]];
    apply H; try reflexivity;
      first [apply returns_assign | apply returns_ret].
Qed.

Lemma dispatch_copies (h : Js unit) n w :
  snd (dispatch (repeat h n) w) = Nat.iter n (fun w => snd (h w)) w.
Proof.
  revert w. induction n as [|n IH]; intros w; [reflexivity |].
  cbn [repeat dispatch]. unfold fireAndForget at 1. rewrite bind_normal with (a := tt) (w' := snd (h w)) by reflexivity.
  rewrite IH. now rewrite Nat.iter_succ_r.
Qed.

Lemma map_const_repeat {A B} (b : B) (l : list A) :
  map (fun _ => b) l = repeat b (length l).
Proof. induction l; cbn; congruence. Qed.

Lemma iter_recordCategories env category n : forall w,
  Nat.iter n (fun w => snd (logCasinoPreference env "category" category w)) w =
  run env w (recordCategories (repeat category n)).
Proof.
  induction n as [|n IH]; intros w; [reflexivity |].
  rewrite Nat.iter_succ_r, IH. reflexivity.
Qed.

Lemma iter_onCategoryClick env i category n : forall w,
  nth_error (categoryCards (page w)) i = Some category ->
  Nat.iter n (fun w => snd (onCategoryClick env i w)) w =
  Nat.iter n (fun w => snd (logCasinoPreference env "category" category w)) w.
Proof.
  induction n as [|n IH]; intros w H; [reflexivity |].
  rewrite !Nat.iter_succ_r.
  assert (E : snd (onCategoryClick env i w) =
              snd (logCasinoPreference env "category" category w)).
  { unfold onCategoryClick. rewrite bind_document, H. reflexivity. }
  rewrite E. apply IH.
  rewrite (keeps_apply page) by apply logCasinoPreference_keeps_page. exact H.
Qed.

Lemma occurrences_repeat category n :
  occurrences (toText category) (repeat category n) = Z.of_nat n.
Proof.
  unfold occurrences. f_equal. induction n as [|n IH]; cbn; [reflexivity |].
  destruct (string_dec (toText category) (toText category)); congruence.
Qed.

Lemma interactions_recordCategories env vs : forall w,
  length (interactions (sessionData (self (run env w (recordCategories vs))))) =
  (length (interactions (sessionData (self w))) + length vs)%nat.
Proof.
  induction vs as [|v vs IH]; intros w; cbn [length]; [cbn; lia |].
  unfold recordCategories. cbn [map]. rewrite run_cons. fold (recordCategories vs).
  rewrite IH. unfold step, exec. rewrite logCasinoPreference_interactions. lia.
Qed.

Lemma count_in_seq i n : forall s,
  length (filter (listener_eqb (OnCategoryClick i)) (map OnCategoryClick (seq s n))) =
  if (s <=? i)%nat && (i <? s + n)%nat then 1%nat else 0%nat.
Proof.
  induction n as [|n IH]; intros s; cbn [seq map filter listener_eqb].
  - destruct (Nat.leb_spec s i), (Nat.ltb_spec i (s + 0)); cbn; lia.
  - destruct (Nat.eqb_spec i s) as [-> | Hne]; cbn [length]; rewrite IH.
    + destruct (Nat.leb_spec (S s) s), (Nat.leb_spec s s),
        (Nat.ltb_spec s (S s + n)), (Nat.ltb_spec s (s + S n)); cbn; lia.
    + destruct (Nat.leb_spec (S s) i), (Nat.leb_spec s i),
        (Nat.ltb_spec i (S s + n)), (Nat.ltb_spec i (s + S n)); cbn; lia.
Qed.

Lemma registered_count p i :
  (i < length (categoryCards p))%nat ->
  length (filter (listener_eqb (OnCategoryClick i)) (registered p)) = 1%nat.
Proof.
  intros Hi. unfold registered. rewrite !filter_app, !length_app.
  assert (H1 : filter (listener_eqb (OnCategoryClick i))
                 (if searchForm p then [OnSearchSubmit] else []) = [])
    by (destruct (searchForm p); reflexivity).
  assert (H2 : forall n m,
             filter (listener_eqb (OnCategoryClick i))
               (map OnFilterClick (seq n m)) = []).
  { intros n m. revert n. induction m as [|m IH]; intros n; cbn; [reflexivity | apply IH]. }
  rewrite H1, !filter_rev, H2, !length_rev, count_in_seq. cbn [length Nat.add].
  destruct (Nat.ltb_spec i (length (categoryCards p))); [reflexivity | lia].
Qed.

(** X9.  [setupEventListeners] is not idempotent: every call registers
    one more listener on each category card, and a click on a card runs
    the handler once per registration.  With [r] registrations, one click
    pushes [r] interactions and adds [r] to the count of the card's
    label. *)
Theorem click_runs_every_registration env w i category :
  nth_error (categoryCards (page w)) i = Some category ->
  let r := registrations (OnCategoryClick i) w in
  let w' := step env w (CategoryCardClicked i) in
  registrations (OnCategoryClick i) (step env w SetupEventListeners) = S r /\
  w' = run env w (recordCategories (repeat category r)) /\
  length (interactions (sessionData (self w'))) =
    (length (interactions (sessionData (self w))) + r)%nat /\
  (JsObject.inherited (toText category) = false ->
   JsObject.count (viewed (prefs w')) (toText category) =
   match JsObject.count (viewed (prefs w)) (toText category) with
   | Some c => Some (c + Z.of_nat r)
   | None => if Z.of_nat r =? 0 then None else Some (Z.of_nat r)
   end).
Proof.
  intros Hc r w'.
  assert (Hw : w' = run env w (recordCategories (repeat category r))).
  { subst w' r. unfold step, exec, fire, registrations. rewrite bind_document.
    rewrite map_const_repeat, dispatch_copies, filter_rev, length_rev.
    rewrite iter_onCategoryClick with (category := category) by exact Hc.
    apply iter_recordCategories. }
  split; [| split; [exact Hw | split]].
  - subst r. unfold registrations, step, exec.
    rewrite setupEventListeners_effect. cbn [snd page withPage listeners withListeners].
    rewrite filter_app, length_app, registered_count; [reflexivity |].
    apply nth_error_Some. congruence.
  - rewrite Hw, interactions_recordCategories, repeat_length. reflexivity.
  - intros Hk. rewrite Hw, recordCategories_viewed by exact Hk.
    rewrite occurrences_repeat. reflexivity.
Qed.

Lemma click_runs_every_registration_witness :
  nth_error (categoryCards (page More.registeredTwice)) 0 = Some (Some "resort") /\
  registrations (OnCategoryClick 0) More.registeredTwice = 2%nat /\
  step Sample.online More.registeredTwice (CategoryCardClicked 0) =
  run Sample.online More.registeredTwice
    (recordCategories [Some "resort"; Some "resort"]).
Proof.
  split; [reflexivity | split; [reflexivity |]].
  exact (proj1 (proj2 (click_runs_every_registration Sample.online
                         More.registeredTwice 0 (Some "resort") eq_refl))).
Defined.

(** ** Searches *)

Lemma lookup_assignField {V} (o : list (string * V)) k' v k :
  lookup k (assignField o k' v) = if (k' =? k)%string then Some v else lookup k o.
Proof.
  induction o as [|[k0 v0] o IH]; cbn; [reflexivity |].
  destruct (k0 =? k')%string eqn:E; cbn.
  - apply String.eqb_eq in E. subst k0. destruct (k' =? k)%string; reflexivity.
  - rewrite IH. destruct (k0 =? k)%string eqn:E0; [| reflexivity].
    apply String.eqb_eq in E0. subst k0.
    now rewrite (String.eqb_sym k' k), E.
Qed.

Lemma lookup_app {V} (l1 l2 : list (string * V)) k :
  lookup k (l1 ++ l2) =
  match lookup k l1 with
  | Some v => Some v
  | None => lookup k l2
  end.
Proof.
  induction l1 as [|[k0 v0] l1 IH]; cbn; [reflexivity |].
  destruct (k0 =? k)%string; [reflexivity | exact IH].
Qed.

(** Reading a spread object: the last of the spread properties with the
    key wins, and otherwise the property the object already had. *)
Lemma lookup_spread {V} (extra : list (string * V)) : forall o k,
  lookup k (spread o extra) =
  match lookup k (rev extra) with
  | Some v => Some v
  | None => lookup k o
  end.
Proof.
  unfold spread. induction extra as [|[k0 v0] extra IH]; intros o k; cbn [fold_left rev].
  - reflexivity.
  - rewrite IH, lookup_app, lookup_assignField. cbn.
    destruct (lookup k (rev extra)); [reflexivity |].
    now destruct (k0 =? k)%string.
Qed.

Lemma logSearch_self env q fs w :
  self (snd (logSearch env q fs w)) =
  pushed "search" (spread [("query", VString q)] fs) (now w)
    (withSessionData
       (withSearches
          (searches (sessionData (self w))
           ++ [{| query := q; filters := fs; searchedAt := now w |}])
          (sessionData (self w))) (self w)).
Proof. unfold logSearch. run_head. rewrite logEvent_self. reflexivity. Qed.

Lemma iter_id {A} (f : A -> A) n x : (forall y, f y = y) -> Nat.iter n f x = x.
Proof. intros H. induction n; cbn; [reflexivity | now rewrite H]. Qed.

(** X10.  [logSearch] keeps the query as given in the session's list of
    searches, but logs the event with [{query, ...filters}]: a filter
    named [query] replaces the query in the logged event, and every
    other filter is logged as given (the last one of a name winning).  A
    submission of the search form with an empty or missing input logs
    nothing and changes nothing. *)
Theorem logSearch_filters_override env q fs w :
  let w' := step env w (LogSearch q fs) in
  searches (sessionData (self w')) =
    (searches (sessionData (self w))
     ++ [{| query := q; filters := fs; searchedAt := now w |}])%list /\
  (exists d,
     interactions (sessionData (self w')) =
       (interactions (sessionData (self w))
        ++ [{| type := "search"; details := d; timestamp := now w |}])%list /\
     lookup "query" d =
       match lookup "query" (rev fs) with
       | Some v => Some v
       | None => Some (VString q)
       end /\
     forall k, k <> "query" -> lookup k d = lookup k (rev fs)) /\
  (forall input, present input = false ->
     step env w (SearchSubmitted input) = w).
Proof.
  intros w'. subst w'. unfold step, exec. rewrite logSearch_self.
  split; [reflexivity | split].
  - eexists. split; [reflexivity | split].
    + rewrite lookup_spread. reflexivity.
    + intros k Hk. rewrite lookup_spread.
      destruct (lookup k (rev fs)); [reflexivity |].
      apply String.eqb_neq in Hk. cbn [lookup].
      rewrite (String.eqb_sym "query" k), Hk. reflexivity.
  - intros input H. unfold fire, onSearchSubmit. rewrite bind_document, H.
    rewrite map_const_repeat, dispatch_copies. now apply iter_id.
Qed.

Lemma logSearch_filters_override_witness :
  present (Some "") = false /\
  step Sample.online Sample.resolved (SearchSubmitted (Some "")) = Sample.resolved.
Proof.
  split; [reflexivity |].
  exact (proj2 (proj2 (logSearch_filters_override Sample.online "" [] Sample.resolved))
           (Some "") eq_refl).
Defined.

(** ** Recognising a returning visitor *)

(** X11.  On a tracker with an IP and a usable store client, when the
    lookup finds the caller record, [checkReturningUser] marks the visitor
    as returning and records the stored visit count (0 when the record has
    none) before it sends the increment, so that [getUserInsights] then
    reports that count plus 1, as long as the stored count is an integer
    of size below 2^53, where adding 1 to a JavaScript number is exact.
    The derived field is seeded from the
    stored preferences only afterwards: when the increment is rejected the
    visitor is still marked as returning, but the stored most viewed type
    is not loaded. *)
Theorem checkReturningUser_recognises env fb address ud w :
  firebase env = Some fb -> firestore fb = Ready ->
  ip (userProfile (self w)) = Some address -> address <> "" ->
  remoteOk env (length (outbox w)) = true ->
  storedUser env = Some ud ->
  - 2 ^ 53 < visitsOr0 ud < 2 ^ 53 ->
  let w' := snd (checkReturningUser env w) in
  returning (userProfile (self w')) = true /\
  previousVisits (self w') = Some (visitsOr0 ud) /\
  reportedVisits w' = Some (Num (visitsOr0 ud + 1)) /\
  In (visitIncrement address) (emittedSince w w') /\
  typePreference (prefs w') =
    if remoteOk env (S (length (outbox w))) then
      match preferences ud with
      | Some mostViewedType =>
          if present mostViewedType then mostViewedType else None
      | None => typePreference (prefs w)
      end
    else typePreference (prefs w).
Proof.
  intros Hfb Hfs Hip Hna Hok Hud _ w'. subst w'.
  unfold checkReturningUser, tryCatch, await, console, visitIncrement.
  rewrite Hud. firebase_ready Hfb Hfs. run_head.
  rewrite Hip, present_Some by exact Hna.
  cbn [toText]. run_head. rewrite bind_send, Hok. run_head. rewrite bind_send.
  cbn [outbox withOutbox withSelf length]. unfold visitsOr0.
  destruct (remoteOk env (S (length (outbox w)))); run_head;
    [destruct (preferences ud) as [m |]; run_head |];
    cbn [fst snd emit];
    rewrite reportedVisits_eq; unfold prefs;
    cbn [self withSelf withOutbox withPreviousVisits withUserProfile withReturning
         withSessionData withCasinoPreferences withTypePreference
         previousVisits userProfile returning sessionData casinoPreferences
         typePreference];
    (repeat split; try reflexivity);
    [ rewrite (emittedSince_trail w _
                 [Console LogLevel "Returning user detected:";
                  visitIncrement address;
                  Sent (DocGet (usersByIp address))]) by reflexivity
    | rewrite (emittedSince_trail w _
                 [Console LogLevel "Returning user detected:";
                  visitIncrement address;
                  Sent (DocGet (usersByIp address))]) by reflexivity
    | rewrite (emittedSince_trail w _
                 [Console ErrorLevel "Error checking returning user status:";
                  visitIncrement address;
                  Sent (DocGet (usersByIp address))]) by reflexivity ];
    right; left; reflexivity.
Qed.

Lemma checkReturningUser_recognises_witness :
  ip (userProfile (self More.identified)) = Some "203.0.113.7" /\
  storedUser More.returningVisit = Some More.regular /\
  - 2 ^ 53 < visitsOr0 More.regular < 2 ^ 53 /\
  reportedVisits (snd (checkReturningUser More.returningVisit More.identified)) =
    Some (Num 5) /\
  typePreference (prefs (snd (checkReturningUser More.returningVisit More.identified))) =
    Some "tribal".
Proof.
  destruct (checkReturningUser_recognises More.returningVisit Sample.sdk
              "203.0.113.7" More.regular More.identified
              eq_refl eq_refl eq_refl ltac:(discriminate) eq_refl eq_refl
              ltac:(vm_compute; split; reflexivity))
    as (_ & _ & Hv & _ & Ht).
  split; [reflexivity | split; [reflexivity | split; [| split; [exact Hv | exact Ht]]]].
  vm_compute; split; reflexivity.
Defined.

(** X12.  On a tracker with an IP and a usable store client, when the
    lookup is rejected or finds no caller record, [checkReturningUser]
    leaves the tracker as it was (the visitor is not marked as returning)
    and sends no increment.  The record with [visitCount: 1], the user
    agent, the device and empty preferences is created exactly when the
    lookup was answered; a rejected lookup is logged and creates
    nothing. *)
Theorem checkReturningUser_unknown env fb address w :
  firebase env = Some fb -> firestore fb = Ready ->
  ip (userProfile (self w)) = Some address -> address <> "" ->
  remoteOk env (length (outbox w)) = false \/ storedUser env = None ->
  let w' := snd (checkReturningUser env w) in
  self w' = self w /\ page w' = page w /\
  ~ In (visitIncrement address) (emittedSince w w') /\
  (In (recordCreation env (self w) address) (emittedSince w w') <->
   remoteOk env (length (outbox w)) = true) /\
  (remoteOk env (length (outbox w)) = false ->
   emittedSince w w' =
   [Console ErrorLevel "Error checking returning user status:";
    Sent (DocGet (usersByIp address))]).
Proof.
  intros Hfb Hfs Hip Hna Hcase w'. subst w'.
  unfold checkReturningUser, tryCatch, await, console,
    visitIncrement, recordCreation.
  firebase_ready Hfb Hfs. run_head. rewrite Hip, present_Some by exact Hna.
  cbn [toText]. run_head. rewrite bind_send.
  destruct (remoteOk env (length (outbox w))) eqn:E1; run_head.
  - destruct Hcase as [H | Hud]; [discriminate H |]. rewrite Hud. run_head.
    rewrite bind_send. cbn [outbox withOutbox length self].
    destruct (remoteOk env (S (length (outbox w)))) eqn:E2; run_head;
      cbn [fst snd emit self page withOutbox];
      [ rewrite (emittedSince_trail w _
                   [recordCreation env (self w) address;
                    Sent (DocGet (usersByIp address))]) by reflexivity
      | rewrite (emittedSince_trail w _
                   [Console ErrorLevel "Error checking returning user status:";
                    recordCreation env (self w) address;
                    Sent (DocGet (usersByIp address))]) by reflexivity ];
      (split; [reflexivity | split; [reflexivity | split; [| split]]]);
      try discriminate;
      try (split; [reflexivity | intros _]);
      try (intros H; repeat (destruct H as [H | H]; [discriminate H |]); exact H).
    + left. reflexivity.
    + right. left. reflexivity.
  - cbn [fst snd emit self page withOutbox].
    rewrite (emittedSince_trail w _
               [Console ErrorLevel "Error checking returning user status:";
                Sent (DocGet (usersByIp address))]) by reflexivity.
    split; [reflexivity | split; [reflexivity | split; [| split]]].
    + intros [H | [H | []]]; discriminate H.
    + split; [| discriminate]. intros [H | [H | []]]; discriminate H.
    + reflexivity.
Qed.

Lemma checkReturningUser_unknown_witness :
  ip (userProfile (self More.identified)) = Some "203.0.113.7" /\
  storedUser Sample.online = None /\
  returning (userProfile (self (snd (checkReturningUser Sample.online More.identified)))) =
    false /\
  In (recordCreation Sample.online (self More.identified) "203.0.113.7")
     (emittedSince More.identified
        (snd (checkReturningUser Sample.online More.identified))).
Proof.
  destruct (checkReturningUser_unknown Sample.online Sample.sdk
              "203.0.113.7" More.identified
              eq_refl eq_refl eq_refl ltac:(discriminate) (or_intror eq_refl))
    as (Hs & _ & _ & Hc & _).
  split; [reflexivity | split; [reflexivity | split]].
  - rewrite Hs. reflexivity.
  - apply Hc. reflexivity.
Defined.

(** ** Posting *)

(** X13.  [createPost] uploads the file before it writes the post.  With
    a file given, the upload goes to the path made of the user id (or
    "anonymous"), the current time and the file's name; when the upload
    or the request for its download URL is rejected, the [catch] logs
    the error, no post document is sent, and neither the tracker nor the
    rendered page changes: the post list is not reloaded. *)
Theorem createPost_upload_rejected env fb text name w :
  firebase env = Some fb -> firestore fb = Ready -> storage fb = Ready ->
  remoteOk env (length (outbox w)) = false \/
  remoteOk env (S (length (outbox w))) = false ->
  let w' := snd (createPost env text (Some name) w) in
  let owner := stringOr (userId (self w)) "anonymous" in
  self w' = self w /\ page w' = page w /\
  existsb isPostDocument (emittedSince w w') = false /\
  hd_error (emittedSince w w') = Some (Console ErrorLevel "Error creating post:") /\
  last (emittedSince w w') (Console LogLevel "") =
    Sent (StoragePut owner (now w) name).
Proof.
  intros Hfb Hfs Hst Hcase w' owner. subst w' owner.
  unfold createPost, tryCatch, await, console.
  rewrite (bind_has _ _ _ _ _ Hfb), Hfs. cbv beta.
  rewrite (bind_has _ _ _ _ _ Hfb), Hst. cbn [negb orb].
  rewrite (bind_call _ _ _ _ _ Hfb Hfs). cbv beta.
  rewrite (bind_call _ _ _ _ _ Hfb Hst). run_head. rewrite bind_send.
  destruct (remoteOk env (length (outbox w))) eqn:E1; run_head.
  - destruct Hcase as [H | E2]; [discriminate H |].
    rewrite bind_send. cbn [outbox withOutbox length]. rewrite E2. run_head.
    cbn [fst snd emit self page withOutbox].
    rewrite (emittedSince_trail w _
               [Console ErrorLevel "Error creating post:";
                Sent (GetDownloadURL (stringOr (userId (self w)) "anonymous") (now w) name);
                Sent (StoragePut (stringOr (userId (self w)) "anonymous") (now w) name)])
      by reflexivity.
    repeat split; reflexivity.
  - cbn [fst snd emit self page withOutbox].
    rewrite (emittedSince_trail w _
               [Console ErrorLevel "Error creating post:";
                Sent (StoragePut (stringOr (userId (self w)) "anonymous") (now w) name)])
      by reflexivity.
    repeat split; reflexivity.
Qed.

Lemma createPost_upload_rejected_witness :
  remoteOk Sample.rejecting (length (outbox Sample.start)) = false /\
  page (snd (createPost Sample.rejecting "hello" (Some "clip.mp4") Sample.start)) =
    page Sample.start /\
  existsb isPostDocument
    (emittedSince Sample.start
       (snd (createPost Sample.rejecting "hello" (Some "clip.mp4") Sample.start))) =
    false.
Proof.
  destruct (createPost_upload_rejected Sample.rejecting Sample.sdk "hello"
              "clip.mp4" Sample.start eq_refl eq_refl eq_refl (or_introl eq_refl))
    as (_ & Hp & Hn & _).
  split; [reflexivity | split; [exact Hp | exact Hn]].
Defined.

Ltac emits_other :=
  intros; unfold emits; cbn [outbox withOutbox withSelf withPage withNow];
  first [ exists []; split; [reflexivity | constructor]
        | eexists [_]; split;
          [reflexivity | constructor; [intros E; discriminate E | constructor]] ].

(** [loadPosts] reports its failures under its own name. *)
Lemma loadPosts_own_errors env : Frame (emits notCreatePostError) (loadPosts env).
Proof. frame_methods ltac:(idtac; emits_other) fail. Qed.

(** X14.  Without a file, [createPost] sends no upload and writes the
    post with [videoUrl: null]; once the write is accepted it logs the
    post and reloads the list, so the page and the outbox are those
    [loadPosts] leaves when it starts right after the log entry.  The
    reload is not awaited and has its own [catch]: whatever happens to
    it, [createPost] does not report an error creating the post. *)
Theorem createPost_then_reload env fb text w :
  firebase env = Some fb -> firestore fb = Ready -> storage fb = Ready ->
  remoteOk env (length (outbox w)) = true ->
  let posted :=
    withOutbox (Console LogLevel "Post created:"
                :: postDocument (self w) text None :: outbox w) w in
  createPost env text None w = (Normal tt, snd (loadPosts env posted)) /\
  last (emittedSince w (snd (createPost env text None w))) (Console LogLevel "") =
    postDocument (self w) text None /\
  ~ In (Console ErrorLevel "Error creating post:")
       (emittedSince w (snd (createPost env text None w))).
Proof.
  intros Hfb Hfs Hst Hok posted.
  assert (E : createPost env text None w = (Normal tt, snd (loadPosts env posted))).
  { unfold createPost, tryCatch, await, console, fireAndForget.
    rewrite (bind_has _ _ _ _ _ Hfb), Hfs. cbv beta.
    rewrite (bind_has _ _ _ _ _ Hfb), Hst. cbn [negb orb].
    rewrite (bind_call _ _ _ _ _ Hfb Hfs). cbv beta.
    rewrite (bind_call _ _ _ _ _ Hfb Hst). run_head. rewrite bind_send, Hok.
    run_head. reflexivity. }
  rewrite E. cbn [snd].
  destruct (loadPosts_own_errors env posted) as (new & Hnew & Hall).
  assert (Et : emittedSince w (snd (loadPosts env posted)) =
               (new ++ [Console LogLevel "Post created:";
                        postDocument (self w) text None])%list).
  { apply emittedSince_trail. rewrite Hnew, <- app_assoc. reflexivity. }
  rewrite Et. split; [reflexivity | split].
  - change (new ++ [Console LogLevel "Post created:";
                    postDocument (self w) text None])%list
      with (new ++ [Console LogLevel "Post created:"]
                ++ [postDocument (self w) text None])%list.
    rewrite app_assoc. apply last_last.
  - intros Hin. apply in_app_or in Hin. destruct Hin as [Hin | Hin].
    + rewrite Forall_forall in Hall. exact (Hall _ Hin eq_refl).
    + destruct Hin as [H | [H | []]]; discriminate H.
Qed.

Lemma createPost_then_reload_witness :
  remoteOk Sample.online (length (outbox Sample.start)) = true /\
  postsContainer
    (page (snd (createPost Sample.online "hello" None Sample.start))) =
    Some (map createPostElement (map Sample.stored (seq 0 12))) /\
  last (emittedSince Sample.start
          (snd (createPost Sample.online "hello" None Sample.start)))
       (Console LogLevel "") =
    postDocument (self Sample.start) "hello" None.
Proof.
  destruct (createPost_then_reload Sample.online Sample.sdk "hello" Sample.start
              eq_refl eq_refl eq_refl eq_refl) as (E & Hl & _).
  split; [reflexivity | split; [| exact Hl]].
  rewrite E. reflexivity.
Defined.

(** ** The layout of the post list *)

Lemma interleaved_posts i posts :
  filter (fun n => negb (isAd n)) (interleaved i posts) =
  map createPostElement posts.
Proof.
  revert i. induction posts as [| p later IH]; intros i; [reflexivity |].
  cbn [interleaved map]. rewrite filter_app.
  destruct (Nat.ltb 0 i && Nat.eqb (i mod 5) 0);
    cbn [filter isAd negb createPostElement app]; now rewrite IH.
Qed.

Lemma interleaved_blocks i posts :
  length (filter isAd (interleaved i posts)) =
  ((i + length posts - 1) / 5 - (i - 1) / 5)%nat.
Proof.
  revert i. induction posts as [| p later IH]; intros i.
  - cbn [interleaved filter length].
    replace (i + 0 - 1)%nat with (i - 1)%nat by lia. lia.
  - cbn [interleaved]. rewrite filter_app, length_app.
    cbn [filter isAd createPostElement length]. rewrite IH.
    pose proof (Nat.div_mod_eq i 5) as Hi.
    pose proof (Nat.mod_upper_bound i 5 ltac:(discriminate)) as Hi'.
    pose proof (Nat.div_mod_eq (i - 1) 5) as Hp.
    pose proof (Nat.mod_upper_bound (i - 1) 5 ltac:(discriminate)) as Hp'.
    pose proof (Nat.Div0.div_le_mono i (S i + length later - 1) 5
                  ltac:(lia)) as Hm.
    replace (i + S (length later) - 1)%nat with (S i + length later - 1)%nat by lia.
    replace (S i - 1)%nat with i by lia.
    destruct i as [| i'].
    + cbn [Nat.ltb Nat.leb andb filter length]. cbn. lia.
    + change (Nat.ltb 0 (S i')) with true. cbn [andb].
      destruct (Nat.eqb_spec (S i' mod 5) 0) as [E | E];
        cbn [filter isAd length]; lia.
Qed.

Lemma plain_posts posts :
  filter (fun n => negb (isAd n)) (map createPostElement posts) =
    map createPostElement posts /\
  filter isAd (map createPostElement posts) = [].
Proof.
  induction posts as [| p later [IH1 IH2]]; [split; reflexivity |].
  cbn [map filter createPostElement isAd negb]. now rewrite IH1, IH2.
Qed.

(** X15.  When the query of [loadPosts] is answered, the container holds
    every post of the answer, in the answer's order and with nothing
    left over from before; the only other nodes are promotional blocks.
    With an iterator that passes the position there are
    [(n - 1) / 5] of them for [n] posts (none for an empty answer);
    with one that passes the document alone there is none. *)
Theorem loadPosts_layout env fb stale w :
  firebase env = Some fb -> firestore fb = Ready ->
  postsContainer (page w) = Some stale ->
  remoteOk env (length (outbox w)) = true ->
  let posts := storedPosts env (length (outbox w)) in
  exists nodes,
    postsContainer (page (snd (loadPosts env w))) = Some nodes /\
    filter (fun n => negb (isAd n)) nodes = map createPostElement posts /\
    length (filter isAd nodes) =
      if forEachPassesIndex env then ((length posts - 1) / 5)%nat else 0%nat.
Proof.
  intros Hfb Hfs Hc Hok posts.
  rewrite (loadPosts_query env fb stale w Hfb Hfs Hc), Hok. fold posts.
  destruct (forEachPassesIndex env); eexists; (split; [reflexivity |]).
  - split; [apply interleaved_posts |].
    rewrite interleaved_blocks. cbn. lia.
  - destruct (plain_posts posts) as [H1 H2]. rewrite H1, H2. split; reflexivity.
Qed.

Lemma loadPosts_layout_witness :
  forEachPassesIndex (Sample.withForEachPassesIndex true Sample.online) = true /\
  exists nodes,
    postsContainer
      (page (snd (loadPosts (Sample.withForEachPassesIndex true Sample.online)
                    Sample.start))) = Some nodes /\
    length (filter isAd nodes) = 2%nat.
Proof.
  split; [reflexivity |].
  destruct (loadPosts_layout (Sample.withForEachPassesIndex true Sample.online)
              Sample.sdk [PostNode "Anonymous" "stale" None] Sample.start
              eq_refl eq_refl eq_refl eq_refl) as (nodes & Hn & _ & Hb).
  exists nodes. split; [exact Hn | exact Hb].
Defined.

(** ** The sinks of an event *)

Lemma logEvent_trail env event_type details w :
  exists trail,
    outbox (snd (logEvent env event_type details w)) = (trail ++ outbox w)%list /\
    existsb isSessionEvent trail =
      usable firestore env && present (ip (userProfile (self w))) /\
    existsb isSessionSummary trail =
      usable firestore env && present (ip (userProfile (self w))) /\
    existsb isAnalyticsEvent trail = usable analytics env /\
    (forall path fields,
       In (Sent (DocSet path fields true)) trail ->
       lookup "interactions" fields =
         Some (Plain (VNumber (Num (Z.of_nat
           (S (length (interactions (sessionData (self w)))))))))).
Proof.
  unfold logEvent, usable, firebase, has, call, global, post, console,
    secondsSince.
  run_head.
  destruct (firebaseGlobal env) as [| [fb |]];
    [| destruct (firestore fb) eqn:Hf; destruct (analytics fb) eqn:Ha |];
    destruct (present (ip (userProfile (self w))));
    repeat (cbv [bind tryCatch ret throw this emit send newDate assign];
            cbn [negb andb orb fst snd outbox withOutbox withSelf self
                 withSessionData withInteractions sessionData interactions];
            rewrite ?Hf, ?Ha);
    let close :=
      split; [reflexivity |];
      (split; [reflexivity | split; [reflexivity | split; [reflexivity |]]]);
      intros path fields Hin;
      repeat (destruct Hin as [Hin | Hin]; [try discriminate Hin |]);
      try contradiction;
      injection Hin as <- <-; cbn [lookup]; cbn;
      rewrite length_app, Nat.add_1_r; reflexivity in
    first [ eexists [_]; close | eexists [_; _]; close
          | eexists [_; _; _]; close | eexists [_; _; _; _]; close
          | eexists [_; _; _; _; _]; close ].
Qed.

(** X16.  [logEvent] always appends the event to the session's
    interactions.  Its two sinks are independent of each other and of
    what the store answers: the event and the session summary go to the
    store exactly when its client can be called and the tracker has an
    IP, the event goes to the analytics sink exactly when that client can
    be called, and a client that throws stops neither the other sink nor
    the method.  The summary is written after the event was appended: its
    [interactions] count includes the event being logged. *)
Theorem logEvent_sinks env event_type details w :
  let w' := snd (logEvent env event_type details w) in
  let trail := emittedSince w w' in
  let stored := usable firestore env && present (ip (userProfile (self w))) in
  interactions (sessionData (self w')) =
    (interactions (sessionData (self w))
     ++ [{| type := event_type; details := details; timestamp := now w |}])%list /\
  existsb isSessionEvent trail = stored /\
  existsb isSessionSummary trail = stored /\
  existsb isAnalyticsEvent trail = usable analytics env /\
  (forall path fields,
     In (Sent (DocSet path fields true)) trail ->
     lookup "interactions" fields =
       Some (Plain (VNumber (Num (Z.of_nat
         (S (length (interactions (sessionData (self w)))))))))).
Proof.
  intros w' trail stored. subst w' trail stored.
  destruct (logEvent_trail env event_type details w) as (trail & E & H).
  rewrite (emittedSince_trail _ _ _ E), logEvent_self.
  split; [reflexivity | exact H].
Qed.

(** ** The count reported with a preference *)

(** X17.  Whatever its kind, a call of [logCasinoPreference] appends one
    [casino_preference] event whose [count] is read from the [viewed]
    map: the label's category-view count after the call, or 1 when that
    is missing or zero.  Only a category call writes that map, so the
    count reported with a click, an amenity, a rating or a distance is
    the number of times the same label was viewed as a category (or 1),
    not the number of clicks or selections. *)
Theorem preference_event_count env kind value w :
  let w' := snd (logCasinoPreference env kind value w) in
  interactions (sessionData (self w')) =
    (interactions (sessionData (self w))
     ++ [{| type := "casino_preference";
            details :=
              [ ("preferenceType", VString kind);
                ("value", ofString value);
                ("count",
                  orElse (JsObject.get (viewed (prefs w')) (toText value))
                         (VNumber (Num 1))) ];
            timestamp := now w |}])%list /\
  ((kind =? "category")%string = false -> viewed (prefs w') = viewed (prefs w)).
Proof.
  intros w'. subst w'. unfold logCasinoPreference, prefs. cbv zeta.
  destruct (kind =? "category")%string;
    [| destruct (kind =? "click")%string; [| destruct (kind =? "amenity")%string]];
    run_head;
    rewrite logEvent_then_self
      by (unfold updatePreferencesInFirebase; frame_unchanged);
    unfold pushed;
    cbn [self withSelf sessionData withSessionData interactions withInteractions
         casinoPreferences withCasinoPreferences viewed withViewed withClicked
         withAmenitiesSelected withTypePreference now];
    (split; [reflexivity | intros H; first [discriminate H | reflexivity]]).
Qed.

Lemma preference_event_count_witness :
  ("click" =? "category")%string = false /\
  viewed (prefs (snd (logCasinoPreference Sample.online "click" (Some "resort")
                        Sample.start))) =
    viewed (prefs Sample.start).
Proof.
  split; [reflexivity |].
  exact (proj2 (preference_event_count Sample.online "click" (Some "resort")
                  Sample.start) eq_refl).
Defined.

(** ** The session record only grows *)

#[local] Instance SessionGrows_preorder : PreOrder SessionGrows.
Proof.
  split; unfold SessionGrows.
  - intros w. repeat split; try lia; exists []; now rewrite app_nil_r.
  - intros w1 w2 w3 ((i12 & Hi12) & (s12 & Hs12) & Hid12 & Ht12 & Hv12)
      ((i23 & Hi23) & (s23 & Hs23) & Hid23 & Ht23 & Hv23).
    split; [| split; [| split; [| split]]].
    + exists (i12 ++ i23)%list. now rewrite Hi23, Hi12, app_assoc.
    + exists (s12 ++ s23)%list. now rewrite Hs23, Hs12, app_assoc.
    + congruence.
    + congruence.
    + lia.
Qed.

(** A write that appends to one of the lists, adds to the counter, or
    touches none of the session's fields. *)
Ltac session_grows :=
  intros; unfold SessionGrows;
  cbn [self withSelf withOutbox withPage withNow now sessionData withSessionData
       interactions withInteractions searches withSearches pageViews withPageViews
       withCasinoPreferences sessionId sessionStartTime withUserProfile
       withPreviousVisits withAuth];
  split; [| split; [| split; [| split]]];
  first [ reflexivity | lia
        | exists []; now rewrite app_nil_r
        | eexists [_]; reflexivity ].

Lemma exec_SessionGrows env op : Frame SessionGrows (exec env op).
Proof.
  destruct op; unfold exec;
    frame_methods ltac:(idtac; session_grows)
      ltac:(idtac; progress unfold logPageView, logEvent).
Qed.

(** X18.  The session record is append-only.  Whatever operations run,
    and whatever the outside answers, the interactions and the searches
    of the session are those it had before followed by new entries:
    nothing is removed, reordered or rewritten.  The session identifier
    and the start time are never reassigned, and the page-view counter
    never goes back: the only write to it adds 1. *)
Theorem session_append_only env ops : forall w,
  let w' := run env w ops in
  (exists added,
     interactions (sessionData (self w')) =
     (interactions (sessionData (self w)) ++ added)%list) /\
  (exists added,
     searches (sessionData (self w')) =
     (searches (sessionData (self w)) ++ added)%list) /\
  sessionId (self w') = sessionId (self w) /\
  sessionStartTime (self w') = sessionStartTime (self w) /\
  pageViews (sessionData (self w)) <= pageViews (sessionData (self w')).
Proof.
  induction ops as [| op ops IH]; intros w.
  - apply (@PreOrder_Reflexive _ _ SessionGrows_preorder).
  - cbv zeta. rewrite run_cons.
    apply (@PreOrder_Transitive _ _ SessionGrows_preorder _ (step env w op)).
    + apply exec_SessionGrows.
    + apply IH.
Qed.

(** ** Mirroring a preference *)

(** Rewrites [emittedSince w w'] to the explicit trail, when [w'] is [w]
    with a few emissions. *)
Ltac trail_since :=
  first [ erewrite (emittedSince_trail _ _ [_]) by reflexivity
        | erewrite (emittedSince_trail _ _ [_; _]) by reflexivity
        | erewrite (emittedSince_trail _ _ [_; _; _]) by reflexivity
        | erewrite (emittedSince_trail _ _ [_; _; _; _]) by reflexivity ].

(** X19.  On a tracker with an IP and a usable store client,
    [updatePreferencesInFirebase] first sends one update of the caller
    record and changes nothing on the tracker or the page.  For a
    category the update increments the label's stored count and
    overwrites the stored most viewed type with the tracker's derived
    field as it is at the call.  The [user_events] record follows only
    when the update was accepted; a rejection of either request is logged
    and ends the method. *)
Theorem updatePreferences_in_order env fb address kind value w :
  firebase env = Some fb -> firestore fb = Ready ->
  ip (userProfile (self w)) = Some address -> address <> "" ->
  let w' := snd (updatePreferencesInFirebase env kind value w) in
  let trail := emittedSince w w' in
  let failed := Console ErrorLevel "Error updating preferences in Firebase:" in
  self w' = self w /\ page w' = page w /\
  (exists fields,
     last trail failed = Sent (DocUpdate (usersByIp address) fields) /\
     (kind = "category" ->
      lookup "preferences.mostViewedType" fields =
        Some (Plain (ofString (typePreference (prefs w)))) /\
      lookup ("preferences.categories." ++ toText value) fields =
        Some (Increment 1))) /\
  (In (preferenceRecord address kind value (sessionId (self w))) trail <->
   remoteOk env (length (outbox w)) = true) /\
  (In failed trail <->
   remoteOk env (length (outbox w)) = false \/
   remoteOk env (S (length (outbox w))) = false).
Proof.
  intros Hfb Hfs Hip Hna w' trail failed. subst w' trail failed.
  unfold updatePreferencesInFirebase, tryCatch, await, console, preferenceRecord.
  firebase_ready Hfb Hfs.
  rewrite bind_this, Hip, present_Some by assumption.
  cbn [negb orb]. firebase_ready Hfb Hfs. run_head.
  rewrite Hip. cbn [toText usersByIp app].
  match goal with
  | |- context [DocUpdate _ ?f] => set (fields := f)
  end.
  assert (Hfields :
    kind = "category" ->
    lookup "preferences.mostViewedType" fields =
      Some (Plain (ofString (typePreference (prefs w)))) /\
    lookup ("preferences.categories." ++ toText value) fields =
      Some (Increment 1)).
  { intros ->. subst fields. cbn [String.eqb Ascii.eqb Bool.eqb].
    rewrite !lookup_assignField, String.eqb_refl. split; [reflexivity |].
    replace ("preferences.mostViewedType" =?
             "preferences.categories." ++ toText value)%string with false
      by reflexivity.
    now rewrite String.eqb_refl. }
  clearbody fields.
  rewrite bind_send.
  destruct (remoteOk env (length (outbox w))) eqn:E1; run_head.
  - rewrite bind_send. cbn [outbox withOutbox length].
    destruct (remoteOk env (S (length (outbox w)))) eqn:E2; run_head;
      cbn [fst snd emit ret self page withOutbox]; rewrite ?Hip; cbn [toText];
      trail_since;
      (split; [reflexivity | split; [reflexivity | split; [| split]]]);
      try (exists fields; split; [reflexivity | exact Hfields]).
    + split; [reflexivity | intros _; left; reflexivity].
    + split; [intros [H | [H | []]]; discriminate H
             | intros [H | H]; discriminate H].
    + split; [reflexivity | intros _; right; left; reflexivity].
    + split; [intros _; right; reflexivity | intros _; left; reflexivity].
  - cbn [fst snd emit ret self page withOutbox]. trail_since.
    split; [reflexivity | split; [reflexivity | split; [| split]]].
    + exists fields. split; [reflexivity | exact Hfields].
    + split; [intros [H | [H | []]]; discriminate H | discriminate].
    + split; [intros _; left; reflexivity | intros _; left; reflexivity].
Qed.

Lemma updatePreferences_in_order_witness :
  ip (userProfile (self More.identified)) = Some "203.0.113.7" /\
  In (preferenceRecord "203.0.113.7" "category" (Some "tribal")
        (sessionId (self More.identified)))
     (emittedSince More.identified
        (snd (updatePreferencesInFirebase Sample.online "category" (Some "tribal")
                More.identified))).
Proof.
  split; [reflexivity |].
  destruct (updatePreferences_in_order Sample.online Sample.sdk "203.0.113.7"
              "category" (Some "tribal") More.identified
              eq_refl eq_refl eq_refl ltac:(discriminate))
    as (_ & _ & _ & Hrec & _).
  apply Hrec. reflexivity.
Defined.

(** * The debug helper *)

Lemma string_app_assoc (a b c : string) :
  ((a ++ b) ++ c)%string = (a ++ b ++ c)%string.
Proof. induction a as [| x a IH]; cbn; [reflexivity | now rewrite IH]. Qed.

(** X20.  [updateUserStatus] shows an address only when it is given a
    non-empty string other than the marker "unknown", which is what
    [getIpFromServer] resolves to when the request or the parsing of its
    answer fails.  So the banner filled from the fetched address reads
    "IP: <address> | " exactly when the server answered with such a
    string, and "IP: Retrieving... | " in every other case, followed by
    the login state; the banner is made visible either way, and a page
    without the banner is left without one. *)
Theorem banner_hides_unknown user answer d :
  FirebaseDebug.shown user answer d =
  match FirebaseDebug.userStatusBanner d with
  | None => None
  | Some _ =>
      Some {| FirebaseDebug.textContent :=
                match answer with
                | FirebaseDebug.Body (Some address) =>
                    if (address =? "")%string || (address =? "unknown")%string
                    then "IP: Retrieving... | " ++ FirebaseDebug.login user
                    else "IP: " ++ address ++ " | " ++ FirebaseDebug.login user
                | _ => "IP: Retrieving... | " ++ FirebaseDebug.login user
                end;
              FirebaseDebug.display := "block" |}
  end.
Proof.
  unfold FirebaseDebug.shown, FirebaseDebug.getIpFromServer,
    FirebaseDebug.updateUserStatus, FirebaseDebug.login.
  destruct answer as [| | | [address |]];
    cbn [FirebaseDebug.userStatusBanner];
    destruct (FirebaseDebug.userStatusBanner d); try reflexivity.
  unfold present, ofString, truthy. cbn [toText].
  destruct (address =? "")%string; cbn [negb andb orb]; [reflexivity |].
  destruct (address =? "unknown")%string; cbn [negb]; [reflexivity |].
  cbn [FirebaseDebug.userStatusBanner]. f_equal. f_equal.
  now rewrite !string_app_assoc.
Qed.

(** * The first interest and the derived field *)

(** ** Array indices are canonical *)

Lemma digit_bound c d : JsObject.digit c = Some d -> (d <= 9)%N.
Proof.
  unfold JsObject.digit.
  destruct ((48 <=? N_of_ascii c) && (N_of_ascii c <=? 57))%N eqn:E; [| discriminate].
  intros [= <-]. apply andb_prop in E as [E1 E2].
  apply N.leb_le in E1, E2. lia.
Qed.

Lemma digit_inj c c' d :
  JsObject.digit c = Some d -> JsObject.digit c' = Some d -> c = c'.
Proof.
  unfold JsObject.digit.
  destruct ((48 <=? N_of_ascii c) && (N_of_ascii c <=? 57))%N eqn:E; [| discriminate].
  destruct ((48 <=? N_of_ascii c') && (N_of_ascii c' <=? 57))%N eqn:E'; [| discriminate].
  intros [= H] [= H'].
  apply andb_prop in E as [E1 _]. apply andb_prop in E' as [E1' _].
  apply N.leb_le in E1, E1'.
  assert (Hn : N_of_ascii c = N_of_ascii c') by lia.
  rewrite <- (ascii_N_embedding c), <- (ascii_N_embedding c'). now rewrite Hn.
Qed.

Lemma decimal_bounds s : forall acc n,
  JsObject.decimal s acc = Some n ->
  (acc * 10 ^ N.of_nat (String.length s) <= n
   < (acc + 1) * 10 ^ N.of_nat (String.length s))%N.
Proof.
  induction s as [| c s IH]; intros acc n; cbn [JsObject.decimal String.length].
  - intros [= <-]. cbn. lia.
  - destruct (JsObject.digit c) as [d |] eqn:Ed; [| discriminate]. intros H.
    apply IH in H. apply digit_bound in Ed.
    rewrite Nat2N.inj_succ, N.pow_succ_r'.
    set (P := (10 ^ N.of_nat (String.length s))%N) in *. nia.
Qed.

Lemma decimal_inj s : forall s' acc n,
  String.length s = String.length s' ->
  JsObject.decimal s acc = Some n -> JsObject.decimal s' acc = Some n -> s = s'.
Proof.
  induction s as [| c s IH]; intros [| c' s'] acc n Hl; try discriminate Hl;
    [reflexivity |].
  cbn [JsObject.decimal].
  destruct (JsObject.digit c) as [d |] eqn:Ed; [| discriminate].
  destruct (JsObject.digit c') as [d' |] eqn:Ed'; [| discriminate].
  intros H H'. injection Hl as Hl.
  pose proof (decimal_bounds _ _ _ H) as B.
  pose proof (decimal_bounds _ _ _ H') as B'. rewrite <- Hl in B'.
  assert (Hd : d = d').
  { set (P := (10 ^ N.of_nat (String.length s))%N) in *.
    assert (HP : (0 < P)%N).
    { assert (P <> 0)%N by (apply N.pow_nonzero; discriminate). lia. }
    destruct (N.lt_trichotomy d d') as [Hlt | [Heq | Hgt]]; [| exact Heq |]; nia. }
  subst d'. f_equal.
  - eapply digit_inj; eassumption.
  - eapply IH; eassumption.
Qed.

Lemma arrayIndex_decimal k n :
  JsObject.arrayIndex k = Some n ->
  JsObject.decimal k 0 = Some n /\
  (k = "0" /\ n = 0%N \/
   (1 <= String.length k)%nat /\
   (10 ^ N.of_nat (String.length k - 1) <= n < 10 ^ N.of_nat (String.length k))%N).
Proof.
  unfold JsObject.arrayIndex. destruct k as [| c rest]; [discriminate |].
  destruct (Ascii.eqb c "0" && negb (rest =? "")%string) eqn:E; [discriminate |].
  destruct (JsObject.decimal (String c rest) 0) as [m |] eqn:D; [| discriminate].
  destruct (m <? 2 ^ 32 - 1)%N; [| discriminate]. intros [= <-].
  split; [reflexivity |].
  cbn [JsObject.decimal] in D.
  destruct (JsObject.digit c) as [d |] eqn:Ed; [| discriminate].
  pose proof (decimal_bounds _ _ _ D) as B. pose proof (digit_bound _ _ Ed) as Hd.
  destruct (N.eq_dec d 0) as [-> | Hpos].
  - left. assert (c = "0"%char) by (eapply digit_inj; [exact Ed | reflexivity]).
    subst c. cbn [Ascii.eqb Bool.eqb andb] in E.
    apply negb_false_iff, String.eqb_eq in E. subst rest.
    cbn in D. injection D as <-. split; reflexivity.
  - right. cbn [String.length].
    replace (S (String.length rest) - 1)%nat with (String.length rest) by lia.
    split; [lia |].
    rewrite Nat2N.inj_succ, N.pow_succ_r'.
    set (P := (10 ^ N.of_nat (String.length rest))%N) in *. nia.
Qed.

(** Two keys that are the same array index are the same key. *)
Lemma arrayIndex_inj k k' n :
  JsObject.arrayIndex k = Some n -> JsObject.arrayIndex k' = Some n -> k = k'.
Proof.
  intros H H'. apply arrayIndex_decimal in H as [D C], H' as [D' C'].
  assert (Hpow : forall a, (1 <= 10 ^ a)%N).
  { intros a. assert (10 ^ a <> 0)%N by (apply N.pow_nonzero; discriminate). lia. }
  destruct C as [[-> ->] | [L B]], C' as [[-> E] | [L' B']]; try reflexivity.
  - pose proof (Hpow (N.of_nat (String.length k' - 1))). lia.
  - subst n. pose proof (Hpow (N.of_nat (String.length k - 1))). lia.
  - apply (decimal_inj k k' 0%N n); [| exact D | exact D'].
    destruct (Nat.lt_trichotomy (String.length k) (String.length k'))
      as [Hlt | [Heq | Hgt]]; [exfalso | exact Heq | exfalso].
    + assert (10 ^ N.of_nat (String.length k)
              <= 10 ^ N.of_nat (String.length k' - 1))%N
        by (apply N.pow_le_mono_r; [discriminate | lia]).
      lia.
    + assert (10 ^ N.of_nat (String.length k')
              <= 10 ^ N.of_nat (String.length k - 1))%N
        by (apply N.pow_le_mono_r; [discriminate | lia]).
      lia.
Qed.

(** ** Copying an object keeps the enumeration order *)

Lemma indexKeys_tagged o e :
  In e (JsObject.indexKeys o) -> JsObject.arrayIndex (snd e) = Some (fst e).
Proof.
  induction o as [| [k x] o IH]; cbn [JsObject.indexKeys]; [intros [] |].
  destruct (JsObject.arrayIndex k) as [n |] eqn:E; [| exact IH].
  intros H. apply (Permutation_in e (insertIndex_perm n k _)) in H.
  destruct H as [<- | H]; [exact E | now apply IH].
Qed.

Lemma nameKeys_untagged o k :
  In k (JsObject.nameKeys o) -> JsObject.arrayIndex k = None.
Proof.
  induction o as [| [k0 x] o IH]; cbn [JsObject.nameKeys]; [intros [] |].
  destruct (JsObject.arrayIndex k0) as [n |] eqn:E; [exact IH |].
  intros [<- | H]; [exact E | now apply IH].
Qed.

Lemma insertIndex_ascending n k l :
  StronglySorted (fun a b : N * string => (fst a <= fst b)%N) l ->
  StronglySorted (fun a b : N * string => (fst a <= fst b)%N)
    (JsObject.insertIndex n k l).
Proof.
  intros Hs. induction Hs as [| [m k'] l Hs IH Hm]; cbn [JsObject.insertIndex].
  - repeat constructor.
  - destruct (n <? m)%N eqn:E.
    + apply N.ltb_lt in E. constructor; [now constructor |].
      constructor; [cbn; lia |].
      rewrite Forall_forall in *. intros b Hb. specialize (Hm b Hb). cbn in *. lia.
    + apply N.ltb_ge in E. constructor; [exact IH |].
      apply (Permutation_Forall (Permutation_sym (insertIndex_perm n k l))).
      constructor; [exact E | exact Hm].
Qed.

Lemma indexKeys_ascending o :
  StronglySorted (fun a b : N * string => (fst a <= fst b)%N) (JsObject.indexKeys o).
Proof.
  induction o as [| [k x] o IH]; cbn [JsObject.indexKeys]; [constructor |].
  destruct (JsObject.arrayIndex k); [now apply insertIndex_ascending | exact IH].
Qed.

(** With distinct keys the indices are distinct, so the order is
    strict. *)
Lemma indexKeys_strict o :
  NoDup (map snd (JsObject.indexKeys o)) ->
  StronglySorted (fun a b : N * string => (fst a < fst b)%N) (JsObject.indexKeys o).
Proof.
  pose proof (indexKeys_ascending o) as Hs.
  pose proof (indexKeys_tagged o) as Ht.
  induction Hs as [| a l Hs IH Ha]; intros Hd; [constructor |].
  cbn [map] in Hd. inversion Hd as [| ? ? Hnot Hd']; subst.
  constructor.
  - apply IH; [| exact Hd']. intros e He. apply Ht. now right.
  - rewrite Forall_forall in *. intros b Hb. specialize (Ha b Hb).
    destruct (N.eq_dec (fst a) (fst b)) as [E |]; [| lia].
    exfalso. apply Hnot.
    assert (snd a = snd b).
    { apply (arrayIndex_inj _ _ (fst a)); [apply Ht; now left |].
      rewrite E. apply Ht. now right. }
    rewrite H. now apply in_map.
Qed.

(** An object created by adding the keys [map snd indices ++ names], in
    that order, enumerates them in that order. *)
Lemma ownPropertyKeys_created (g : string -> JsNumber) names :
  (forall k, In k names -> JsObject.arrayIndex k = None) ->
  forall indices,
    (forall e, In e indices -> JsObject.arrayIndex (snd e) = Some (fst e)) ->
    StronglySorted (fun a b : N * string => (fst a < fst b)%N) indices ->
    let o := map (fun k => (k, g k)) (map snd indices ++ names) in
    JsObject.indexKeys o = indices /\ JsObject.nameKeys o = names.
Proof.
  intros Hn indices Ht Hs. induction Hs as [| [n k] l Hs IH Hl]; cbn zeta.
  - cbn [map app]. induction names as [| k names IHn]; [split; reflexivity |].
    cbn [map JsObject.indexKeys JsObject.nameKeys].
    rewrite (Hn k) by now left.
    destruct IHn as [-> ->]; [intros k' Hk'; apply Hn; now right |].
    split; reflexivity.
  - cbn [map app JsObject.indexKeys JsObject.nameKeys snd].
    pose proof (Ht (n, k) (or_introl eq_refl)) as Hk. cbn [fst snd] in Hk.
    rewrite Hk.
    destruct IH as [-> ->]; [intros e He; apply Ht; now right |].
    split; [| reflexivity].
    destruct l as [| [m k'] l']; [reflexivity |].
    cbn [JsObject.insertIndex].
    inversion Hl as [| ? ? Hlt _]; subst. cbn in Hlt.
    apply N.ltb_lt in Hlt. now rewrite Hlt.
Qed.

Lemma own_absent o k : ~ In k (JsObject.insertionOrder o) -> JsObject.own o k = None.
Proof.
  intros H. destruct (JsObject.own o k) as [x |] eqn:E; [| reflexivity].
  exfalso. apply H. eapply own_in, E.
Qed.

Lemma fold_set_fresh (g : string -> JsNumber) keys : forall acc,
  NoDup (JsObject.insertionOrder acc ++ keys) ->
  ~ In "__proto__" keys ->
  fold_left (fun acc k => JsObject.set acc k (g k)) keys acc =
  (acc ++ map (fun k => (k, g k)) keys)%list.
Proof.
  induction keys as [| k keys IH]; intros acc Hd Hp; cbn [fold_left map].
  - now rewrite app_nil_r.
  - assert (Hk : (k =? "__proto__")%string = false).
    { apply String.eqb_neq. intros ->. apply Hp. now left. }
    assert (Ho : JsObject.own acc k = None).
    { apply own_absent. intros Hin. apply NoDup_remove_2 in Hd.
      apply Hd. apply in_or_app. now left. }
    unfold JsObject.set at 2. rewrite Hk, Ho.
    rewrite IH.
    + now rewrite <- app_assoc.
    + unfold JsObject.insertionOrder in *. rewrite map_app, <- app_assoc. exact Hd.
    + intros Hin. apply Hp. now right.
Qed.

Lemma copied_keys o :
  NoDup (JsObject.insertionOrder o) ->
  JsObject.own o "__proto__" = None ->
  JsObject.ownPropertyKeys (copied o) = JsObject.ownPropertyKeys o.
Proof.
  intros Hd Hp.
  assert (Hk : NoDup (JsObject.ownPropertyKeys o))
    by exact (Permutation_NoDup (Permutation_sym (ownPropertyKeys_perm o)) Hd).
  unfold copied. rewrite fold_set_fresh.
  - unfold JsObject.empty. cbn [app].
    pose proof (ownPropertyKeys_created
                  (fun k => toNumber (JsObject.get o k)) (JsObject.nameKeys o)
                  (nameKeys_untagged o) (JsObject.indexKeys o) (indexKeys_tagged o))
      as H.
    cbv zeta in H. destruct H as [Hi Hn].
    + apply indexKeys_strict. unfold JsObject.ownPropertyKeys in Hk.
      now apply NoDup_app_remove_r in Hk.
    + unfold JsObject.ownPropertyKeys. now rewrite Hi, Hn.
  - exact Hk.
  - intros Hin. apply ownPropertyKeys_own in Hin as [x Hx]. congruence.
Qed.

(** ** The head of the stable sort *)

Lemma sortBy_head {A} (after : A -> A -> bool) e rest : forall before,
  (forall x, In x before -> after x e = true) ->
  (forall x, In x rest -> after e x = false) ->
  hd_error (sortBy after (before ++ e :: rest)) = Some e.
Proof.
  intros before Hb Hr. induction before as [| x before IH].
  - cbn [app]. unfold sortBy. cbn [fold_right]. fold (sortBy after rest).
    pose proof (sortBy_perm after rest) as Hp.
    destruct (sortBy after rest) as [| y s]; [reflexivity |].
    cbn [insertBy]. rewrite Hr; [reflexivity |].
    apply (Permutation_in y Hp). now left.
  - cbn [app]. unfold sortBy. cbn [fold_right].
    fold (sortBy after (before ++ e :: rest)).
    specialize (IH (fun y Hy => Hb y (or_intror Hy))).
    destruct (sortBy after (before ++ e :: rest)) as [| y s]; [discriminate IH |].
    injection IH as ->. cbn [insertBy]. rewrite Hb by now left. reflexivity.
Qed.

Section FirstInterest.

Variable o : JsObject.t.
Hypothesis distinct : NoDup (JsObject.insertionOrder o).
Hypothesis no_proto : JsObject.own o "__proto__" = None.
Hypothesis counted :
  forall k x, JsObject.own o k = Some x -> exists n, x = Num n /\ 0 < n.

Let entry (k : string) : string * JsNumber :=
  (k, toNumber (JsObject.get (copied o) k)).

Lemma entry_count k :
  In k (JsObject.ownPropertyKeys o) ->
  exists n, entry k = (k, Num n) /\ JsObject.count o k = Some n /\ 0 < n.
Proof.
  intros Hin. apply ownPropertyKeys_own in Hin as [x Hx].
  destruct (counted k x Hx) as (n & -> & Hn). exists n.
  unfold entry, JsObject.get, JsObject.count.
  rewrite copied_own, Hx by exact no_proto. repeat split. exact Hn.
Qed.

(** On an object of positive counts, the entry the sort puts first is
    the key [getMostFrequent] returns. *)
Lemma first_interest :
  hd_error (map fst (firstn 3 (sortBy fewerThan (JsObject.entries (copied o))))) =
  getMostFrequent o.
Proof.
  rewrite getMostFrequent_scan.
  pose proof (firstMaximum_spec o (JsObject.ownPropertyKeys o)) as H.
  unfold JsObject.entries. rewrite copied_keys by assumption. fold entry.
  destruct (firstMaximum (JsObject.ownPropertyKeys o) o) as [k0 |].
  - destruct H as (before & after & c & HK & Hc & Hpos & Hb & Ha).
    assert (Hin : forall k, In k before \/ k = k0 \/ In k after ->
                            In k (JsObject.ownPropertyKeys o)).
    { intros k Hk. rewrite HK. apply in_or_app.
      destruct Hk as [Hk | [-> | Hk]]; [now left | right; now left | right; now right]. }
    destruct (entry_count k0 (Hin k0 (or_intror (or_introl eq_refl))))
      as (c0 & E0 & Hc0 & _).
    assert (c0 = c) by congruence. subst c0.
    rewrite HK, map_app. cbn [map].
    assert (Hhd : hd_error (sortBy fewerThan (map entry before ++ entry k0 :: map entry after))
                  = Some (entry k0)).
    { apply sortBy_head.
      - intros x Hx. apply in_map_iff in Hx as [k [<- Hk]].
        destruct (entry_count k (Hin k (or_introl Hk))) as (n & -> & Hn & _).
        rewrite E0. unfold fewerThan. cbn [snd].
        apply Z.ltb_lt. exact (Hb k n Hk Hn).
      - intros x Hx. apply in_map_iff in Hx as [k [<- Hk]].
        destruct (entry_count k (Hin k (or_intror (or_intror Hk)))) as (n & -> & Hn & _).
        rewrite E0. unfold fewerThan. cbn [snd].
        apply Z.ltb_ge. exact (Ha k n Hk Hn). }
    destruct (sortBy fewerThan (map entry before ++ entry k0 :: map entry after))
      as [| e s]; [discriminate Hhd |].
    injection Hhd as ->. rewrite E0. reflexivity.
  - destruct (JsObject.ownPropertyKeys o) as [| k keys] eqn:EK; [reflexivity |].
    exfalso.
    assert (Hk : In k (JsObject.ownPropertyKeys o)) by (rewrite EK; now left).
    destruct (entry_count k Hk) as (n & _ & Hn & Hpos).
    specialize (H k n (or_introl eq_refl) Hn). lia.
Qed.

End FirstInterest.

(** ** On the tracker *)

Lemma bump_NoDup o k :
  NoDup (JsObject.insertionOrder o) -> NoDup (JsObject.insertionOrder (bump o k)).
Proof.
  intros H. unfold bump, JsObject.postIncrement.
  apply set_keys_NoDup. destruct (truthy (JsObject.get o k)); [exact H |].
  now apply set_keys_NoDup.
Qed.

(** A count that is a number is positive, keys are not repeated and
    [__proto__] is never an own key: [bump] keeps all three. *)
Lemma bump_Counts o k : Counts o -> Counts (bump o k).
Proof.
  intros (Hd & Hp & Hn). split; [now apply bump_NoDup | split].
  - destruct (string_dec k "__proto__") as [-> | Hne].
    + now rewrite bump_proto.
    + now rewrite bump_other.
  - intros k' n. destruct (string_dec k k') as [<- | Hne].
    + destruct (JsObject.inherited k) eqn:Hk.
      * destruct (string_dec k "__proto__") as [-> | Hnp].
        -- rewrite bump_proto. apply Hn.
        -- rewrite bump_inherited by assumption.
           destruct (JsObject.own o k) as [[m |] |] eqn:E; cbn [bumpedInherited];
             intros H; try discriminate H; injection H as <-.
           ++ specialize (Hn k m E). lia.
           ++ lia.
      * rewrite bump_same by exact Hk. intros H. injection H as <-.
        unfold JsObject.count.
        destruct (JsObject.own o k) as [[m |] |] eqn:E; try lia.
        specialize (Hn k m E). lia.
    + rewrite bump_other by exact Hne. apply Hn.
Qed.

Ltac viewed_counts :=
  intros ? ?; unfold preserves, ViewedCounts, prefs in *;
  cbn [self withSelf withOutbox withPage withNow sessionData withSessionData
       casinoPreferences withCasinoPreferences viewed withViewed withClicked
       withAmenitiesSelected withTypePreference withInteractions withSearches
       withPageViews withUserProfile withPreviousVisits withAuth] in *;
  first [assumption | apply bump_Counts; assumption].

Lemma exec_preserves_ViewedCounts env op :
  Frame (preserves ViewedCounts) (exec env op).
Proof.
  destruct op; unfold exec;
    frame_methods ltac:(idtac; viewed_counts)
      ltac:(idtac; progress unfold logPageView, logEvent).
Qed.

Lemma reachable_ViewedCounts env pg t0 ops :
  ViewedCounts (run env (created env pg t0) ops).
Proof.
  apply run_invariant; [apply exec_preserves_ViewedCounts |].
  split; [constructor | split; [reflexivity | intros k n H; discriminate H]].
Qed.

(** ** The labels with the highest counts *)

Section TopInterests.

Variable V : JsObject.t.
Hypothesis no_proto : JsObject.own V "__proto__" = None.
Hypothesis numeric : forall k, JsObject.own V k <> Some NaN.

Let ranked : list (string * JsNumber) := sortBy fewerThan (JsObject.entries (copied V)).

Lemma own_countOf k x :
  JsObject.own V k = Some x ->
  x = Num (countOf V k) /\ JsObject.count V k = Some (countOf V k).
Proof.
  intros H. unfold countOf, JsObject.count. rewrite H.
  destruct x as [n |]; [split; reflexivity |].
  exfalso. exact (numeric k H).
Qed.

Lemma ranked_entry e :
  In e ranked ->
  snd e = Num (countOf V (fst e)) /\
  JsObject.count V (fst e) = Some (countOf V (fst e)).
Proof.
  intros H. apply (Permutation_in e (sortBy_perm fewerThan _)) in H.
  destruct e as [k x]. apply entries_own in H.
  rewrite copied_own in H by exact no_proto. cbn [fst snd]. now apply own_countOf.
Qed.

Lemma counted_ranked k n :
  JsObject.count V k = Some n -> In (k, Num n) ranked.
Proof.
  intros H. apply (Permutation_in _ (Permutation_sym (sortBy_perm fewerThan _))).
  apply entries_own. rewrite copied_own by exact no_proto.
  unfold JsObject.count in H.
  destruct (JsObject.own V k) as [[m |] |]; try discriminate H.
  now injection H as ->.
Qed.

Lemma ranked_sorted : StronglySorted notFewer ranked.
Proof.
  apply sortBy_sorted. rewrite Forall_forall. intros e He.
  apply (Permutation_in e (Permutation_sym (sortBy_perm fewerThan _))) in He.
  destruct (ranked_entry e He) as [Hs _]. now exists (countOf V (fst e)).
Qed.

Lemma notFewer_counts a b :
  In a ranked -> In b ranked -> notFewer a b ->
  countOf V (fst b) <= countOf V (fst a).
Proof.
  intros Ha Hb. destruct (ranked_entry a Ha) as [Ea _], (ranked_entry b Hb) as [Eb _].
  unfold notFewer, fewerThan. rewrite Ea, Eb. apply Z.ltb_ge.
Qed.

Lemma ranked_labels_sorted l :
  incl l ranked -> StronglySorted notFewer l ->
  StronglySorted (fun a b => countOf V b <= countOf V a) (map fst l).
Proof.
  intros Hl Hs. induction Hs as [|e l Hs IH He]; cbn; constructor.
  - apply IH. intros x Hx. apply Hl. now right.
  - rewrite Forall_forall in *. intros k Hk.
    apply in_map_iff in Hk as [e' [<- He']].
    apply notFewer_counts; [apply Hl; now left | apply Hl; now right | auto].
Qed.

(** What the sort and the slice of [getTopInterests] give on [V]. *)
Lemma top_labels :
  let labels := map fst (firstn 3 ranked) in
  (length labels <= 3)%nat /\
  NoDup labels /\
  (forall l, In l labels -> JsObject.count V l = Some (countOf V l)) /\
  StronglySorted (fun a b => countOf V b <= countOf V a) labels /\
  (forall k n, JsObject.count V k = Some n -> ~ In k labels ->
     length labels = 3%nat /\
     forall l, In l labels -> n <= countOf V l).
Proof.
  cbv zeta.
  assert (Hincl : incl (firstn 3 ranked) ranked).
  { intros e He. rewrite <- (firstn_skipn 3 ranked). apply in_or_app. now left. }
  pose proof ranked_sorted as Hs. rewrite <- (firstn_skipn 3 ranked) in Hs.
  apply StronglySorted_app_inv in Hs as [Hs1 Hs2].
  split; [| split; [| split; [| split]]].
  - rewrite length_map. apply firstn_le_length.
  - rewrite <- firstn_map. apply NoDup_firstn.
    apply (Permutation_NoDup
             (Permutation_sym (Permutation_map fst (sortBy_perm fewerThan _)))).
    rewrite entries_keys. apply copied_NoDup.
  - intros l Hl. apply in_map_iff in Hl as [e [<- He]].
    apply ranked_entry, Hincl, He.
  - now apply ranked_labels_sorted.
  - intros k n Hk Hout. pose proof (counted_ranked k n Hk) as Hin.
    rewrite <- (firstn_skipn 3 ranked) in Hin. apply in_app_or in Hin as [Hin | Hin].
    + exfalso. apply Hout. apply in_map_iff. now exists (k, Num n).
    + split.
      * rewrite length_map. apply firstn_length_le.
        destruct (Nat.le_gt_cases 3 (length ranked)) as [H | H]; [exact H |].
        rewrite skipn_all2 in Hin by lia. destruct Hin.
      * intros l Hl. apply in_map_iff in Hl as [e [<- He]].
        assert (Hn : countOf V k = n) by (unfold countOf; now rewrite Hk).
        rewrite <- Hn.
        apply (notFewer_counts e (k, Num n));
          [apply Hincl, He | apply counted_ranked, Hk | now apply Hs2].
Qed.

End TopInterests.

Lemma numeric_entries (o : JsObject.t) :
  Forall (fun e => snd e <> NaN) o -> forall k, JsObject.own o k <> Some NaN.
Proof.
  induction 1 as [| [k0 x] o Hx _ IH]; intros k; cbn [JsObject.own]; [discriminate |].
  destruct (k0 =? k)%string; [| apply IH].
  cbn in Hx. congruence.
Qed.

(** X6.  In every state a tracker can reach in which no count of the
    [viewed] map is [NaN] (a count becomes [NaN] only through a label
    that names a member of [Object.prototype]), [getTopInterests]
    returns, without changing anything, the labels with the highest
    counts: at most three labels, each one a key of the map with a
    positive count and none twice, in non-increasing order of their
    counts; and when a counted label is left out, three labels are
    returned and none of them has a smaller count than the one left
    out. *)
Theorem getTopInterests_top env pg t0 ops :
  let w := run env (created env pg t0) ops in
  let V := viewed (prefs w) in
  (forall k, JsObject.own V k <> Some NaN) ->
  exists labels,
    getTopInterests w = (Normal labels, w) /\
    (length labels <= 3)%nat /\
    NoDup labels /\
    (forall l, In l labels ->
       JsObject.count V l = Some (countOf V l) /\ 0 < countOf V l) /\
    StronglySorted (fun a b => countOf V b <= countOf V a) labels /\
    (forall k n, JsObject.count V k = Some n -> ~ In k labels ->
       length labels = 3%nat /\
       forall l, In l labels -> n <= countOf V l).
Proof.
  intros w V Hnum.
  destruct (reachable_ViewedCounts env pg t0 ops) as (Hd & Hp & Hpos).
  fold w in Hd, Hp, Hpos. fold V in Hd, Hp, Hpos.
  destruct (top_labels V Hp Hnum) as (Hlen & Hnd & Hin & Hs & Hout).
  exists (map fst (firstn 3 (sortBy fewerThan (JsObject.entries (copied V))))).
  split; [reflexivity | split; [exact Hlen | split; [exact Hnd | split; [| split]]]].
  - intros l Hl. specialize (Hin l Hl). split; [exact Hin |].
    unfold JsObject.count in Hin.
    destruct (JsObject.own V l) as [[m |] |] eqn:E; try discriminate Hin.
    injection Hin as Hm. rewrite <- Hm. exact (Hpos l m E).
  - exact Hs.
  - exact Hout.
Qed.

Lemma getTopInterests_top_witness :
  (forall k,
     JsObject.own
       (viewed (prefs (run Sample.online (created Sample.online Sample.home 0)
                         (Initialize :: recordCategories More.fourLabels)))) k
     <> Some NaN) /\
  exists labels,
    fst (getTopInterests
           (run Sample.online (created Sample.online Sample.home 0)
              (Initialize :: recordCategories More.fourLabels))) =
      Normal labels /\
    (length labels <= 3)%nat /\ NoDup labels.
Proof.
  assert (H : forall k,
     JsObject.own
       (viewed (prefs (run Sample.online (created Sample.online Sample.home 0)
                         (Initialize :: recordCategories More.fourLabels)))) k
     <> Some NaN).
  { apply numeric_entries. vm_compute.
    repeat first [apply Forall_nil | apply Forall_cons; [discriminate |]]. }
  split; [exact H |].
  destruct (getTopInterests_top Sample.online Sample.home 0
              (Initialize :: recordCategories More.fourLabels) H)
    as (labels & E & Hlen & Hnd & _).
  exists labels. split; [now rewrite E | split; [exact Hlen | exact Hnd]].
Defined.

(** X21.  In every state a tracker can reach in which no count of the
    [viewed] map is [NaN], the first of the main interests
    [getTopInterests] returns is what [getMostFrequent] gives on the
    map: the copy of the map keeps its enumeration order, the sort is
    stable, and so both pick the first label, in that order, that holds
    the largest count.  It is the derived field [typePreference] when
    the last operation was a category call, which recomputes the field
    (the returning-user lookup may overwrite the field later, so the two
    can differ in other states); the field is then not [null] unless the
    label was "__proto__". *)
Theorem primary_type_first_interest env pg t0 ops :
  let w := run env (created env pg t0) ops in
  (forall k, JsObject.own (viewed (prefs w)) k <> Some NaN) ->
  exists labels,
    getTopInterests w = (Normal labels, w) /\
    hd_error labels = getMostFrequent (viewed (prefs w)) /\
    (forall before v,
       ops = (before ++ [LogCasinoPreference "category" v])%list ->
       hd_error labels = typePreference (prefs w) /\
       (toText v <> "__proto__" -> typePreference (prefs w) <> None)).
Proof.
  intros w Hnum.
  destruct (reachable_ViewedCounts env pg t0 ops) as (Hd & Hp & Hpos).
  fold w in Hd, Hp, Hpos.
  assert (Hc : forall k x, JsObject.own (viewed (prefs w)) k = Some x ->
                           exists n, x = Num n /\ 0 < n).
  { intros k [n |] Hx; [| now apply Hnum in Hx].
    exists n. split; [reflexivity | exact (Hpos k n Hx)]. }
  pose proof (first_interest (viewed (prefs w)) Hd Hp Hc) as Hfirst.
  exists (map fst (firstn 3 (sortBy fewerThan
                               (JsObject.entries (copied (viewed (prefs w))))))).
  split; [reflexivity | split; [exact Hfirst |]].
  intros before v Hops.
  assert (Hw : prefs w =
               let viewed' := bump (viewed (prefs (run env (created env pg t0) before)))
                                (toText v) in
               withTypePreference (getMostFrequent viewed')
                 (withViewed viewed'
                    (prefs (run env (created env pg t0) before)))).
  { unfold w. rewrite Hops, run_snoc. apply logCasinoPreference_category. }
  assert (Ht : typePreference (prefs w) = getMostFrequent (viewed (prefs w)))
    by (rewrite Hw; reflexivity).
  split; [now rewrite Ht |].
  intros Hne. rewrite Ht, getMostFrequent_scan. intros Hnone.
  pose proof (firstMaximum_spec (viewed (prefs w))
                (JsObject.ownPropertyKeys (viewed (prefs w)))) as Hmax.
  rewrite Hnone in Hmax.
  assert (Hown : exists x, JsObject.own (viewed (prefs w)) (toText v) = Some x).
  { rewrite Hw. cbv zeta. cbn [viewed withTypePreference withViewed].
    unfold bump, JsObject.postIncrement. rewrite own_set.
    apply String.eqb_neq in Hne. rewrite Hne, String.eqb_refl. now eexists. }
  destruct Hown as [x Hx]. destruct (Hc _ _ Hx) as (n & -> & Hn).
  assert (Hin : In (toText v) (JsObject.ownPropertyKeys (viewed (prefs w))))
    by (apply ownPropertyKeys_own; eexists; exact Hx).
  assert (Hcount : JsObject.count (viewed (prefs w)) (toText v) = Some n)
    by (unfold JsObject.count; now rewrite Hx).
  specialize (Hmax _ _ Hin Hcount). lia.
Qed.

Lemma primary_type_first_interest_witness :
  (forall k,
     JsObject.own
       (viewed (prefs (run Sample.online (created Sample.online Sample.home 0)
                         (Initialize :: recordCategories More.fourLabels)))) k
     <> Some NaN) /\
  exists labels,
    fst (getTopInterests
           (run Sample.online (created Sample.online Sample.home 0)
              (Initialize :: recordCategories More.fourLabels))) =
      Normal labels /\
    hd_error labels =
      getMostFrequent
        (viewed (prefs (run Sample.online (created Sample.online Sample.home 0)
                          (Initialize :: recordCategories More.fourLabels)))).
Proof.
  assert (H : forall k,
     JsObject.own
       (viewed (prefs (run Sample.online (created Sample.online Sample.home 0)
                         (Initialize :: recordCategories More.fourLabels)))) k
     <> Some NaN).
  { apply numeric_entries. vm_compute.
    repeat first [apply Forall_nil | apply Forall_cons; [discriminate |]]. }
  split; [exact H |].
  destruct (primary_type_first_interest Sample.online Sample.home 0
              (Initialize :: recordCategories More.fourLabels) H)
    as (labels & E & Hhd & _).
  exists labels. split; [now rewrite E | exact Hhd].
Defined.
